(** * paderbox.io.audioread: slice-annotated paths and the audio loader

    A shallow embedding of [load_audio], [_parse_audio_slice] and
    [recursive_load_audio] of [paderbox/io/audioread.py], with the
    collaborators the module calls (the sound-file decoder, the lossy-codec
    decoder, the content probe, path normalisation) gathered in a [World]
    record, and the properties the specification states about them. *)

From Stdlib Require Import ZArith NArith List String Ascii Bool Lia.
From Stdlib Require Import DecimalString DecimalN DecimalZ.
From Stdlib Require Import PrimFloat SpecFloat FloatOps FloatAxioms Uint63.
Import ListNotations.

Open Scope string_scope.
Open Scope Z_scope.

(** ** Python numbers

    [start], [stop] and [frames] are Python numbers: integers, or floats
    when the unit is seconds. *)

Inductive pynum : Type :=
| PInt (z : Z)
| PFloat (f : float).

(** Conversion of an integer to float64, exact below [2^53] in magnitude
    (sample rates and the constants [0] and [-1] are). *)
Definition float_of_Z (z : Z) : float :=
  if z <? 0 then PrimFloat.opp (PrimFloat.of_uint63 (Uint63.of_Z (- z)))
  else PrimFloat.of_uint63 (Uint63.of_Z z).

(** [x == k], [x < k] and [x > k] for a Python number [x] and an integer
    constant [k]. *)
Definition py_eq_int (x : pynum) (k : Z) : bool :=
  match x with
  | PInt z => z =? k
  | PFloat f => PrimFloat.eqb f (float_of_Z k)
  end.

Definition py_lt_int (x : pynum) (k : Z) : bool :=
  match x with
  | PInt z => z <? k
  | PFloat f => PrimFloat.ltb f (float_of_Z k)
  end.

Definition py_gt_int (x : pynum) (k : Z) : bool :=
  match x with
  | PInt z => k <? z
  | PFloat f => PrimFloat.ltb (float_of_Z k) f
  end.

(** [x * samplerate]: an integer product for an integer, the float64
    product for a float. *)
Definition py_mul_rate (x : pynum) (samplerate : Z) : pynum :=
  match x with
  | PInt z => PInt (z * samplerate)
  | PFloat f => PFloat (PrimFloat.mul f (float_of_Z samplerate))
  end.

(** Round [m / d] to the nearest integer, ties to the even one. *)
Definition half_even (m d : Z) : Z :=
  let q := m / d in
  let r := m mod d in
  match 2 * r ?= d with
  | Lt => q
  | Gt => q + 1
  | Eq => if Z.even q then q else q + 1
  end.

(** ** Channel selections, exceptions and results *)

Inductive chansel : Type :=
| ChIndex (i : Z)
| ChSlice (lo hi : option Z)
| ChList (l : list Z).

(** Arguments an exception is raised with. *)
#[warnings="-register-all"]
Inductive pyarg : Type :=
| AStr (s : string)
| ANum (n : pynum)
| AChan (c : chansel)
| AShape (sh : list nat)
| ATuple (l : list pyarg).

Inductive exn_class : Type :=
| AssertionError | ValueError | TypeError | NotImplementedError
| RuntimeError | KeyError | IndexError | AttributeError | OverflowError
| OtherError (name : string).

(** [raise cls(args) from cause]. *)
#[warnings="-register-all"]
Inductive exn : Type :=
| Exn (cls : exn_class) (args : list pyarg) (cause : option exn).

Definition exn_cls (e : exn) : exn_class := let 'Exn c _ _ := e in c.
Definition exn_args (e : exn) : list pyarg := let 'Exn _ a _ := e in a.
Definition exn_cause (e : exn) : option exn := let 'Exn _ _ c := e in c.

Inductive result (X : Type) : Type :=
| Ok (x : X)
| Err (e : exn).
Arguments Ok {X} x.
Arguments Err {X} e.

Definition rbind {X Y} (r : result X) (k : X -> result Y) : result Y :=
  match r with
  | Ok x => k x
  | Err e => Err e
  end.

(** [int(np.round(x))]: the nearest integer, ties to even; NaN raises
    ValueError and an infinity OverflowError. *)
Definition int_round (x : pynum) : result Z :=
  match x with
  | PInt z => Ok z
  | PFloat f =>
      match Prim2SF f with
      | S754_zero _ => Ok 0
      | S754_finite s m e =>
          let v := if 0 <=? e then Z.pos m * 2 ^ e
                   else half_even (Z.pos m) (2 ^ (- e)) in
          Ok (if s then - v else v)
      | S754_nan =>
          Err (Exn ValueError [AStr "cannot convert float NaN to integer"] None)
      | S754_infinity _ =>
          Err (Exn OverflowError
                 [AStr "cannot convert float infinity to integer"] None)
      end
  end.

(** ** Strings *)

Fixpoint drop (n : nat) (s : string) : string :=
  match n, s with
  | O, _ => s
  | S n', String _ s' => drop n' s'
  | S _, EmptyString => EmptyString
  end.

(** [s.startswith(p)]. *)
Fixpoint startswith (p s : string) : bool :=
  match p with
  | EmptyString => true
  | String a p' =>
      match s with
      | EmptyString => false
      | String b s' => Ascii.eqb a b && startswith p' s'
      end
  end.

(** [sub in s]. *)
Fixpoint str_in (sub s : string) : bool :=
  startswith sub s ||
  match s with
  | EmptyString => false
  | String _ s' => str_in sub s'
  end.

(** [s.rsplit(sep, maxsplit=1)] for a non-empty separator: the parts around
    the last occurrence of [sep], [None] when there is none (Python then
    returns the one-element list [[s]]). *)
Fixpoint rsplit1 (sep s : string) : option (string * string) :=
  match s with
  | EmptyString => None
  | String c s' =>
      match rsplit1 sep s' with
      | Some (a, b) => Some (String c a, b)
      | None =>
          if startswith sep s
          then Some (EmptyString, drop (String.length sep) s)
          else None
      end
  end.

(** A [str] is held as the sequence of its characters when they are
    ASCII, and as its UTF-8 bytes otherwise.  [is_digit] is [\d], and the
    digits [int] converts, among the ASCII characters: [0] to [9].
    Python's [\d] and [int] also take the decimal digits of other
    scripts, which are no digits here: what is stated about a text that
    the pattern rejects is stated for ASCII texts ([ascii_only]). *)
Definition is_digit (c : ascii) : bool :=
  (48 <=? nat_of_ascii c)%nat && (nat_of_ascii c <=? 57)%nat.

Definition is_ascii (c : ascii) : bool := (nat_of_ascii c <? 128)%nat.

Fixpoint ascii_only (s : string) : bool :=
  match s with
  | EmptyString => true
  | String c s' => is_ascii c && ascii_only s'
  end.

Fixpoint all_digits (s : string) : bool :=
  match s with
  | EmptyString => true
  | String c s' => is_digit c && all_digits s'
  end.

Definition digit_string (s : string) : bool :=
  match s with
  | EmptyString => false
  | _ => all_digits s
  end.

(** The decimal value of a digit string, from the value [acc] of the
    digits before it. *)
Fixpoint digits_value (acc : Z) (s : string) : Z :=
  match s with
  | EmptyString => acc
  | String c s' => digits_value (10 * acc + (Z.of_nat (nat_of_ascii c) - 48)) s'
  end.

(** [int(x)] on a string: the decimal value of a non-empty digit string,
    ValueError otherwise (the pattern hands over digit strings only). *)
Definition py_int (x : string) : result Z :=
  if digit_string x then Ok (digits_value 0 x)
  else Err (Exn ValueError
              [AStr ("invalid literal for int() with base 10: " ++ x)] None).

(** [str(n)] for an integer. *)
Definition str_of_Z (z : Z) : string := NilZero.string_of_int (Z.to_int z).
Definition str_of_N (n : N) : string := NilZero.string_of_uint (N.to_uint n).

(** ** Regular expressions with capture groups

    The fragment of Python's [re] that [_PATTERN] uses, matched the way
    [re] does: by backtracking, the first alternative first, greedy
    repetition. *)

Inductive regex : Type :=
| Lit (c : ascii)
| Digits
| Cat (r1 r2 : regex)
| Alt (r1 r2 : regex)
| Opt (r : regex)
| Grp (i : nat) (r : regex).

Definition groups := list (option string).

Fixpoint set_group (i : nat) (v : string) (g : groups) : groups :=
  match i, g with
  | O, _ :: g' => Some v :: g'
  | S i', x :: g' => x :: set_group i' v g'
  | _, [] => []
  end.

Definition orelse {X} (a : option X) (b : unit -> option X) : option X :=
  match a with
  | Some x => Some x
  | None => b tt
  end.

(** [\d+]: the longest run of digits first, then shorter ones. *)
Fixpoint digits_bt {X} (s : string) (k : string -> option X) : option X :=
  match s with
  | String c s' =>
      if is_digit c then orelse (digits_bt s' k) (fun _ => k s') else None
  | EmptyString => None
  end.

Fixpoint rmatch {X} (r : regex) (s : string) (g : groups)
    (k : string -> groups -> option X) : option X :=
  match r with
  | Lit c =>
      match s with
      | String c' s' => if Ascii.eqb c c' then k s' g else None
      | EmptyString => None
      end
  | Digits => digits_bt s (fun rest => k rest g)
  | Cat r1 r2 => rmatch r1 s g (fun rest g' => rmatch r2 rest g' k)
  | Alt r1 r2 => orelse (rmatch r1 s g k) (fun _ => rmatch r2 s g k)
  | Opt r1 => orelse (rmatch r1 s g k) (fun _ => k s g)
  | Grp i r1 =>
      rmatch r1 s g
        (fun rest g' =>
           k rest
             (set_group i
                (substring 0 (String.length s - String.length rest) s) g'))
  end.

(** [re.fullmatch(r, s)] and then [.groups()], for a pattern with [n]
    groups; [None] when there is no match. *)
Definition fullmatch (n : nat) (r : regex) (s : string) : option groups :=
  rmatch r s (repeat None n)
    (fun rest g => match rest with EmptyString => Some g | _ => None end).

(** [_PATTERN = r'\[(\d+)?:(\d+)?(?:,(?:(\d+)?:(\d+)?|(\d+)?))?\]'] *)
Definition _PATTERN : regex :=
  Cat (Lit "[")
 (Cat (Opt (Grp 0 Digits))
 (Cat (Lit ":")
 (Cat (Opt (Grp 1 Digits))
 (Cat (Opt (Cat (Lit ",")
                (Alt (Cat (Opt (Grp 2 Digits))
                     (Cat (Lit ":") (Opt (Grp 3 Digits))))
                     (Opt (Grp 4 Digits)))))
      (Lit "]"))))).

(** ** [_parse_audio_slice] *)

(** [lambda x: x if x is None else int(x)] *)
Definition opt_int (x : option string) : result (option Z) :=
  match x with
  | None => Ok None
  | Some s => rbind (py_int s) (fun z => Ok (Some z))
  end.

(** The [try] block: match, take the five groups, convert each. *)
Definition parse_groups (audio_slice : string)
  : result (option Z * option Z * option Z * option Z * option Z) :=
  match fullmatch 5 _PATTERN audio_slice with
  | Some [g1; g2; g3; g4; g5] =>
      rbind (opt_int g1) (fun start =>
      rbind (opt_int g2) (fun stop =>
      rbind (opt_int g3) (fun channel_start =>
      rbind (opt_int g4) (fun channel_stop =>
      rbind (opt_int g5) (fun channel =>
      Ok (start, stop, channel_start, channel_stop, channel))))))
  | _ =>
      Err (Exn AttributeError
             [AStr "'NoneType' object has no attribute 'groups'"] None)
  end.

Definition assert (b : bool) (args : list pyarg) : result unit :=
  if b then Ok tt else Err (Exn AssertionError args None).

Definition opt_arg {X} (f : X -> pyarg) (o : option X) : list pyarg :=
  match o with
  | Some x => [f x]
  | None => []
  end.

Definition is_none {X} (o : option X) : bool :=
  match o with
  | None => true
  | Some _ => false
  end.

Definition _parse_audio_slice (path : string) (start : pynum)
    (stop : option pynum) (channel : option chansel)
  : result (string * pynum * option pynum * option chansel) :=
  rbind (assert (py_eq_int start 0) [ANum start]) (fun _ =>
  rbind (assert (is_none stop) (opt_arg ANum stop)) (fun _ =>
  rbind (assert (is_none channel) (opt_arg AChan channel)) (fun _ =>
  match rsplit1 "::" path with
  | None =>
      Err (Exn ValueError
             [AStr "not enough values to unpack (expected 2, got 1)"] None)
  | Some (_path, audio_slice) =>
      rbind (assert (negb (str_in " " audio_slice)) [AStr audio_slice])
        (fun _ =>
      match parse_groups audio_slice with
      | Err e => Err (Exn ValueError [AStr path] (Some e))
      | Ok (start, stop, channel_start, channel_stop, channel) =>
          let channel :=
            match channel with
            | Some c => Some (ChIndex c)
            | None =>
                if negb (is_none channel_start && is_none channel_stop)
                then Some (ChSlice channel_start channel_stop)
                else None
            end in
          let start := match start with Some s => s | None => 0 end in
          Ok (_path, PInt start, option_map PInt stop, channel)
      end)
  end))).

(** ** Arrays

    A numpy array: its shape and its elements in row-major order.  The
    element type [A] stands for a numpy scalar of the array's dtype. *)

Section Model.

Variable A : Type.

(** [np.frombuffer(buf, "<i2").astype(np.float64) * scale] on one 16-bit
    sample, [scale = 1 / 32768]. *)
Variable i16_sample : Z -> A.

Record ndarray : Type := mk_ndarray { shape : list nat; data : list A }.

Definition ndim (a : ndarray) : nat := List.length (shape a).

Definition size (a : ndarray) : nat := fold_right Nat.mul 1%nat (shape a).

(** Row [i] and column [j] of row-major data with [m] columns ([n] rows). *)
Definition row (m : nat) (d : list A) (i : nat) : list A :=
  firstn m (skipn (i * m) d).

Definition col (n m : nat) (d : list A) (j : nat) : list A :=
  flat_map (fun i => firstn 1 (skipn (i * m + j) d)) (seq 0 n).

(** [signal.T]: the axes reversed.  The loader transposes arrays of one or
    two dimensions only. *)
Definition transpose (a : ndarray) : ndarray :=
  match shape a with
  | [n; m] => mk_ndarray [m; n] (flat_map (col n m (data a)) (seq 0 m))
  | _ => a
  end.

(** [slice(lo, hi).indices(n)] with the default step: the clipped bounds. *)
Definition slice_bound (default n : Z) (b : option Z) : Z :=
  match b with
  | None => default
  | Some v => if v <? 0 then Z.max (v + n) 0 else Z.min v n
  end.

Definition slice_indices (lo hi : option Z) (n : Z) : Z * Z :=
  (slice_bound 0 n lo, slice_bound n n hi).

(** An integer index into an axis of length [n]: negative values count
    from the end, anything outside raises IndexError. *)
Definition norm_index (n : nat) (i : Z) : result nat :=
  let j := if i <? 0 then i + Z.of_nat n else i in
  if (0 <=? j) && (j <? Z.of_nat n) then Ok (Z.to_nat j)
  else Err (Exn IndexError
              [AStr ("index " ++ str_of_Z i ++ " is out of bounds for axis 0")]
              None).

Fixpoint norm_indices (n : nat) (l : list Z) : result (list nat) :=
  match l with
  | [] => Ok []
  | i :: l' =>
      rbind (norm_index n i) (fun j =>
      rbind (norm_indices n l') (fun js => Ok (j :: js)))
  end.

(** [signal[channel, ]] on a two-dimensional array: indexing of the first
    axis by an integer, a slice or a list of integers.  The assertion
    before it in [load_audio] lets no array of another dimension through,
    so that the last case is never reached from there. *)
Definition index_axis0 (a : ndarray) (c : chansel) : result ndarray :=
  match shape a with
  | [n; m] =>
      match c with
      | ChIndex i =>
          rbind (norm_index n i) (fun j =>
          Ok (mk_ndarray [m] (row m (data a) j)))
      | ChSlice lo hi =>
          let '(b, e) := slice_indices lo hi (Z.of_nat n) in
          let k := Z.to_nat (e - b) in
          Ok (mk_ndarray [k; m]
                (flat_map (row m (data a)) (seq (Z.to_nat b) k)))
      | ChList l =>
          rbind (norm_indices n l) (fun js =>
          Ok (mk_ndarray [List.length js; m] (flat_map (row m (data a)) js)))
      end
  | _ =>
      Err (Exn IndexError [AStr "too many indices for array"] None)
  end.

(** [np.concatenate(data)] on one-dimensional arrays. *)
Definition concatenate (l : list (list A)) : result ndarray :=
  match l with
  | [] =>
      Err (Exn ValueError [AStr "need at least one array to concatenate"] None)
  | _ => Ok (mk_ndarray [List.length (List.concat l)] (List.concat l))
  end.

(** ** The collaborators *)

Inductive dtype : Type := Float64 | Float32 | Int32 | Int16.

(** What [load_audio] receives as [path] once normalised: a string (from a
    [str] or a [pathlib.Path]), or a file descriptor or file object. *)
Inductive path_arg : Type :=
| PStr (s : string)
| PFile (h : nat).

(** An open [soundfile.SoundFile]: its metadata, its length in frames and
    the sample at a frame and a channel as read in a dtype. *)
Record SoundFile : Type := {
  samplerate : Z;
  channels : nat;
  subtype : string;
  sf_frames : nat;
  sf_sample : dtype -> nat -> nat -> A
}.

(** What [audioread.audio_open] yields: the rate and the decode buffers. *)
Record AudioFile : Type := {
  ar_samplerate : Z;
  ar_buffers : list (list Byte.byte)
}.

(** The environment of a call.  An error of class [RuntimeError] stands for
    RuntimeError and its subclasses (soundfile's LibsndfileError is one). *)
Record World : Type := {
  normalize_path : string -> string;
  Path_suffix : string -> string;
  Path_str : string -> string;
  Path_as_posix : string -> string;
  SoundFile_open : path_arg -> result SoundFile;
  audio_open : string -> result AudioFile;
  magic_from_file : string -> result string
}.

(** ** Effects: a trace of what was opened and read, and a result *)

Inductive event : Type :=
| EvSoundFile (p : path_arg)
| EvSeek (pos : Z)
| EvRead (frames : Z)
| EvAudioOpen (p : string)
| EvMagic (p : string).

Definition M (X : Type) : Type := (list event * result X)%type.

Definition ret {X} (x : X) : M X := ([], Ok x).
Definition raise {X} (e : exn) : M X := ([], Err e).
Definition lift {X} (r : result X) : M X := ([], r).
Definition emit (e : event) : M unit := ([e], Ok tt).

Definition bind {X Y} (m : M X) (k : X -> M Y) : M Y :=
  match m with
  | (t, Ok x) => let '(t', r) := k x in ((t ++ t')%list, r)
  | (t, Err e) => (t, Err e)
  end.

(** [try: m except ... as e: h e] *)
Definition try_except {X} (m : M X) (h : exn -> M X) : M X :=
  match m with
  | (t, Err e) => let '(t', r) := h e in ((t ++ t')%list, r)
  | (t, Ok x) => (t, Ok x)
  end.


Notation "x <- m ;; k" := (bind m (fun x => k))
  (at level 61, m at next level, right associativity).
Notation "' pat <- m ;; k" := (bind m (fun x => match x with pat => k end))
  (at level 61, pat pattern, m at next level, right associativity).

(** ** The sound-file decoder (soundfile.SoundFile) *)

Definition py_ge_int (x : pynum) (k : Z) : bool :=
  match x with
  | PInt z => k <=? z
  | PFloat f => PrimFloat.leb (float_of_Z k) f
  end.

(** A slice bound has to be an integer. *)
Definition as_index (x : pynum) : result Z :=
  match x with
  | PInt z => Ok z
  | PFloat _ =>
      Err (Exn TypeError
             [AStr "slice indices must be integers or None or have an __index__ method"]
             None)
  end.

Definition opt_index (x : option pynum) : result (option Z) :=
  match x with
  | None => Ok None
  | Some v => rbind (as_index v) (fun z => Ok (Some z))
  end.

(** [f._prepare_read(start, stop, frames)] on a freshly opened, seekable
    file: the position the file is left at and the number of frames to
    read.  A non-negative [frames] is returned as it is; otherwise the
    window [start:stop] is clipped to the file the way a slice is. *)
Definition _prepare_read (f : SoundFile) (start : pynum)
    (stop : option pynum) (frames : pynum) : M (Z * pynum) :=
  if py_ge_int frames 0 && negb (is_none stop) then
    raise (Exn TypeError [AStr "Only one of {frames, stop} may be used"] None)
  else
    start <- lift (as_index start) ;;
    stop <- lift (opt_index stop) ;;
    let '(start, stop) :=
      slice_indices (Some start) stop (Z.of_nat (sf_frames f)) in
    let stop := if stop <? start then start else stop in
    let frames := if py_lt_int frames 0 then PInt (stop - start) else frames in
    _ <- (if negb (start =? 0) then emit (EvSeek start) else ret tt) ;;
    ret (start, frames).

(** The frames [pos .. pos + k - 1] of the file, frame after frame. *)
Definition file_frames (f : SoundFile) (d : dtype) (pos k : nat) : list A :=
  flat_map (fun i => map (sf_sample f d i) (seq 0 (channels f))) (seq pos k).

(** [f.read(frames, dtype, fill_value, always_2d)] at position [pos]:
    [frames] is first reduced to what remains when it is negative or when
    no fill value is given; frames missing from the file are then filled
    with [fill_value]. *)
Definition SoundFile_read (f : SoundFile) (pos : Z) (frames : pynum)
    (d : dtype) (fill_value : option A) (always_2d : bool) : M ndarray :=
  let remaining := Z.of_nat (sf_frames f) - pos in
  let frames :=
    if py_lt_int frames 0
       || (py_gt_int frames remaining && is_none fill_value)
    then PInt remaining else frames in
  match frames with
  | PFloat _ =>
      raise (Exn TypeError
               [AStr "'float' object cannot be interpreted as an integer"] None)
  | PInt k =>
      _ <- emit (EvRead k) ;;
      let k := Z.to_nat k in
      let r := Nat.min k (Z.to_nat remaining) in
      let sh := if always_2d || (1 <? channels f)%nat
                then [k; channels f] else [k] in
      let filled :=
        match fill_value with
        | Some v => repeat v ((k - r) * channels f)
        | None => []
        end in
      ret (mk_ndarray sh (file_frames f d (Z.to_nat pos) r ++ filled)%list)
  end.

(** Modelled from the spec: [paderbox.utils.mapping.Dispatcher] is not
    among the sources; a dictionary whose lookup of an unknown key raises
    KeyError, here the table from the native subtype to the dtype. *)
Definition dtype_of_subtype (s : string) : result dtype :=
  if String.eqb s "PCM_16" then Ok Int16
  else if String.eqb s "FLOAT" then Ok Float32
  else if String.eqb s "DOUBLE" then Ok Float64
  else Err (Exn KeyError [AStr s] None).

(** Lines 226-233: the dtype asked for, or the one of the native subtype
    when [dtype is None]. *)
Definition resolve_dtype (f : SoundFile) (o : option dtype) : result dtype :=
  match o with
  | Some d => Ok d
  | None => dtype_of_subtype (subtype f)
  end.

(** ** The lossy-codec decoder (audioread) *)

(** [np.frombuffer(buf, "<i2")]: little-endian signed 16-bit samples; a
    buffer of odd length raises ValueError. *)
Fixpoint frombuffer_i2 (buf : list Byte.byte) : result (list Z) :=
  match buf with
  | [] => Ok []
  | lo :: hi :: buf' =>
      let u := Z.of_N (Byte.to_N lo) + 256 * Z.of_N (Byte.to_N hi) in
      let v := if u <? 32768 then u else u - 65536 in
      rbind (frombuffer_i2 buf') (fun l => Ok (v :: l))
  | [_] =>
      Err (Exn ValueError
             [AStr "buffer size must be a multiple of element size"] None)
  end.

Fixpoint decode_buffers (bufs : list (list Byte.byte))
  : result (list (list A)) :=
  match bufs with
  | [] => Ok []
  | buf :: bufs' =>
      rbind (frombuffer_i2 buf) (fun l =>
      rbind (decode_buffers bufs') (fun ls =>
      Ok (map i16_sample l :: ls)))
  end.

(** ** [load_audio] *)

(** The keyword parameters [recursive_load_audio] shares with
    [load_audio]; [channel] is passed next to them. *)
Record kwargs : Type := {
  frames : pynum;
  start : pynum;
  stop : option pynum;
  dtype_ : option dtype;
  fill_value : option A;
  expected_sample_rate : option Z;
  unit_ : string;
  return_sample_rate : bool
}.

(** The defaults: [frames=-1, start=0, stop=None, dtype=np.float64,
    fill_value=None, expected_sample_rate=None, unit='samples',
    return_sample_rate=False]. *)
Definition default_kwargs : kwargs := {|
  frames := PInt (-1);
  start := PInt 0;
  stop := None;
  dtype_ := Some Float64;
  fill_value := None;
  expected_sample_rate := None;
  unit_ := "samples";
  return_sample_rate := false
|}.

Definition nl : string := String (ascii_of_nat 10) EmptyString.

(** Lines 181-187: start, stop and channel taken from the file name. *)
Definition split_annotation (path : path_arg) (unit : string)
    (frames start : pynum) (stop : option pynum) (channel : option chansel)
  : M (path_arg * pynum * option pynum * option chansel) :=
  match path with
  | PStr s =>
      if str_in "::" s then
        _ <- lift (assert (String.eqb unit "samples") [AStr unit]) ;;
        _ <- lift (assert (py_eq_int frames (-1)) [ANum frames]) ;;
        ' (_path, start, stop, channel) <-
          lift (_parse_audio_slice s start stop channel) ;;
        ret (PStr _path, start, stop, channel)
      else ret (path, start, stop, channel)
  | PFile _ => ret (path, start, stop, channel)
  end.

Definition open_SoundFile (w : World) (path : path_arg) : M SoundFile :=
  _ <- emit (EvSoundFile path) ;;
  lift (SoundFile_open w path).

(** Lines 189-204: a request in seconds becomes one in samples. *)
Definition resolve_unit (w : World) (path : path_arg) (unit : string)
    (start frames : pynum) (stop : option pynum)
  : M (pynum * pynum * option pynum) :=
  if String.eqb unit "samples" then ret (start, frames, stop)
  else if String.eqb unit "seconds" then
    _ <- match stop with
         | Some s =>
             if py_lt_int s 0
             then raise (Exn NotImplementedError [AStr unit; ANum s] None)
             else ret tt
         | None => ret tt
         end ;;
    f <- open_SoundFile w path ;;
    let samplerate := samplerate f in
    start <- lift (int_round (py_mul_rate start samplerate)) ;;
    frames <- (if py_gt_int frames 0
               then z <- lift (int_round (py_mul_rate frames samplerate)) ;;
                    ret (PInt z)
               else ret frames) ;;
    stop <- match stop with
            | Some s =>
                if py_gt_int s 0
                then z <- lift (int_round (py_mul_rate s samplerate)) ;;
                     ret (Some (PInt z))
                else ret stop
            | None => ret None
            end ;;
    ret (PInt start, frames, stop)
  else raise (Exn ValueError [AStr unit] None).

Definition is_m4a (w : World) (path : path_arg) : bool :=
  match path with
  | PStr s => String.eqb (Path_suffix w s) ".m4a"
  | PFile _ => false
  end.

(** Lines 222-240: the generic decoder. *)
Definition decode_soundfile (w : World) (path : path_arg)
    (start frames : pynum) (stop : option pynum) (channel : option chansel)
    (dtype : option dtype) (fill_value : option A) : M (ndarray * Z) :=
  f <- open_SoundFile w path ;;
  dtype <- lift (resolve_dtype f dtype) ;;
  ' (pos, frames) <- _prepare_read f start stop frames ;;
  data <- SoundFile_read f pos frames dtype fill_value
            (negb (is_none channel)) ;;
  ret (data, samplerate f).

(** Lines 208-220: the [.m4a] decoder. *)
Definition decode_m4a (w : World) (s : string) (start : pynum)
    (stop : option pynum) : M (ndarray * Z) :=
  _ <- lift (assert (py_eq_int start 0 && is_none stop)
               [AStr "audioread does not support partial loading of audio files"]) ;;
  _ <- emit (EvAudioOpen s) ;;
  f <- lift (audio_open w s) ;;
  data <- lift (decode_buffers (ar_buffers f)) ;;
  signal <- lift (concatenate data) ;;
  ret (signal, ar_samplerate f).

(** Lines 207-240, the body of the [try]: the signal as decoded and the
    sample rate of the file. *)
Definition decode (w : World) (path : path_arg) (start frames : pynum)
    (stop : option pynum) (channel : option chansel) (dtype : option dtype)
    (fill_value : option A) : M (ndarray * Z) :=
  match path with
  | PStr s =>
      if String.eqb (Path_suffix w s) ".m4a" then decode_m4a w s start stop
      else decode_soundfile w path start frames stop channel dtype fill_value
  | PFile _ =>
      decode_soundfile w path start frames stop channel dtype fill_value
  end.

Definition is_RuntimeError (c : exn_class) : bool :=
  match c with
  | RuntimeError | NotImplementedError => true
  | _ => false
  end.

(** Lines 241-258: a RuntimeError of the decoders is raised again with the
    output of the [file] tool, for a path that is a string. *)
Definition on_RuntimeError (w : World) (path : path_arg) (e : exn)
  : M (ndarray * Z) :=
  if is_RuntimeError (exn_cls e) then
    match path with
    | PStr s =>
        _ <- emit (EvMagic s) ;;
        probe <- lift (magic_from_file w s) ;;
        let msg := Path_as_posix w s ++ ": " ++ probe in
        if String.eqb (Path_suffix w s) ".wav" then
          raise (Exn RuntimeError
                   [AStr ("Could not read " ++ s ++ "." ++ nl
                          ++ "File format:" ++ nl ++ msg)] (Some e))
        else
          raise (Exn RuntimeError
                   [AStr ("Wrong suffix " ++ Path_suffix w s ++ " in "
                          ++ Path_str w s ++ "." ++ nl
                          ++ "File format:" ++ nl ++ msg)] (Some e))
    | PFile _ => raise e
    end
  else raise e.

Definition rate_message (expected sample_rate : Z) : string :=
  "Requested sampling rate is " ++ str_of_Z expected
  ++ " but the audiofile has " ++ str_of_Z sample_rate.

(** Lines 260-265. *)
Definition check_sample_rate (expected : option Z) (sample_rate : Z) : M unit :=
  match expected with
  | Some e =>
      if negb (e =? sample_rate)
      then raise (Exn ValueError [AStr (rate_message e sample_rate)] None)
      else ret tt
  | None => ret tt
  end.

(** Lines 272-277: the slice along the channel dimension. *)
Definition select_channel (signal : ndarray) (channel : option chansel)
  : M ndarray :=
  match channel with
  | Some c =>
      _ <- lift (assert (ndim signal =? 2)%nat
                   [ATuple [AShape (shape signal); AChan c]]) ;;
      signal <- lift (index_axis0 signal c) ;;
      if (size signal =? 0)%nat
      then raise (Exn ValueError [AStr "Returned signal would be empty"] None)
      else ret signal
  | None => ret signal
  end.

(** Line 179: [normalize_path(path, as_str=True)]; a file descriptor or
    file object is left as it is. *)
Definition normalized (w : World) (path : path_arg) : path_arg :=
  match path with
  | PStr s => PStr (normalize_path w s)
  | PFile h => PFile h
  end.

(** Lines 179-258: from the path to the decoded signal, its sample rate
    and the channel selection in force. *)
Definition read_signal (w : World) (path : path_arg)
    (channel : option chansel) (kw : kwargs) : M (ndarray * Z * option chansel) :=
  let path := normalized w path in
  ' (path, start, stop, channel) <-
    split_annotation path (unit_ kw) (frames kw) (start kw) (stop kw) channel ;;
  ' (start, frames, stop) <-
    resolve_unit w path (unit_ kw) start (frames kw) stop ;;
  ' (signal, sample_rate) <-
    try_except
      (decode w path start frames stop channel (dtype_ kw) (fill_value kw))
      (on_RuntimeError w path) ;;
  ret (signal, sample_rate, channel).

(** Lines 260-282: the check of the rate, the transposition, the channel
    selection and the return value. *)
Definition deliver (kw : kwargs) (signal : ndarray) (sample_rate : Z)
    (channel : option chansel) : M (ndarray * option Z) :=
  _ <- check_sample_rate (expected_sample_rate kw) sample_rate ;;
  let signal := transpose signal in
  signal <- select_channel signal channel ;;
  if return_sample_rate kw then ret (signal, Some sample_rate)
  else ret (signal, None).

Definition load_audio (w : World) (path : path_arg)
    (channel : option chansel) (kw : kwargs) : M (ndarray * option Z) :=
  ' (signal, sample_rate, channel) <- read_signal w path channel kw ;;
  deliver kw signal sample_rate channel.

(** ** [recursive_load_audio] *)

(** The nested structure of paths: a leaf, a tuple, list or generator, or
    a dict. *)
#[warnings="-register-all"]
Inductive paths : Type :=
| Leaf (p : path_arg)
| PSeq (l : list paths)
| PDict (l : list (string * paths)).

(** What comes back: an array, the pair of a signal and its sample rate,
    a list or a dict. *)
#[warnings="-register-all"]
Inductive loaded : Type :=
| LArr (a : ndarray)
| LPair (a : ndarray) (sample_rate : Z)
| LList (l : list loaded)
| LDict (l : list (string * loaded)).

Fixpoint shape_eqb (s1 s2 : list nat) : bool :=
  match s1, s2 with
  | [], [] => true
  | n1 :: s1', n2 :: s2' => (n1 =? n2)%nat && shape_eqb s1' s2'
  | _, _ => false
  end.

(** The elements of arrays that all have the shape [s], one array after
    the other; [None] as soon as an entry is no array or has another
    shape. *)
Fixpoint stack_data (s : list nat) (l : list loaded) : option (list A) :=
  match l with
  | [] => Some []
  | LArr a :: l' =>
      if shape_eqb (shape a) s then
        match stack_data s l' with
        | Some d => Some (data a ++ d)%list
        | None => None
        end
      else None
  | _ :: _ => None
  end.

(** [np.array(data)] on a list of results, as far as the loader looks at
    it: the stacked array when the entries are arrays of one shape, [None]
    when numpy raises ValueError or builds an array of dtype object (which
    of the two depends on the numpy version). *)
Definition np_array (l : list loaded) : option ndarray :=
  match l with
  | [] => Some (mk_ndarray [0%nat] [])
  | LArr a :: _ =>
      match stack_data (shape a) l with
      | Some d => Some (mk_ndarray (List.length l :: shape a) d)
      | None => None
      end
  | _ :: _ => None
  end.

Definition load_leaf (w : World) (kw : kwargs) (p : path_arg) : M loaded :=
  ' (signal, rate) <- load_audio w p None kw ;;
  match rate with
  | Some sample_rate => ret (LPair signal sample_rate)
  | None => ret (LArr signal)
  end.

Fixpoint recursive_load_audio (w : World) (kw : kwargs) (path : paths)
  : M loaded :=
  match path with
  | PSeq l =>
      data <- (fix each (l : list paths) : M (list loaded) :=
                 match l with
                 | [] => ret []
                 | a :: l' =>
                     x <- recursive_load_audio w kw a ;;
                     xs <- each l' ;;
                     ret (x :: xs)
                 end) l ;;
      match np_array data with
      | Some np_data => ret (LArr np_data)
      | None => ret (LList data)
      end
  | PDict d =>
      kvs <- (fix each (d : list (string * paths))
                : M (list (string * loaded)) :=
                match d with
                | [] => ret []
                | (k, v) :: d' =>
                    x <- recursive_load_audio w kw v ;;
                    xs <- each d' ;;
                    ret ((k, x) :: xs)
                end) d ;;
      ret (LDict kvs)
  | Leaf p => load_leaf w kw p
  end.

End Model.

Arguments mk_ndarray {A} shape data.
Arguments shape {A} n.
Arguments data {A} n.
Arguments ndim {A} a.
Arguments size {A} a.
Arguments row {A} m d i.
Arguments col {A} n m d j.
Arguments transpose {A} a.
Arguments index_axis0 {A} a c.
Arguments concatenate {A} l.
Arguments samplerate {A} s.
Arguments channels {A} s.
Arguments subtype {A} s.
Arguments sf_frames {A} s.
Arguments sf_sample {A} s d i c.
Arguments normalize_path {A} w s.
Arguments Path_suffix {A} w s.
Arguments Path_str {A} w s.
Arguments Path_as_posix {A} w s.
Arguments SoundFile_open {A} w p.
Arguments audio_open {A} w s.
Arguments magic_from_file {A} w s.
Arguments _prepare_read {A} f start stop frames.
Arguments file_frames {A} f d pos k.
Arguments SoundFile_read {A} f pos frames d fill_value always_2d.
Arguments decode_buffers {A} i16_sample bufs.
Arguments frames {A} k.
Arguments start {A} k.
Arguments stop {A} k.
Arguments dtype_ {A} k.
Arguments fill_value {A} k.
Arguments expected_sample_rate {A} k.
Arguments unit_ {A} k.
Arguments return_sample_rate {A} k.
Arguments default_kwargs {A}.
Arguments open_SoundFile {A} w path.
Arguments resolve_unit {A} w path unit start frames stop.
Arguments is_m4a {A} w path.
Arguments decode_soundfile {A} w path start frames stop channel dtype fill_value.
Arguments decode_m4a {A} i16_sample w s start stop.
Arguments decode {A} i16_sample w path start frames stop channel dtype fill_value.
Arguments on_RuntimeError {A} w path e.
Arguments select_channel {A} signal channel.
Arguments normalized {A} w path.
Arguments resolve_dtype {A} f o.
Arguments read_signal {A} i16_sample w path channel kw.
Arguments deliver {A} kw signal sample_rate channel.
Arguments load_audio {A} i16_sample w path channel kw.
Arguments LArr {A} a.
Arguments LPair {A} a sample_rate.
Arguments LList {A} l.
Arguments LDict {A} l.
Arguments stack_data {A} s l.
Arguments np_array {A} l.
Arguments load_leaf {A} i16_sample w kw p.
Arguments recursive_load_audio {A} i16_sample w kw path.

Notation "x <- m ;; k" := (bind m (fun x => k))
  (at level 61, m at next level, right associativity).

(** ** A small world to run the loader in

    Samples are integers here; the sample of frame [i] and channel [c] is
    [10 * i + c], so that an entry of a result shows where it came from. *)

Definition demo_file (n ch : nat) (rate : Z) : SoundFile Z := {|
  samplerate := rate;
  channels := ch;
  subtype := "PCM_16";
  sf_frames := n;
  sf_sample := fun _ i c => Z.of_nat (10 * i + c)
|}.

(** [Path(s).suffix] for a plain file name. *)
Definition demo_suffix (s : string) : string :=
  match rsplit1 "." s with
  | Some (EmptyString, _) => EmptyString
  | Some (_, ext) => "." ++ ext
  | None => EmptyString
  end.

(** [speech.wav]: 8 frames, one channel; [observation.wav]: 5 frames, six
    channels; both at 4 frames per second.  [song.m4a]: two buffers with
    three 16-bit samples in all. *)
Definition demo_world : World Z := {|
  normalize_path := fun s => s;
  Path_suffix := demo_suffix;
  Path_str := fun s => s;
  Path_as_posix := fun s => s;
  SoundFile_open := fun p =>
    match p with
    | PStr s =>
        if String.eqb s "speech.wav" then Ok (demo_file 8 1 4)
        else if String.eqb s "observation.wav" then Ok (demo_file 5 6 4)
        else Err (Exn RuntimeError [AStr ("Error opening " ++ s)] None)
    | PFile _ => Err (Exn RuntimeError [AStr "Error opening file"] None)
    end;
  audio_open := fun s =>
    if String.eqb s "song.m4a"
    then Ok {| ar_samplerate := 4;
               ar_buffers := [[Byte.x01; Byte.x00; Byte.xff; Byte.xff];
                              [Byte.x00; Byte.x80]] |}
    else Err (Exn (OtherError "NoBackendError") [] None);
  magic_from_file := fun s => Ok "data"
|}.

(** The identity stands for the scaling of a 16-bit sample in the demo. *)
Definition demo_load (path : string) (channel : option chansel)
    (kw : kwargs Z) : M (ndarray Z * option Z) :=
  load_audio (fun z => z) demo_world (PStr path) channel kw.

Definition with_frames {A} (n : pynum) (kw : kwargs A) : kwargs A := {|
  frames := n; start := start kw; stop := stop kw; dtype_ := dtype_ kw;
  fill_value := fill_value kw;
  expected_sample_rate := expected_sample_rate kw;
  unit_ := unit_ kw; return_sample_rate := return_sample_rate kw |}.

Definition with_start {A} (n : pynum) (kw : kwargs A) : kwargs A := {|
  frames := frames kw; start := n; stop := stop kw; dtype_ := dtype_ kw;
  fill_value := fill_value kw;
  expected_sample_rate := expected_sample_rate kw;
  unit_ := unit_ kw; return_sample_rate := return_sample_rate kw |}.

Definition with_stop {A} (n : option pynum) (kw : kwargs A) : kwargs A := {|
  frames := frames kw; start := start kw; stop := n; dtype_ := dtype_ kw;
  fill_value := fill_value kw;
  expected_sample_rate := expected_sample_rate kw;
  unit_ := unit_ kw; return_sample_rate := return_sample_rate kw |}.

Definition with_fill_value {A} (v : option A) (kw : kwargs A) : kwargs A := {|
  frames := frames kw; start := start kw; stop := stop kw; dtype_ := dtype_ kw;
  fill_value := v;
  expected_sample_rate := expected_sample_rate kw;
  unit_ := unit_ kw; return_sample_rate := return_sample_rate kw |}.

Definition with_expected_sample_rate {A} (r : option Z) (kw : kwargs A)
  : kwargs A := {|
  frames := frames kw; start := start kw; stop := stop kw; dtype_ := dtype_ kw;
  fill_value := fill_value kw;
  expected_sample_rate := r;
  unit_ := unit_ kw; return_sample_rate := return_sample_rate kw |}.

Definition with_unit {A} (u : string) (kw : kwargs A) : kwargs A := {|
  frames := frames kw; start := start kw; stop := stop kw; dtype_ := dtype_ kw;
  fill_value := fill_value kw;
  expected_sample_rate := expected_sample_rate kw;
  unit_ := u; return_sample_rate := return_sample_rate kw |}.

(** ** Slice annotations, as the grammar writes them

    [[ start? : stop? ( , ( lo? : hi? | index? ) )? ]]; every number is a
    non-empty string of digits. *)

Inductive channel_annotation : Type :=
| NoChannel
| BareIndex (index : option string)
| Range (lo hi : option string).

Record annotation : Type := {
  a_start : option string;
  a_stop : option string;
  a_channel : channel_annotation
}.

Definition show_field (o : option string) : string :=
  match o with
  | Some s => s
  | None => EmptyString
  end.

Definition show_channel (c : channel_annotation) : string :=
  match c with
  | NoChannel => EmptyString
  | BareIndex i => "," ++ show_field i
  | Range lo hi => "," ++ show_field lo ++ ":" ++ show_field hi
  end.

Definition show_annotation (a : annotation) : string :=
  "[" ++ show_field (a_start a) ++ ":" ++ show_field (a_stop a)
  ++ show_channel (a_channel a) ++ "]".

Definition valid_field (o : option string) : bool :=
  match o with
  | Some s => digit_string s
  | None => true
  end.

Definition valid_annotation (a : annotation) : bool :=
  valid_field (a_start a) && valid_field (a_stop a) &&
  match a_channel a with
  | NoChannel => true
  | BareIndex i => valid_field i
  | Range lo hi => valid_field lo && valid_field hi
  end.

Definition field_value (o : option string) : option Z :=
  option_map (digits_value 0) o.

(** The bounds an annotation encodes: a missing start is [0], a missing
    stop is absent, a bare integer is a channel index, a range with a bound
    is a half-open range of channels, and there is no channel selection
    otherwise. *)
Definition encoded_start (a : annotation) : Z :=
  match field_value (a_start a) with
  | Some z => z
  | None => 0
  end.

Definition encoded_stop (a : annotation) : option Z := field_value (a_stop a).

Definition encoded_channel (a : annotation) : option chansel :=
  match a_channel a with
  | NoChannel => None
  | BareIndex (Some i) => Some (ChIndex (digits_value 0 i))
  | BareIndex None => None
  | Range None None => None
  | Range lo hi => Some (ChSlice (field_value lo) (field_value hi))
  end.

(** ** What a match of the pattern leaves in the groups *)

Definition starts_digit (s : string) : bool :=
  match s with
  | String c _ => is_digit c
  | EmptyString => false
  end.

Definition put_field (i : nat) (o : option string) (g : groups) : groups :=
  match o with
  | Some ds => set_group i ds g
  | None => g
  end.

Definition final_groups (a : annotation) : groups :=
  [a_start a; a_stop a;
   match a_channel a with Range lo _ => lo | _ => None end;
   match a_channel a with Range _ hi => hi | _ => None end;
   match a_channel a with BareIndex i => i | _ => None end].

(** ** Helpers of the statements *)

(** What [deliver] does once the rate has been accepted. *)
Definition hand_over {A : Type} (kw : kwargs A) (signal : ndarray A)
    (sample_rate : Z) (channel : option chansel) : M (ndarray A * option Z) :=
  bind (select_channel (transpose signal) channel) (fun signal =>
  if return_sample_rate kw then ret (signal, Some sample_rate)
  else ret (signal, None)).

(** The element of a two-dimensional array at row [i] and column [j]. *)
Definition entry {A : Type} (a : ndarray A) (i j : nat) : option A :=
  match shape a with
  | [_; m] => nth_error (data a) (i * m + j)
  | _ => None
  end.

(** The length of the last axis, the one of the samples in a result. *)
Definition sample_axis {A : Type} (a : ndarray A) : nat := last (shape a) 0%nat.

(** [isinstance(path, str) and '::' in path] *)
Definition annotated (path : path_arg) : bool :=
  match path with
  | PStr s => str_in "::" s
  | PFile _ => false
  end.


(** A function with effects applied to the entries of a list, from the
    first to the last; the first failure ends the run. *)
Fixpoint map_M {X Y : Type} (f : X -> M Y) (l : list X) : M (list Y) :=
  match l with
  | [] => ret []
  | a :: l' => bind (f a) (fun x => bind (map_M f l') (fun xs => ret (x :: xs)))
  end.

(** An entry that is an array of the shape [s]. *)
Definition array_of_shape {A : Type} (s : list nat) (x : loaded A) : Prop :=
  exists a, x = LArr a /\ shape a = s.

Definition array_data {A : Type} (x : loaded A) : list A :=
  match x with
  | LArr a => data a
  | _ => []
  end.

(** [round(x * samplerate)], as an integer. *)
Definition rounded_samples (x : pynum) (samplerate : Z) : result Z :=
  int_round (py_mul_rate x samplerate).

(** Every channel a selection names is one of the [m] channels of the
    file (a negative index counts from the end; a slice is clipped). *)
Definition channels_exist (m : nat) (c : chansel) : bool :=
  match c with
  | ChIndex i => (- Z.of_nat m <=? i) && (i <? Z.of_nat m)
  | ChSlice _ _ => true
  | ChList l =>
      forallb (fun i => (- Z.of_nat m <=? i) && (i <? Z.of_nat m)) l
  end.

(** ** More helpers of the statements *)

Definition with_return_sample_rate {A} (b : bool) (kw : kwargs A)
  : kwargs A := {|
  frames := frames kw; start := start kw; stop := stop kw; dtype_ := dtype_ kw;
  fill_value := fill_value kw;
  expected_sample_rate := expected_sample_rate kw;
  unit_ := unit_ kw; return_sample_rate := b |}.

(** The 16-bit samples of a buffer, two bytes each, the low byte first. *)
Fixpoint i2_samples (buf : list Byte.byte) : list Z :=
  match buf with
  | lo :: hi :: buf' =>
      let u := Z.of_N (Byte.to_N lo) + 256 * Z.of_N (Byte.to_N hi) in
      (if u <? 32768 then u else u - 65536) :: i2_samples buf'
  | _ => []
  end.

(** The small world with another answer of the [.m4a] decoder. *)
Definition demo_world_m4a (r : result AudioFile) : World Z := {|
  normalize_path := normalize_path demo_world;
  Path_suffix := Path_suffix demo_world;
  Path_str := Path_str demo_world;
  Path_as_posix := Path_as_posix demo_world;
  SoundFile_open := SoundFile_open demo_world;
  audio_open := fun _ => r;
  magic_from_file := magic_from_file demo_world
|}.

(** [l[lo:hi]] for a Python list. *)
Definition py_slice {X : Type} (l : list X) (lo hi : option Z) : list X :=
  let '(b, e) := slice_indices lo hi (Z.of_nat (List.length l)) in
  firstn (Z.to_nat (e - b)) (skipn (Z.to_nat b) l).

(** The frames of a file as read in a dtype, each with its channels. *)
Definition frames_of {A : Type} (f : SoundFile A) (d : dtype) : list (list A) :=
  map (fun i => map (sf_sample f d i) (seq 0 (channels f)))
    (seq 0 (sf_frames f)).

Definition opt_PInt (o : option Z) : option pynum := option_map PInt o.

(** ** [audio_length], [audio_channels] and [audio_shape]

    The three open [soundfile.SoundFile(str(path))]; [path] is the string
    that [str(path)] gives.  Nothing is normalised and no annotation is
    looked for. *)

(** What [audio_length] returns: a number of samples, a number of
    seconds, or, for an unknown unit, the ValueError it builds and
    returns without raising it. *)
Inductive length_value : Type :=
| Samples (n : Z)
| Seconds (x : float)
| Returned (e : exn).

(** [a / b] for two integers: ZeroDivisionError for [b == 0], and the
    float64 quotient otherwise (exact operands below [2^53]). *)
Definition py_truediv (a b : Z) : result float :=
  if b =? 0
  then Err (Exn (OtherError "ZeroDivisionError") [AStr "division by zero"] None)
  else Ok (PrimFloat.div (float_of_Z a) (float_of_Z b)).

(** Lines 501-532. *)
Definition audio_length {A : Type} (w : World A) (path : string)
    (unit : string) : M length_value :=
  if String.eqb unit "samples" then
    bind (open_SoundFile w (PStr path)) (fun f =>
    ret (Samples (Z.of_nat (sf_frames f))))
  else if String.eqb unit "seconds" then
    bind (open_SoundFile w (PStr path)) (fun f =>
    bind (lift (py_truediv (Z.of_nat (sf_frames f)) (samplerate f))) (fun x =>
    ret (Seconds x)))
  else ret (Returned (Exn ValueError [AStr unit] None)).

(** Lines 535-551. *)
Definition audio_channels {A : Type} (w : World A) (path : string) : M nat :=
  bind (open_SoundFile w (PStr path)) (fun f => ret (channels f)).

(** What [audio_shape] returns: the length alone for one channel, the
    pair of channels and length otherwise. *)
Inductive shape_value : Type :=
| Length (n : nat)
| ChannelsLength (c n : nat).

(** Lines 554-576. *)
Definition audio_shape {A : Type} (w : World A) (path : string)
  : M shape_value :=
  bind (open_SoundFile w (PStr path)) (fun f =>
  let channels := channels f in
  if (channels =? 1)%nat then ret (Length (sf_frames f))
  else ret (ChannelsLength channels (sf_frames f))).

(** ** [audioread] (deprecated): the reader built on [wavefile] *)

(** An open [wavefile.WaveReader]: its metadata, and the content (row
    after row) of the zero-initialised [(channels, samples)] buffer once
    [seek(frames_before)] and [read(data)] have run. *)
Record WaveReader (A : Type) : Type := {
  wr_channels : nat;
  wr_samplerate : Z;
  wr_frames : Z;
  wr_read : Z -> nat -> result (list A)
}.

Arguments wr_channels {A} _.
Arguments wr_samplerate {A} _.
Arguments wr_frames {A} _.
Arguments wr_read {A} _ _ _.

(** What [audioread] calls outside this module: [os.path.expanduser],
    [wavefile.WaveReader(path)] and [run_process('file <path>').stdout].
    An error of class [OSError] stands for OSError and its subclasses. *)
Record Wavefile (A : Type) : Type := {
  expanduser : string -> string;
  WaveReader_open : string -> result (WaveReader A);
  run_file : string -> result string
}.

Arguments expanduser {A} _ _.
Arguments WaveReader_open {A} _ _.
Arguments run_file {A} _ _.

Definition OSError : exn_class := OtherError "OSError".

Definition is_OSError (c : exn_class) : bool :=
  match c with
  | OtherError name => String.eqb name "OSError"
  | _ => false
  end.

(** The second axis of [np.zeros((channels, samples))]: a negative
    length raises ValueError. *)
Definition np_zeros_axis (samples : Z) : result nat :=
  if samples <? 0
  then Err (Exn ValueError [AStr "negative dimensions are not allowed"] None)
  else Ok (Z.to_nat samples).

(** [np.squeeze(a)]: the axes of length one removed. *)
Definition squeeze {A : Type} (a : ndarray A) : ndarray A :=
  mk_ndarray (filter (fun n => negb (n =? 1)%nat) (shape a)) (data a).

(** Lines 474-493: the body of the [with] block. *)
Definition audioread_reader {A : Type} (wav_reader : WaveReader A)
    (offset : pynum) (duration : option pynum)
    (expected_sample_rate : option Z) : result (ndarray A * Z) :=
  let channels := wr_channels wav_reader in
  let sample_rate := wr_samplerate wav_reader in
  rbind (match expected_sample_rate with
         | Some e =>
             if negb (e =? sample_rate)
             then Err (Exn ValueError [AStr (rate_message e sample_rate)] None)
             else Ok tt
         | None => Ok tt
         end) (fun _ =>
  rbind (match duration with
         | None =>
             rbind (int_round (py_mul_rate offset sample_rate)) (fun o =>
             Ok (wr_frames wav_reader - o, o))
         | Some d =>
             rbind (int_round (py_mul_rate d sample_rate)) (fun s =>
             rbind (int_round (py_mul_rate offset sample_rate)) (fun o =>
             Ok (s, o)))
         end) (fun '(samples, frames_before) =>
  rbind (np_zeros_axis samples) (fun n =>
  rbind (wr_read wav_reader frames_before n) (fun data =>
  Ok (squeeze (mk_ndarray [channels; n] data), sample_rate))))).

(** Lines 405-498.  [path] is the string of the path ([str(path)] for a
    [pathlib.Path]); [offset] defaults to [0.0], the two others to
    [None]. *)
Definition audioread {A : Type} (w : Wavefile A) (path : string)
    (offset : pynum) (duration : option pynum)
    (expected_sample_rate : option Z) : result (ndarray A * Z) :=
  let path := expanduser w path in
  match rbind (WaveReader_open w path) (fun wav_reader =>
          audioread_reader wav_reader offset duration expected_sample_rate)
  with
  | Ok x => Ok x
  | Err e =>
      if is_OSError (exn_cls e)
      then rbind (run_file w path) (fun stdout =>
           Err (Exn OSError [AStr stdout] (Some e)))
      else Err e
  end.

(** A reader over a file with [n] frames of [c] channels at 16 kHz,
    sample [10 * i + ch] at frame [i] and channel [ch], and [0] where the
    file has ended. *)
Definition demo_reader (n c : nat) : WaveReader Z := {|
  wr_channels := c;
  wr_samplerate := 16000;
  wr_frames := Z.of_nat n;
  wr_read := fun frames_before samples =>
    Ok (flat_map (fun ch =>
          map (fun i =>
                 let k := (Z.to_nat frames_before + i)%nat in
                 if (k <? n)%nat then Z.of_nat (10 * k + ch) else 0)
              (seq 0 samples))
        (seq 0 c))
|}.

Definition demo_wavefile : Wavefile Z := {|
  expanduser := fun p => p;
  WaveReader_open := fun p =>
    if String.eqb p "speech.wav" then Ok (demo_reader 8 1)
    else if String.eqb p "observation.wav" then Ok (demo_reader 5 6)
    else Err (Exn OSError [AStr "Error opening file"] None);
  run_file := fun p => Ok (p ++ ": data")
|}.

(** ** [read_from_byte_string] *)

(** What [wave.openfp(BytesIO(byte_string))] gives: the number of
    channels and of frames of the header, and the bytes that
    [readframes(n)] returns. *)
Record Wave_read : Type := {
  getnchannels : nat;
  getnframes : nat;
  readframes : nat -> list Byte.byte
}.

(** [l[k::step]]: the element at [k] and every [step]-th one after it. *)
Fixpoint strided {X : Type} (step k : nat) (l : list X) : list X :=
  match l with
  | [] => []
  | x :: l' =>
      match k with
      | O => x :: strided step (step - 1) l'
      | S k' => strided step k' l'
      end
  end.

(** [np.array(rows)] for a list of one-dimensional integer arrays,
    followed by [astype]: rows of one length give a two-dimensional
    array; for rows of different lengths one of the two raises
    ValueError (which, and with what message, depends on the numpy
    version). *)
Definition np_array_rows (rows : list (list Z)) : result (ndarray Z) :=
  match rows with
  | [] => Ok (mk_ndarray [0%nat] [])
  | r :: _ =>
      if forallb (fun r' => (List.length r' =? List.length r)%nat) rows
      then Ok (mk_ndarray [List.length rows; List.length r]
                 (List.concat rows))
      else Err (Exn ValueError
                  [AStr "setting an array element with a sequence."] None)
  end.

(** [np.max(a)]: the largest element; ValueError for an empty array. *)
Definition np_max (l : list Z) : result Z :=
  match l with
  | [] =>
      Err (Exn ValueError
             [AStr ("zero-size array to reduction operation maximum "
                    ++ "which has no identity")] None)
  | x :: l' => Ok (fold_left Z.max l' x)
  end.

(** Lines 634-648, for the default [dtype] of little-endian 16-bit
    samples.  [f32_div x m] is the float32 quotient of the sample [x]
    by the integer [m]. *)
Definition read_from_byte_string {A : Type} (f32_div : Z -> Z -> A)
    (wave_openfp : list Byte.byte -> result Wave_read)
    (byte_string : list Byte.byte) : result (ndarray A) :=
  rbind (wave_openfp byte_string) (fun wav_file =>
  let channels := getnchannels wav_file in
  rbind (frombuffer_i2 (readframes wav_file (getnframes wav_file)))
    (fun interleaved_audio_data =>
  rbind (np_array_rows
           (map (fun ch => strided channels ch interleaved_audio_data)
              (seq 0 channels))) (fun audio_data =>
  rbind (np_max (data audio_data)) (fun m =>
  Ok (mk_ndarray (shape audio_data)
        (map (fun x => f32_div x m) (data audio_data))))))).

(** A stereo stream of three frames: the bytes of the samples
    [1, -1, 2, -2, 3, -3]. *)
Definition demo_wave (bs : list Byte.byte) : result Wave_read :=
  Ok {| getnchannels := 2;
        getnframes := 3;
        readframes := fun n => firstn (4 * n) bs |}.

Definition demo_bytes : list Byte.byte :=
  [Byte.x01; Byte.x00; Byte.xff; Byte.xff; Byte.x02; Byte.x00;
   Byte.xfe; Byte.xff; Byte.x03; Byte.x00; Byte.xfd; Byte.xff].

(** ** What the statements on rounding and on short reads speak of *)

(** The annotation of a path, the part after its last [::], is ASCII
    (a path without [::] has none). *)
Definition ascii_annotation (path : string) : bool :=
  match rsplit1 "::" path with
  | Some (_, a) => ascii_only a
  | None => true
  end.

(** The number a finite Python number stands for, as a fraction
    [num / den] with a positive denominator: an integer is itself, a
    float [(-1)^s * m * 2^e] is read off its sign, mantissa and
    exponent.  NaN and the infinities stand for no number. *)
Definition exact_value (x : pynum) : option (Z * Z) :=
  match x with
  | PInt z => Some (z, 1)
  | PFloat f =>
      match Prim2SF f with
      | S754_zero _ => Some (0, 1)
      | S754_finite s m e =>
          let n := if s then Z.neg m else Z.pos m in
          if 0 <=? e then Some (n * 2 ^ e, 1) else Some (n, 2 ^ (- e))
      | _ => None
      end
  end.


(** [z] is the integer nearest to [num / den]: it is at most a half
    away, and when it is exactly a half away it is the even one of the
    two integers that are. *)
Definition nearest_even (num den z : Z) : Prop :=
  2 * Z.abs (z * den - num) <= den
  /\ (2 * Z.abs (z * den - num) = den -> Z.even z = true).

(** [z] is [round(x)] for the number [x]. *)
Definition rounds_to (x : pynum) (z : Z) : Prop :=
  exists num den,
    exact_value x = Some (num, den) /\ 0 < den /\ nearest_even num den z.


(** * Properties *)

(** ** Strings and digits *)

Lemma digit_string_cons s :
  digit_string s = true ->
  exists c s', s = String c s' /\ is_digit c = true /\ all_digits s' = true.
Proof.
  destruct s as [|c s']; simpl; [discriminate|].
  intros H. apply andb_prop in H. destruct H as [Hc Hs]. eauto.
Qed.

Lemma digit_string_all s : digit_string s = true -> all_digits s = true.
Proof. destruct s; [discriminate | exact (fun H => H)]. Qed.

Lemma is_digit_neq (c d : ascii) :
  is_digit c = true -> is_digit d = false -> Ascii.eqb d c = false.
Proof.
  intros Hc Hd. destruct (Ascii.eqb_spec d c) as [->|]; [congruence | reflexivity].
Qed.

Lemma substring_append (s r : string) :
  substring 0 (String.length (s ++ r) - String.length r) (s ++ r) = s.
Proof.
  assert (L : forall s, String.length (s ++ r) = (String.length s + String.length r)%nat).
  { intros t. induction t as [|c t IH]; simpl; [reflexivity | now rewrite IH]. }
  rewrite L. replace (String.length s + String.length r - String.length r)%nat
    with (String.length s) by lia.
  induction s as [|c s IH]; simpl.
  - destruct r; reflexivity.
  - now rewrite IH.
Qed.

(** ** The matcher on digit runs *)

Lemma digits_bt_stop {X} (r : string) (k : string -> option X) :
  starts_digit r = false -> digits_bt r k = None.
Proof. destruct r as [|c r]; simpl; [reflexivity | now intros ->]. Qed.

Lemma digits_bt_some {X} (ds r : string) (k : string -> option X) (x : X) :
  digit_string ds = true -> starts_digit r = false -> k r = Some x ->
  digits_bt (ds ++ r) k = Some x.
Proof.
  intros Hds Hr Hk. apply digit_string_all in Hds as Hall.
  destruct ds as [|c ds]; [discriminate|]. clear Hds.
  revert c Hall. induction ds as [|d ds IH]; intros c Hall; simpl in *.
  - apply andb_prop in Hall. destruct Hall as [-> _].
    rewrite (digits_bt_stop r k Hr). exact Hk.
  - apply andb_prop in Hall. destruct Hall as [-> Hall].
    rewrite (IH d Hall). reflexivity.
Qed.

Lemma digits_bt_none {X} (ds r : string) (k : string -> option X) :
  all_digits ds = true -> starts_digit r = false ->
  (forall ds', all_digits ds' = true -> k (ds' ++ r) = None) ->
  digits_bt (ds ++ r) k = None.
Proof.
  intros Hall Hr Hk. induction ds as [|c ds IH]; simpl in *.
  - now apply digits_bt_stop.
  - apply andb_prop in Hall. destruct Hall as [-> Hall].
    rewrite (IH Hall). simpl. now apply Hk.
Qed.

(** An optional number followed by something that is no digit: the group
    takes the whole number. *)
Lemma rmatch_opt_field {X} (i : nat) (o : option string) (r : string)
    (g : groups) (k : string -> groups -> option X) (x : X) :
  valid_field o = true -> starts_digit r = false ->
  k r (put_field i o g) = Some x ->
  rmatch (Opt (Grp i Digits)) (show_field o ++ r) g k = Some x.
Proof.
  intros Ho Hr Hk. destruct o as [ds|]; simpl in *.
  - rewrite (digits_bt_some ds r _ x); trivial.
    now rewrite substring_append.
  - rewrite digits_bt_stop by assumption. exact Hk.
Qed.

Lemma rmatch_cat {X} r1 r2 s g (k : string -> groups -> option X) :
  rmatch (Cat r1 r2) s g k = rmatch r1 s g (fun rest g' => rmatch r2 rest g' k).
Proof. reflexivity. Qed.

Lemma rmatch_opt {X} r s g (k : string -> groups -> option X) :
  rmatch (Opt r) s g k = orelse (rmatch r s g k) (fun _ => k s g).
Proof. reflexivity. Qed.

Lemma rmatch_alt {X} r1 r2 s g (k : string -> groups -> option X) :
  rmatch (Alt r1 r2) s g k
  = orelse (rmatch r1 s g k) (fun _ => rmatch r2 s g k).
Proof. reflexivity. Qed.

Lemma rmatch_grp_digits {X} i s g (k : string -> groups -> option X) :
  rmatch (Grp i Digits) s g k
  = digits_bt s
      (fun rest =>
         k rest
           (set_group i
              (substring 0 (String.length s - String.length rest) s) g)).
Proof. reflexivity. Qed.

Lemma rmatch_lit {X} c s g (k : string -> groups -> option X) :
  rmatch (Lit c) (String c s) g k = k s g.
Proof. simpl. now rewrite Ascii.eqb_refl. Qed.

Lemma lit_colon_digits {X} (ds' : string) (g : groups)
    (k : string -> groups -> option X) :
  all_digits ds' = true -> rmatch (Lit ":") (ds' ++ "]") g k = None.
Proof.
  destruct ds' as [|c ds']; intros H; [reflexivity|].
  cbn [append rmatch all_digits] in *.
  apply andb_prop in H. destruct H as [Hc _].
  now rewrite (is_digit_neq c ":" Hc).
Qed.

(** The range alternative needs a colon after the first number. *)
Lemma range_alternative_fails {X} (o : option string) (g : groups)
    (k : string -> groups -> option X) :
  valid_field o = true ->
  rmatch (Cat (Opt (Grp 2 Digits)) (Cat (Lit ":") (Opt (Grp 3 Digits))))
    (show_field o ++ "]") g k = None.
Proof.
  intros Ho. destruct o as [ds|]; [|reflexivity].
  cbn [show_field valid_field] in *.
  rewrite rmatch_cat, rmatch_opt, rmatch_grp_digits.
  rewrite digits_bt_none; auto using digit_string_all.
  - cbn [orelse]. rewrite rmatch_cat.
    apply lit_colon_digits. now apply digit_string_all.
  - intros ds' H. rewrite rmatch_cat. apply lit_colon_digits. exact H.
Qed.

(** ** The pattern on an annotation *)

Lemma fullmatch_annotation (a : annotation) :
  valid_annotation a = true ->
  fullmatch 5 _PATTERN (show_annotation a) = Some (final_groups a).
Proof.
  destruct a as [s1 s2 c]. unfold valid_annotation, show_annotation, final_groups.
  cbn [a_start a_stop a_channel]. intros H.
  apply andb_prop in H. destruct H as [H Hc].
  apply andb_prop in H. destruct H as [H1 H2].
  unfold fullmatch, _PATTERN.
  change ("[" ++ show_field s1 ++ ":" ++ show_field s2 ++ show_channel c ++ "]")
    with (String "[" (show_field s1 ++ String ":" (show_field s2 ++ (show_channel c ++ "]")))).
  rewrite rmatch_cat, rmatch_lit, rmatch_cat.
  apply rmatch_opt_field; [exact H1 | reflexivity |].
  rewrite rmatch_cat, rmatch_lit, rmatch_cat.
  apply rmatch_opt_field; [exact H2 | destruct c; reflexivity |].
  rewrite rmatch_cat, rmatch_opt.
  destruct c as [|i|lo hi]; cbn [show_channel].
  - destruct s1, s2; reflexivity.
  - change (("," ++ show_field i) ++ "]") with (String "," (show_field i ++ "]")).
    rewrite rmatch_cat, rmatch_lit, rmatch_alt.
    rewrite range_alternative_fails by exact Hc. cbn [orelse].
    erewrite rmatch_opt_field; [reflexivity | exact Hc | reflexivity |].
    destruct s1, s2, i; reflexivity.
  - apply andb_prop in Hc. destruct Hc as [Hlo Hhi].
    change (("," ++ show_field lo ++ ":" ++ show_field hi) ++ "]")
      with (String "," ((show_field lo ++ String ":" (show_field hi)) ++ "]")).
    replace ((show_field lo ++ String ":" (show_field hi)) ++ "]")
      with (show_field lo ++ String ":" (show_field hi ++ "]")).
    2:{ clear. induction (show_field lo) as [|c t IH]; simpl; [reflexivity|].
        now rewrite IH. }
    rewrite rmatch_cat, rmatch_lit, rmatch_alt, rmatch_cat.
    erewrite rmatch_opt_field; [reflexivity | exact Hlo | reflexivity |].
    rewrite rmatch_cat, rmatch_lit.
    erewrite rmatch_opt_field; [reflexivity | exact Hhi | reflexivity |].
    destruct s1, s2, lo, hi; reflexivity.
Qed.

(** ** Splitting the path *)

Lemma str_in_field (c0 : ascii) (sep' : string) (o : option string) (r : string) :
  is_digit c0 = false -> valid_field o = true ->
  str_in (String c0 sep') (show_field o ++ r) = str_in (String c0 sep') r.
Proof.
  intros Hc Ho. destruct o as [ds|]; [|reflexivity].
  cbn [show_field valid_field] in *. apply digit_string_all in Ho.
  induction ds as [|d ds IH]; [reflexivity|].
  cbn [all_digits] in Ho. apply andb_prop in Ho. destruct Ho as [Hd Hds].
  cbn [append str_in startswith]. rewrite (is_digit_neq d c0 Hd Hc).
  cbn [andb orb]. now apply IH.
Qed.

Lemma str_in_cons (sep : string) (c : ascii) (s : string) :
  str_in sep (String c s) = startswith sep (String c s) || str_in sep s.
Proof. reflexivity. Qed.

Lemma startswith_cons (a b : ascii) (p s : string) :
  startswith (String a p) (String b s) = Ascii.eqb a b && startswith p s.
Proof. reflexivity. Qed.

Lemma field_no_colon (o : option string) (r : string) :
  valid_field o = true -> startswith ":" r = false ->
  startswith ":" (show_field o ++ r) = false.
Proof.
  intros Ho Hr. destruct o as [ds|]; [|exact Hr].
  cbn [show_field valid_field] in *.
  apply digit_string_cons in Ho. destruct Ho as (c & s' & -> & Hc & _).
  cbn [append startswith]. now rewrite (is_digit_neq c ":" Hc).
Qed.

Lemma annotation_no_separator (a : annotation) :
  valid_annotation a = true -> str_in "::" (show_annotation a) = false.
Proof.
  destruct a as [s1 s2 c]. unfold valid_annotation, show_annotation.
  cbn [a_start a_stop a_channel]. intros H.
  apply andb_prop in H. destruct H as [H Hc].
  apply andb_prop in H. destruct H as [H1 H2].
  change ("[" ++ show_field s1 ++ ":" ++ show_field s2 ++ show_channel c ++ "]")
    with (String "[" (show_field s1 ++ String ":" (show_field s2 ++ (show_channel c ++ "]")))).
  cbn [str_in startswith Ascii.eqb Bool.eqb andb orb].
  rewrite str_in_field by (reflexivity || assumption).
  rewrite str_in_cons, startswith_cons, Ascii.eqb_refl. cbn [andb].
  rewrite field_no_colon by (assumption || (destruct c; reflexivity)).
  rewrite str_in_field by (reflexivity || assumption).
  destruct c as [|i|lo hi]; cbn [show_channel].
  - reflexivity.
  - change (("," ++ show_field i) ++ "]") with (String "," (show_field i ++ "]")).
    cbn [str_in startswith Ascii.eqb Bool.eqb andb orb].
    rewrite str_in_field by (reflexivity || assumption). reflexivity.
  - apply andb_prop in Hc. destruct Hc as [Hlo Hhi].
    replace (("," ++ show_field lo ++ ":" ++ show_field hi) ++ "]")
      with (String "," (show_field lo ++ String ":" (show_field hi ++ "]"))).
    2:{ clear. cbn [append]. f_equal.
        induction (show_field lo) as [|c t IH]; cbn [append]; [reflexivity|].
        now rewrite IH. }
    cbn [str_in startswith Ascii.eqb Bool.eqb andb orb].
    rewrite str_in_field by (reflexivity || assumption).
    rewrite str_in_cons, startswith_cons, Ascii.eqb_refl. cbn [andb].
    rewrite field_no_colon by (assumption || reflexivity).
    rewrite str_in_field by (reflexivity || assumption). reflexivity.
Qed.

Lemma annotation_no_space (a : annotation) :
  valid_annotation a = true -> str_in " " (show_annotation a) = false.
Proof.
  destruct a as [s1 s2 c]. unfold valid_annotation, show_annotation.
  cbn [a_start a_stop a_channel]. intros H.
  apply andb_prop in H. destruct H as [H Hc].
  apply andb_prop in H. destruct H as [H1 H2].
  change ("[" ++ show_field s1 ++ ":" ++ show_field s2 ++ show_channel c ++ "]")
    with (String "[" (show_field s1 ++ String ":" (show_field s2 ++ (show_channel c ++ "]")))).
  cbn [str_in startswith Ascii.eqb Bool.eqb andb orb].
  rewrite str_in_field by (reflexivity || assumption).
  cbn [str_in startswith Ascii.eqb Bool.eqb andb orb].
  rewrite str_in_field by (reflexivity || assumption).
  destruct c as [|i|lo hi]; cbn [show_channel].
  - reflexivity.
  - change (("," ++ show_field i) ++ "]") with (String "," (show_field i ++ "]")).
    cbn [str_in startswith Ascii.eqb Bool.eqb andb orb].
    rewrite str_in_field by (reflexivity || assumption). reflexivity.
  - apply andb_prop in Hc. destruct Hc as [Hlo Hhi].
    replace (("," ++ show_field lo ++ ":" ++ show_field hi) ++ "]")
      with (String "," (show_field lo ++ String ":" (show_field hi ++ "]"))).
    2:{ clear. cbn [append]. f_equal.
        induction (show_field lo) as [|c t IH]; cbn [append]; [reflexivity|].
        now rewrite IH. }
    cbn [str_in startswith Ascii.eqb Bool.eqb andb orb].
    rewrite str_in_field by (reflexivity || assumption).
    cbn [str_in startswith Ascii.eqb Bool.eqb andb orb].
    rewrite str_in_field by (reflexivity || assumption). reflexivity.
Qed.

Lemma rsplit1_none (sep s : string) :
  str_in sep s = false -> rsplit1 sep s = None.
Proof.
  induction s as [|c s IH]; [reflexivity|].
  cbn [str_in rsplit1]. intros H. apply orb_false_elim in H.
  destruct H as [H1 H2]. rewrite (IH H2).
  cbn [startswith] in *. now rewrite H1.
Qed.

(** The last [::] of [p ++ "::" ++ a] is the one written, when [a] has
    none and does not begin with a colon. *)
Lemma rsplit1_annotated (p a : string) :
  str_in "::" a = false -> startswith ":" a = false ->
  rsplit1 "::" (p ++ "::" ++ a) = Some (p, a).
Proof.
  intros Ha Hc. induction p as [|c p IH].
  - change ("" ++ "::" ++ a) with (String ":" (String ":" a)).
    cbn [rsplit1]. rewrite (rsplit1_none _ _ Ha).
    cbn [startswith] in *. rewrite Ascii.eqb_refl. cbn [andb].
    destruct a as [|c a']; [reflexivity|].
    cbn [andb] in *. rewrite Hc. reflexivity.
  - cbn [append rsplit1]. cbn [append] in IH. now rewrite IH.
Qed.

(** ** Decimal numerals *)

Lemma digits_value_acc (d : Decimal.uint) (acc : positive) :
  digits_value (Z.pos acc) (NilEmpty.string_of_uint d)
  = Z.pos (Pos.of_uint_acc d acc).
Proof.
  revert acc. induction d; intros acc; cbn [NilEmpty.string_of_uint digits_value Pos.of_uint_acc];
    try reflexivity; rewrite <- IHd; f_equal;
    try (set (z := Z.of_nat _); vm_compute in z; subst z); lia.
Qed.

Lemma digits_value_uint (d : Decimal.uint) :
  digits_value 0 (NilEmpty.string_of_uint d) = Z.of_N (Pos.of_uint d).
Proof.
  induction d; cbn [NilEmpty.string_of_uint digits_value Pos.of_uint];
    try reflexivity; try exact IHd;
    change (10 * 0 + _) with (Z.pos 1) || idtac;
    cbn [Z.of_N]; try apply digits_value_acc.
Qed.

Lemma all_digits_uint (d : Decimal.uint) :
  all_digits (NilEmpty.string_of_uint d) = true.
Proof. induction d; cbn; auto. Qed.

(** Writing a natural number in decimal and reading it back gives the
    number. *)
Lemma py_int_str_of_N (n : N) : py_int (str_of_N n) = Ok (Z.of_N n).
Proof.
  unfold py_int, str_of_N.
  assert (D : digit_string (NilZero.string_of_uint (N.to_uint n)) = true).
  { unfold NilZero.string_of_uint.
    destruct (N.to_uint n) eqn:E; try reflexivity;
      cbn [NilEmpty.string_of_uint digit_string all_digits];
      rewrite all_digits_uint; reflexivity. }
  rewrite D. f_equal.
  rewrite <- (DecimalN.Unsigned.of_to n) at 2.
  unfold NilZero.string_of_uint, N.of_uint.
  destruct (N.to_uint n); try apply digits_value_uint. reflexivity.
Qed.

(** ** C1: the annotation is parsed back into its bounds *)

(** C1.  For every path [p ++ "::" ++ a] whose suffix [a] is a slice
    annotation of the grammar, [_parse_audio_slice] returns the path [p],
    the start the annotation encodes ([0] when it is missing), the stop
    (absent when it is missing) and the channel selection: the integer
    index for a bare integer after the comma, a half-open range for a
    [lo:hi] form with a bound, no selection otherwise. *)
Theorem parse_audio_slice_recovers_bounds (p : string) (a : annotation) :
  valid_annotation a = true ->
  _parse_audio_slice (p ++ "::" ++ show_annotation a) (PInt 0) None None
  = Ok (p, PInt (encoded_start a), option_map PInt (encoded_stop a),
        encoded_channel a).
Proof.
  intros Hv. unfold _parse_audio_slice.
  cbn [py_eq_int is_none assert rbind Z.eqb].
  rewrite rsplit1_annotated;
    [| now apply annotation_no_separator
     | destruct a as [s1 s2 c]; reflexivity].
  rewrite annotation_no_space by exact Hv. cbn [negb assert rbind].
  unfold parse_groups. rewrite fullmatch_annotation by exact Hv.
  unfold final_groups, encoded_start, encoded_stop, encoded_channel, field_value.
  destruct a as [s1 s2 c]. unfold valid_annotation in Hv.
  cbn [a_start a_stop a_channel] in *.
  apply andb_prop in Hv. destruct Hv as [Hv Hc].
  apply andb_prop in Hv. destruct Hv as [H1 H2].
  assert (I : forall o, valid_field o = true ->
                opt_int o = Ok (option_map (digits_value 0) o)).
  { intros [ds|] H; [|reflexivity]. cbn in *. unfold py_int. now rewrite H. }
  rewrite (I s1 H1), (I s2 H2). cbn [rbind].
  destruct c as [|i|lo hi].
  - cbn. destruct s1; reflexivity.
  - rewrite (I i Hc). cbn [rbind opt_int]. destruct i, s1; reflexivity.
  - apply andb_prop in Hc. destruct Hc as [Hlo Hhi].
    rewrite (I lo Hlo), (I hi Hhi). cbn [rbind opt_int].
    destruct lo, hi, s1; reflexivity.
Qed.

Lemma parse_audio_slice_recovers_bounds_witness :
  valid_annotation
    {| a_start := Some "8000"; a_stop := Some "16000";
       a_channel := BareIndex (Some "0") |} = true
  /\ _parse_audio_slice "f.wav::[8000:16000,0]" (PInt 0) None None
     = Ok ("f.wav", PInt 8000, Some (PInt 16000), Some (ChIndex 0)).
Proof.
  split; [reflexivity|].
  exact (parse_audio_slice_recovers_bounds "f.wav"
           {| a_start := Some "8000"; a_stop := Some "16000";
              a_channel := BareIndex (Some "0") |} eq_refl).
Defined.

(** ** The effect monad *)

Lemma bind_lift_ok {X Y} (x : X) (k : X -> M Y) : bind (lift (Ok x)) k = k x.
Proof. unfold bind, lift. now destruct (k x). Qed.

Lemma bind_lift_err {X Y} (e : exn) (k : X -> M Y) :
  bind (lift (Err e)) k = ([], Err e).
Proof. reflexivity. Qed.

Lemma bind_ret {X Y} (x : X) (k : X -> M Y) : bind (ret x) k = k x.
Proof. exact (bind_lift_ok x k). Qed.

Lemma bind_ok {X Y} (t : list event) (x : X) (k : X -> M Y) :
  bind (t, Ok x) k = ((t ++ fst (k x))%list, snd (k x)).
Proof. unfold bind. now destruct (k x). Qed.

Lemma bind_err {X Y} (t : list event) (e : exn) (k : X -> M Y) :
  bind (t, Err e) k = (t, Err e).
Proof. reflexivity. Qed.

(** ** C4: the annotation excludes the explicit parameters *)

Lemma rsplit1_some_in (sep s p a : string) :
  rsplit1 sep s = Some (p, a) -> str_in sep s = true.
Proof.
  revert p a. induction s as [|c s IH]; intros p a; [discriminate|].
  cbn [rsplit1 str_in].
  destruct (rsplit1 sep s) as [[a' b']|].
  - intros _. rewrite (IH a' b' eq_refl). apply orb_true_r.
  - destruct (startswith sep (String c s)); [reflexivity | discriminate].
Qed.

Lemma parse_audio_slice_asserts (path : string) (start : pynum)
    (stop : option pynum) (channel : option chansel) :
  py_eq_int start 0 = false \/ stop <> None \/ channel <> None ->
  exists args,
    _parse_audio_slice path start stop channel
    = Err (Exn AssertionError args None).
Proof.
  intros H. unfold _parse_audio_slice.
  destruct (py_eq_int start 0) eqn:Es; [|eexists; reflexivity].
  destruct stop as [s|]; [eexists; reflexivity|].
  destruct channel as [c|]; [eexists; reflexivity|].
  destruct H as [H|[H|H]]; congruence.
Qed.

(** C4.  When the path carries a [::] annotation and [unit] is not
    ['samples'], or [frames] is not [-1], or [start] is not [0], or [stop]
    or [channel] is given, [load_audio] fails with an AssertionError, and
    nothing has been opened or read by then. *)
Theorem annotation_excludes_explicit_parameters {A : Type}
    (i16_sample : Z -> A) (w : World A) (s : string)
    (channel : option chansel) (kw : kwargs A) :
  str_in "::" (normalize_path w s) = true ->
  unit_ kw <> "samples" \/ py_eq_int (frames kw) (-1) = false
  \/ py_eq_int (start kw) 0 = false \/ stop kw <> None \/ channel <> None ->
  exists args,
    load_audio i16_sample w (PStr s) channel kw
    = ([], Err (Exn AssertionError args None)).
Proof.
  intros Hin H. unfold load_audio, read_signal, normalized, split_annotation.
  rewrite Hin.
  destruct (String.eqb (unit_ kw) "samples") eqn:Eu;
    [|eexists; reflexivity].
  apply String.eqb_eq in Eu.
  cbn [assert]. rewrite bind_lift_ok.
  destruct (py_eq_int (frames kw) (-1)) eqn:Ef; [|eexists; reflexivity].
  cbn [assert]. rewrite bind_lift_ok.
  destruct (parse_audio_slice_asserts (normalize_path w s) (start kw)
              (stop kw) channel) as [args Hp].
  { destruct H as [H|[H|H]]; [contradiction | discriminate | exact H]. }
  rewrite Hp. exists args. reflexivity.
Qed.

Lemma annotation_excludes_explicit_parameters_witness :
  str_in "::" "speech.wav::[2:5]" = true
  /\ exists args,
       demo_load "speech.wav::[2:5]" None (with_start (PInt 1) default_kwargs)
       = ([], Err (Exn AssertionError args None)).
Proof.
  split; [reflexivity|].
  apply (annotation_excludes_explicit_parameters (fun z => z) demo_world
           "speech.wav::[2:5]" None (with_start (PInt 1) default_kwargs)).
  - reflexivity.
  - right. right. left. reflexivity.
Defined.

(** ** C3: malformed annotations *)

(** C3, as the code has it.  With the explicit parameters at their
    defaults: when the annotation (the part after the last [::]) contains
    a space, [load_audio] fails with an AssertionError that carries the
    annotation; when it is an ASCII text that contains no space and does
    not match the pattern, [load_audio] fails with a ValueError that
    carries the path and has the exception of the failed match as its
    cause.  Nothing is opened or read in either case.  (Outside ASCII
    the pattern also takes the decimal digits of other scripts for
    digits.) *)
Theorem malformed_annotation_errors {A : Type} (i16_sample : Z -> A)
    (w : World A) (s p a : string) (kw : kwargs A) :
  rsplit1 "::" (normalize_path w s) = Some (p, a) ->
  unit_ kw = "samples" -> py_eq_int (frames kw) (-1) = true ->
  py_eq_int (start kw) 0 = true -> stop kw = None ->
  (str_in " " a = true ->
   load_audio i16_sample w (PStr s) None kw
   = ([], Err (Exn AssertionError [AStr a] None)))
  /\ (ascii_only a = true ->
      str_in " " a = false -> fullmatch 5 _PATTERN a = None ->
      load_audio i16_sample w (PStr s) None kw
      = ([], Err (Exn ValueError [AStr (normalize_path w s)]
                    (Some (Exn AttributeError
                             [AStr "'NoneType' object has no attribute 'groups'"]
                             None))))).
Proof.
  intros Hsplit Hu Hf Hs Hst.
  assert (Hin := rsplit1_some_in _ _ _ _ Hsplit).
  assert (E : forall r,
            _parse_audio_slice (normalize_path w s) (start kw) (stop kw) None = Err r ->
            load_audio i16_sample w (PStr s) None kw = ([], Err r)).
  { intros r Hr. unfold load_audio, read_signal, normalized, split_annotation.
    rewrite Hin, Hu, Hf. change (String.eqb "samples" "samples") with true.
    cbn [assert]. rewrite !bind_lift_ok.
    rewrite Hr. reflexivity. }
  split.
  - intros Hsp. apply E. unfold _parse_audio_slice.
    rewrite Hs, Hst, Hsplit. cbn [is_none assert rbind]. rewrite Hsp. reflexivity.
  - intros _ Hsp Hm. apply E. unfold _parse_audio_slice.
    rewrite Hs, Hst, Hsplit. cbn [is_none assert rbind]. rewrite Hsp.
    cbn [negb assert rbind]. unfold parse_groups. rewrite Hm. reflexivity.
Qed.

Lemma malformed_annotation_errors_witness :
  demo_load "f.wav::[0: 5]" None default_kwargs
  = ([], Err (Exn AssertionError [AStr "[0: 5]"] None))
  /\ demo_load "f.wav::[0-5]" None default_kwargs
     = ([], Err (Exn ValueError [AStr "f.wav::[0-5]"]
                   (Some (Exn AttributeError
                            [AStr "'NoneType' object has no attribute 'groups'"]
                            None)))).
Proof.
  split.
  - exact (proj1 (malformed_annotation_errors (fun z => z) demo_world
                    "f.wav::[0: 5]" "f.wav" "[0: 5]" default_kwargs
                    eq_refl eq_refl eq_refl eq_refl eq_refl) eq_refl).
  - exact (proj2 (malformed_annotation_errors (fun z => z) demo_world
                    "f.wav::[0-5]" "f.wav" "[0-5]" default_kwargs
                    eq_refl eq_refl eq_refl eq_refl eq_refl)
             eq_refl eq_refl eq_refl).
Defined.

(** An annotation with a space in it: the failure is an AssertionError
    with the annotation, not a ValueError with the path and a cause. *)
Lemma whitespace_annotation_is_no_format_error :
  str_in " " "[0: 5]" = true
  /\ demo_load "f.wav::[0: 5]" None default_kwargs
     = ([], Err (Exn AssertionError [AStr "[0: 5]"] None))
  /\ ~ (exists t args cause,
          demo_load "f.wav::[0: 5]" None default_kwargs
          = (t, Err (Exn ValueError args (Some cause)))).
Proof.
  split; [reflexivity|]. split; [reflexivity|].
  intros (t & args & cause & H). discriminate H.
Qed.

(** ** C8: the expected sample rate *)

Lemma load_audio_deliver {A : Type} (i16_sample : Z -> A) (w : World A)
    (path : path_arg) (channel : option chansel) (kw : kwargs A)
    (t : list event) (signal : ndarray A) (sample_rate : Z)
    (ch : option chansel) :
  read_signal i16_sample w path channel kw = (t, Ok (signal, sample_rate, ch)) ->
  load_audio i16_sample w path channel kw
  = ((t ++ fst (deliver kw signal sample_rate ch))%list,
     snd (deliver kw signal sample_rate ch)).
Proof. intros H. unfold load_audio. rewrite H, bind_ok. reflexivity. Qed.

(** C8.  Once the file is decoded: an expected sample rate that differs
    from the rate of the file makes [load_audio] fail with a ValueError
    whose message carries both rates; with no expected rate, or the rate
    of the file, the check does nothing, and a result is the decoded
    signal, transposed and sliced by channel, with the rate of the file:
    nothing is resampled. *)
Theorem sample_rate_mismatch_raises {A : Type} (i16_sample : Z -> A)
    (w : World A) (path : path_arg) (channel : option chansel)
    (kw : kwargs A) (t : list event) (signal : ndarray A) (sample_rate : Z)
    (ch : option chansel) :
  read_signal i16_sample w path channel kw = (t, Ok (signal, sample_rate, ch)) ->
  (forall e, expected_sample_rate kw = Some e -> e <> sample_rate ->
     load_audio i16_sample w path channel kw
     = (t, Err (Exn ValueError
                  [AStr ("Requested sampling rate is " ++ str_of_Z e
                         ++ " but the audiofile has " ++ str_of_Z sample_rate)]
                  None)))
  /\ (expected_sample_rate kw = None
      \/ expected_sample_rate kw = Some sample_rate ->
      load_audio i16_sample w path channel kw
      = bind (t, Ok tt) (fun _ => hand_over kw signal sample_rate ch))
  /\ (forall t' sig rate,
        load_audio i16_sample w path channel kw = (t', Ok (sig, rate)) ->
        (rate = None \/ rate = Some sample_rate)
        /\ match ch with
           | None => sig = transpose signal
           | Some c => index_axis0 (transpose signal) c = Ok sig
           end).
Proof.
  intros H. rewrite (load_audio_deliver _ _ _ _ _ _ _ _ _ H).
  split; [|split].
  - intros e He Hne. unfold deliver, check_sample_rate. rewrite He.
    apply Z.eqb_neq in Hne. rewrite Hne. cbn. now rewrite app_nil_r.
  - intros He. rewrite bind_ok. unfold deliver, check_sample_rate, hand_over.
    destruct He as [-> | ->]; [|rewrite Z.eqb_refl; cbn [negb]];
      now rewrite bind_ret.
  - intros t' sig rate. unfold deliver, check_sample_rate, select_channel.
    destruct (expected_sample_rate kw) as [e|].
    + destruct (negb (e =? sample_rate)); [cbn; discriminate|].
      rewrite bind_ret.
      destruct ch as [c|].
      * destruct (ndim (transpose signal) =? 2)%nat; [|cbn; discriminate].
        cbn [assert]. rewrite bind_lift_ok.
        destruct (index_axis0 (transpose signal) c) as [r|e'];
          [|cbn; discriminate].
        rewrite bind_lift_ok.
        destruct (size r =? 0)%nat; [cbn; discriminate|].
        rewrite bind_ret.
        destruct (return_sample_rate kw); cbn; intros [= _ <- <-]; auto.
      * rewrite bind_ret.
        destruct (return_sample_rate kw); cbn; intros [= _ <- <-]; auto.
    + rewrite bind_ret.
      destruct ch as [c|].
      * destruct (ndim (transpose signal) =? 2)%nat; [|cbn; discriminate].
        cbn [assert]. rewrite bind_lift_ok.
        destruct (index_axis0 (transpose signal) c) as [r|e'];
          [|cbn; discriminate].
        rewrite bind_lift_ok.
        destruct (size r =? 0)%nat; [cbn; discriminate|].
        rewrite bind_ret.
        destruct (return_sample_rate kw); cbn; intros [= _ <- <-]; auto.
      * rewrite bind_ret.
        destruct (return_sample_rate kw); cbn; intros [= _ <- <-]; auto.
Qed.

Lemma sample_rate_mismatch_raises_witness :
  demo_load "speech.wav" None
    (with_expected_sample_rate (Some 16000) default_kwargs)
  = ([EvSoundFile (PStr "speech.wav"); EvRead 8],
     Err (Exn ValueError
            [AStr "Requested sampling rate is 16000 but the audiofile has 4"]
            None)).
Proof.
  refine (proj1 (sample_rate_mismatch_raises (fun z => z) demo_world
                   (PStr "speech.wav") None
                   (with_expected_sample_rate (Some 16000) default_kwargs)
                   [EvSoundFile (PStr "speech.wav"); EvRead 8]
                   (mk_ndarray [8%nat] [0; 10; 20; 30; 40; 50; 60; 70]) 4 None
                   _) 16000 _ _).
  - reflexivity.
  - reflexivity.
  - lia.
Defined.

(** ** C7 and C10: a selection without elements *)

Lemma norm_index_lt (n : nat) (i : Z) (j : nat) :
  norm_index n i = Ok j -> (j < n)%nat.
Proof.
  unfold norm_index.
  destruct ((0 <=? (if i <? 0 then i + Z.of_nat n else i))
            && ((if i <? 0 then i + Z.of_nat n else i) <? Z.of_nat n)) eqn:E;
    [|discriminate].
  intros [= <-]. apply andb_prop in E. destruct E as [E1 E2].
  apply Z.leb_le in E1. apply Z.ltb_lt in E2. lia.
Qed.

Lemma norm_index_exists (n : nat) (i : Z) :
  - Z.of_nat n <= i < Z.of_nat n -> exists j, norm_index n i = Ok j.
Proof.
  intros H. unfold norm_index.
  destruct (i <? 0) eqn:E.
  - apply Z.ltb_lt in E.
    replace ((0 <=? i + Z.of_nat n) && (i + Z.of_nat n <? Z.of_nat n)) with true.
    + eauto.
    + symmetry. apply andb_true_intro. split; [apply Z.leb_le | apply Z.ltb_lt]; lia.
  - apply Z.ltb_ge in E.
    replace ((0 <=? i) && (i <? Z.of_nat n)) with true.
    + eauto.
    + symmetry. apply andb_true_intro. split; [apply Z.leb_le | apply Z.ltb_lt]; lia.
Qed.

Lemma norm_indices_exist (n : nat) (l : list Z) :
  forallb (fun i => (- Z.of_nat n <=? i) && (i <? Z.of_nat n)) l = true ->
  exists js, norm_indices n l = Ok js.
Proof.
  induction l as [|i l IH]; cbn [forallb norm_indices]; [eauto|].
  intros H. apply andb_prop in H. destruct H as [Hi Hl].
  apply andb_prop in Hi. destruct Hi as [H1 H2].
  apply Z.leb_le in H1. apply Z.ltb_lt in H2.
  destruct (norm_index_exists n i (conj H1 H2)) as [j ->].
  destruct (IH Hl) as [js ->]. cbn. eauto.
Qed.

(** Every index of the selection is one of the [m] channels. *)
Lemma index_axis0_exists {A : Type} (a : ndarray A) (m k : nat) (c : chansel) :
  shape a = [m; k] -> channels_exist m c = true ->
  exists r, index_axis0 a c = Ok r.
Proof.
  intros Hs Hc. unfold index_axis0. rewrite Hs.
  destruct c as [i|lo hi|l]; cbn [channels_exist] in Hc.
  - apply andb_prop in Hc. destruct Hc as [H1 H2].
    apply Z.leb_le in H1. apply Z.ltb_lt in H2.
    destruct (norm_index_exists m i (conj H1 H2)) as [j ->]. cbn. eauto.
  - destruct (slice_indices lo hi (Z.of_nat m)). eauto.
  - destruct (norm_indices_exist m l Hc) as [js ->]. cbn. eauto.
Qed.

(** A selection of rows that have no columns has no elements. *)
Lemma index_axis0_no_frames {A : Type} (a r : ndarray A) (m : nat) (c : chansel) :
  shape a = [m; 0%nat] -> index_axis0 a c = Ok r -> size r = 0%nat.
Proof.
  intros Hs. unfold index_axis0. rewrite Hs.
  destruct c as [i|lo hi|l].
  - destruct (norm_index m i); cbn; [|discriminate]. now intros [= <-].
  - destruct (slice_indices lo hi (Z.of_nat m)). intros [= <-].
    unfold size. cbn. lia.
  - destruct (norm_indices m l); cbn; [|discriminate]. intros [= <-].
    unfold size. cbn. lia.
Qed.

Lemma index_axis0_ndim {A : Type} (a r : ndarray A) (c : chansel) :
  index_axis0 a c = Ok r -> ndim a = 2%nat.
Proof.
  unfold index_axis0, ndim.
  destruct (shape a) as [|n [|m [|x s]]]; try discriminate. reflexivity.
Qed.

Lemma deliver_empty_selection {A : Type} (kw : kwargs A)
    (signal r : ndarray A) (sample_rate : Z) (c : chansel) :
  expected_sample_rate kw = None \/ expected_sample_rate kw = Some sample_rate ->
  index_axis0 (transpose signal) c = Ok r -> size r = 0%nat ->
  deliver kw signal sample_rate (Some c)
  = ([], Err (Exn ValueError [AStr "Returned signal would be empty"] None)).
Proof.
  intros He Hi Hz. unfold deliver, check_sample_rate, select_channel.
  assert (E : bind
                match expected_sample_rate kw with
                | Some e =>
                    if negb (e =? sample_rate)
                    then raise (Exn ValueError [AStr (rate_message e sample_rate)] None)
                    else ret tt
                | None => ret tt
                end = bind (ret tt) (X:=unit) (Y:=ndarray A * option Z)).
  { destruct He as [-> | ->]; [reflexivity|]. now rewrite Z.eqb_refl. }
  rewrite E, bind_ret.
  rewrite (index_axis0_ndim _ _ _ Hi). cbn [Nat.eqb assert].
  rewrite bind_lift_ok, Hi, bind_lift_ok, Hz. reflexivity.
Qed.

(** C7.  Once the file is decoded and its rate accepted: when the channel
    selection, applied to the transposed signal, gives an array without
    elements, [load_audio] fails with the ValueError 'Returned signal
    would be empty' and returns no buffer. *)
Theorem empty_selection_raises {A : Type} (i16_sample : Z -> A)
    (w : World A) (path : path_arg) (channel : option chansel)
    (kw : kwargs A) (t : list event) (signal r : ndarray A)
    (sample_rate : Z) (c : chansel) :
  read_signal i16_sample w path channel kw
  = (t, Ok (signal, sample_rate, Some c)) ->
  expected_sample_rate kw = None \/ expected_sample_rate kw = Some sample_rate ->
  index_axis0 (transpose signal) c = Ok r ->
  size r = 0%nat ->
  load_audio i16_sample w path channel kw
  = (t, Err (Exn ValueError [AStr "Returned signal would be empty"] None)).
Proof.
  intros H He Hi Hz.
  rewrite (load_audio_deliver _ _ _ _ _ _ _ _ _ H).
  rewrite (deliver_empty_selection kw signal r sample_rate c He Hi Hz).
  cbn. now rewrite app_nil_r.
Qed.

Lemma empty_selection_raises_witness :
  demo_load "observation.wav" (Some (ChList [])) default_kwargs
  = ([EvSoundFile (PStr "observation.wav"); EvRead 5],
     Err (Exn ValueError [AStr "Returned signal would be empty"] None)).
Proof.
  refine (empty_selection_raises (fun z => z) demo_world
            (PStr "observation.wav") (Some (ChList [])) default_kwargs
            [EvSoundFile (PStr "observation.wav"); EvRead 5]
            (mk_ndarray [5%nat; 6%nat]
               [0; 1; 2; 3; 4; 5; 10; 11; 12; 13; 14; 15; 20; 21; 22; 23; 24;
                25; 30; 31; 32; 33; 34; 35; 40; 41; 42; 43; 44; 45])
            (mk_ndarray [0%nat; 5%nat] []) 4 (ChList []) _ _ _ _).
  - reflexivity.
  - left. reflexivity.
  - reflexivity.
  - reflexivity.
Defined.

(** C10.  Once the file is decoded and its rate accepted: when a channel
    selection is given and the decoded signal has no frames (shape
    [(0, m)] for a file of [m] channels), [load_audio] fails with the
    ValueError 'Returned signal would be empty' although every selected
    channel is one of the [m] channels of the file. *)
Theorem zero_frames_with_channel_raises {A : Type} (i16_sample : Z -> A)
    (w : World A) (path : path_arg) (channel : option chansel)
    (kw : kwargs A) (t : list event) (signal : ndarray A)
    (sample_rate : Z) (m : nat) (c : chansel) :
  read_signal i16_sample w path channel kw
  = (t, Ok (signal, sample_rate, Some c)) ->
  expected_sample_rate kw = None \/ expected_sample_rate kw = Some sample_rate ->
  shape signal = [0%nat; m] ->
  channels_exist m c = true ->
  load_audio i16_sample w path channel kw
  = (t, Err (Exn ValueError [AStr "Returned signal would be empty"] None)).
Proof.
  intros H He Hs Hc.
  assert (Ht : shape (transpose signal) = [m; 0%nat]).
  { unfold transpose. now rewrite Hs. }
  destruct (index_axis0_exists _ _ _ _ Ht Hc) as [r Hr].
  rewrite (load_audio_deliver _ _ _ _ _ _ _ _ _ H).
  rewrite (deliver_empty_selection kw signal r sample_rate c He Hr
             (index_axis0_no_frames _ _ _ _ Ht Hr)).
  cbn. now rewrite app_nil_r.
Qed.

Lemma zero_frames_with_channel_raises_witness :
  demo_load "observation.wav::[5:,0]" None default_kwargs
  = ([EvSoundFile (PStr "observation.wav"); EvSeek 5; EvRead 0],
     Err (Exn ValueError [AStr "Returned signal would be empty"] None)).
Proof.
  refine (zero_frames_with_channel_raises (fun z => z) demo_world
            (PStr "observation.wav::[5:,0]") None default_kwargs
            [EvSoundFile (PStr "observation.wav"); EvSeek 5; EvRead 0]
            (mk_ndarray [0%nat; 6%nat] []) 4 6 (ChIndex 0) _ _ _ _).
  - reflexivity.
  - left. reflexivity.
  - reflexivity.
  - reflexivity.
Defined.

(** ** C5: seconds become samples *)




Lemma open_SoundFile_ok {A : Type} (w : World A) (path : path_arg)
    (f : SoundFile A) :
  SoundFile_open w path = Ok f ->
  open_SoundFile w path = ([EvSoundFile path], Ok f).
Proof. intros H. unfold open_SoundFile. now rewrite H. Qed.


(** At most one integer is the nearest one. *)
Lemma nearest_even_unique (num den z z' : Z) :
  0 < den -> nearest_even num den z -> nearest_even num den z' -> z = z'.
Proof.
  intros Hd [H1 E1] [H2 E2].
  assert (Hc : z = z' \/ z' = z + 1 \/ z = z' + 1) by nia.
  destruct Hc as [Hc|[Hc|Hc]]; [exact Hc| |]; exfalso; subst.
  - assert (T1 : 2 * Z.abs (z * den - num) = den) by nia.
    assert (T2 : 2 * Z.abs ((z + 1) * den - num) = den) by nia.
    specialize (E1 T1). specialize (E2 T2).
    replace (z + 1) with (Z.succ z) in E2 by lia.
    rewrite Z.even_succ, <- Z.negb_even, E1 in E2. discriminate.
  - assert (T1 : 2 * Z.abs ((z' + 1) * den - num) = den) by nia.
    assert (T2 : 2 * Z.abs (z' * den - num) = den) by nia.
    specialize (E1 T1). specialize (E2 T2).
    replace (z' + 1) with (Z.succ z') in E1 by lia.
    rewrite Z.even_succ, <- Z.negb_even, E2 in E1. discriminate.
Qed.





(** The three values of the call above: halves round to the even
    integer next to them. *)
Example seconds_at_the_ties :
  resolve_unit demo_world (PStr "speech.wav") "seconds"
    (PFloat 0.125) (PFloat 0.375) (Some (PFloat 0.625))
  = ([EvSoundFile (PStr "speech.wav")],
     Ok (PInt 0, PInt 2, Some (PInt 2)))
  /\ rounds_to (PFloat 0.5) 0 /\ rounds_to (PFloat 1.5) 2
  /\ rounds_to (PFloat 2.5) 2
  /\ ~ rounds_to (PFloat 0.5) 1 /\ ~ rounds_to (PFloat 2.5) 3.
Proof.
  assert (R : forall x num den z,
            exact_value x = Some (num, den) -> 0 < den ->
            nearest_even num den z -> rounds_to x z).
  { intros x num den z H1 H2 H3. exists num, den. auto. }
  assert (N : forall x num den z z',
            exact_value x = Some (num, den) -> 0 < den ->
            nearest_even num den z -> z <> z' -> ~ rounds_to x z').
  { intros x num den z z' H1 H2 H3 Hne (num' & den' & E & Hd & Hn).
    rewrite H1 in E. injection E as <- <-.
    apply Hne. now apply (nearest_even_unique num den). }
  split; [reflexivity|].
  split; [apply (R _ 4503599627370496 (2 ^ 53)); [reflexivity | lia |]|].
  { unfold nearest_even. split; [vm_compute; discriminate | reflexivity]. }
  split; [apply (R _ 6755399441055744 (2 ^ 52)); [reflexivity | lia |]|].
  { unfold nearest_even. split; [vm_compute; discriminate | reflexivity]. }
  split; [apply (R _ 5629499534213120 (2 ^ 51)); [reflexivity | lia |]|].
  { unfold nearest_even. split; [vm_compute; discriminate | reflexivity]. }
  split.
  - apply (N _ 4503599627370496 (2 ^ 53) 0); [reflexivity | lia | | lia].
    unfold nearest_even. split; [vm_compute; discriminate | reflexivity].
  - apply (N _ 5629499534213120 (2 ^ 51) 2); [reflexivity | lia | | lia].
    unfold nearest_even. split; [vm_compute; discriminate | reflexivity].
Qed.

(** The tie cases of the rounding, and values next to them. *)
Example int_round_ties :
  int_round (PFloat 0.5) = Ok 0 /\ int_round (PFloat 1.5) = Ok 2
  /\ int_round (PFloat 2.5) = Ok 2 /\ int_round (PFloat 3.5) = Ok 4
  /\ int_round (PFloat (-0.5)) = Ok 0 /\ int_round (PFloat (-1.5)) = Ok (-2)
  /\ int_round (PFloat 2.25) = Ok 2 /\ int_round (PFloat 2.75) = Ok 3
  /\ int_round (PFloat (-2.75)) = Ok (-3)
  /\ int_round (PFloat 7999.5) = Ok 8000
  /\ int_round (PFloat 8000.5) = Ok 8000.
Proof. repeat split. Qed.

(** At 4 frames per second, a start and a length of an eighth of a second
    each round to no sample at all (ties go to the even integer), while
    their sum is a full sample. *)
Example rounding_is_per_value :
  resolve_unit demo_world (PStr "speech.wav") "seconds"
    (PFloat 0.125) (PFloat 0.125) None
  = ([EvSoundFile (PStr "speech.wav")], Ok (PInt 0, PInt 0, None))
  /\ rounded_samples (PFloat (0.125 + 0.125)) 4 = Ok 1.
Proof. split; reflexivity. Qed.

(** ** Arrays in row-major order *)

Lemma length_flat_map_seq {B : Type} (g : nat -> list B) (len m s : nat) :
  (forall q, (q < m)%nat -> List.length (g (s + q)%nat) = len) ->
  List.length (flat_map g (seq s m)) = (m * len)%nat.
Proof.
  revert s. induction m as [|m IH]; intros s H; [reflexivity|].
  cbn [seq flat_map].
  assert (H0 : List.length (g s) = len).
  { rewrite <- (H 0%nat) by lia. now rewrite Nat.add_0_r. }
  rewrite length_app, IH, H0; [cbn; lia|].
  intros q Hq. rewrite <- (H (S q)) by lia. f_equal. f_equal. lia.
Qed.

Lemma nth_error_flat_map_seq {B : Type} (g : nat -> list B) (len m s j i : nat) :
  (forall q, (q < m)%nat -> List.length (g (s + q)%nat) = len) ->
  (j < m)%nat -> (i < len)%nat ->
  nth_error (flat_map g (seq s m)) (j * len + i) = nth_error (g (s + j)%nat) i.
Proof.
  revert s j. induction m as [|m IH]; intros s j H Hj Hi; [lia|].
  cbn [seq flat_map].
  assert (H0 : List.length (g s) = len).
  { rewrite <- (H 0%nat) by lia. now rewrite Nat.add_0_r. }
  destruct j as [|j].
  - rewrite Nat.add_0_r. cbn. apply nth_error_app1. lia.
  - rewrite nth_error_app2 by (rewrite H0; cbn; lia).
    replace (S j * len + i - List.length (g s))%nat with (j * len + i)%nat
      by (rewrite H0; cbn; lia).
    rewrite IH; [f_equal; f_equal; lia | | lia | exact Hi].
    intros q Hq. rewrite <- (H (S q)) by lia. f_equal. f_equal. lia.
Qed.

Lemma firstn1_skipn {B : Type} (d : list B) (k : nat) :
  (k < List.length d)%nat ->
  exists x, firstn 1 (skipn k d) = [x] /\ nth_error d k = Some x.
Proof.
  revert d. induction k as [|k IH]; intros [|x d] H; cbn in *; try lia.
  - eauto.
  - apply IH. lia.
Qed.

Lemma col_spec {B : Type} (n m : nat) (d : list B) (j : nat) :
  List.length d = (n * m)%nat -> (j < m)%nat ->
  List.length (col n m d j) = n
  /\ forall i, (i < n)%nat -> nth_error (col n m d j) i = nth_error d (i * m + j).
Proof.
  intros Hd Hj. unfold col.
  assert (L : forall q, (q < n)%nat ->
            List.length (firstn 1 (skipn ((0 + q) * m + j) d)) = 1%nat).
  { intros q Hq. destruct (firstn1_skipn d ((0 + q) * m + j)) as (x & -> & _);
      [|reflexivity]. rewrite Hd. cbn. nia. }
  split.
  - rewrite (length_flat_map_seq _ 1 n 0 L). lia.
  - intros i Hi.
    replace i with (i * 1 + 0)%nat at 1 by lia.
    rewrite (nth_error_flat_map_seq _ 1 n 0 i 0 L Hi) by lia.
    destruct (firstn1_skipn d ((0 + i) * m + j)) as (x & -> & E);
      [rewrite Hd; cbn; nia|].
    cbn in E. now rewrite E.
Qed.

(** The transposed array has the axes exchanged and the same elements. *)
Lemma transpose_spec {B : Type} (a : ndarray B) (n m : nat) :
  shape a = [n; m] -> List.length (data a) = (n * m)%nat ->
  shape (transpose a) = [m; n]
  /\ List.length (data (transpose a)) = (m * n)%nat
  /\ forall i j, (i < n)%nat -> (j < m)%nat ->
       entry (transpose a) j i = entry a i j.
Proof.
  intros Hs Hd. unfold transpose, entry. rewrite Hs. cbn [shape data].
  assert (L : forall q, (q < m)%nat ->
            List.length (col n m (data a) (0 + q)) = n).
  { intros q Hq. now apply col_spec. }
  split; [reflexivity|]. split.
  - apply (length_flat_map_seq _ n m 0 L).
  - intros i j Hi Hj.
    rewrite (nth_error_flat_map_seq _ n m 0 j i L Hj Hi).
    now apply col_spec.
Qed.

Lemma transpose_1d {B : Type} (a : ndarray B) (k : nat) :
  shape a = [k] -> transpose a = a.
Proof. intros H. unfold transpose. now rewrite H. Qed.

Lemma nth_error_map_seq {B : Type} (g : nat -> B) (n c : nat) :
  (c < n)%nat -> nth_error (map g (seq 0 n)) c = Some (g c).
Proof.
  intros H. rewrite nth_error_map.
  rewrite (nth_error_nth' (seq 0 n) 0%nat) by (rewrite length_seq; exact H).
  now rewrite seq_nth.
Qed.

(** The frames of the file as the decoder hands them over: frame after
    frame, the channels of a frame next to each other. *)
Lemma file_frames_spec {B : Type} (f : SoundFile B) (d : dtype)
    (pos r : nat) :
  List.length (file_frames f d pos r) = (r * channels f)%nat
  /\ forall i c, (i < r)%nat -> (c < channels f)%nat ->
       nth_error (file_frames f d pos r) (i * channels f + c)
       = Some (sf_sample f d (pos + i) c).
Proof.
  unfold file_frames.
  assert (L : forall q, (q < r)%nat ->
            List.length (map (sf_sample f d (pos + q)) (seq 0 (channels f)))
            = channels f).
  { intros q _. now rewrite length_map, length_seq. }
  split.
  - apply (length_flat_map_seq _ (channels f) r pos L).
  - intros i c Hi Hc.
    rewrite (nth_error_flat_map_seq _ (channels f) r pos i c L Hi Hc).
    now apply nth_error_map_seq.
Qed.

(** ** Taking a successful run apart *)

Lemma bind_inv_ok {X Y} (m : M X) (k : X -> M Y) (t : list event) (y : Y) :
  bind m k = (t, Ok y) ->
  exists t1 x t2, m = (t1, Ok x) /\ k x = (t2, Ok y) /\ t = (t1 ++ t2)%list.
Proof.
  destruct m as [t1 [x|e]]; cbn [bind]; [|discriminate].
  destruct (k x) as [t2 r] eqn:E. intros [= <- ->]. eauto 6.
Qed.

Lemma lift_inv_ok {X} (r : result X) (t : list event) (x : X) :
  lift r = (t, Ok x) -> r = Ok x /\ t = [].
Proof. unfold lift. now intros [= <- ->]. Qed.

Lemma on_RuntimeError_fails {A : Type} (w : World A) (path : path_arg)
    (e : exn) (t : list event) (x : ndarray A * Z) :
  on_RuntimeError w path e <> (t, Ok x).
Proof.
  unfold on_RuntimeError.
  destruct (is_RuntimeError (exn_cls e)); [|discriminate].
  destruct path as [s|h]; [|discriminate].
  intros H. apply bind_inv_ok in H. destruct H as (t1 & [] & t2 & _ & H & _).
  apply bind_inv_ok in H. destruct H as (t3 & probe & t4 & _ & H & _).
  destruct (String.eqb (Path_suffix w s) ".wav"); discriminate H.
Qed.

Lemma try_except_inv_ok {A : Type} (w : World A) (path : path_arg)
    (m : M (ndarray A * Z)) (t : list event) (x : ndarray A * Z) :
  try_except m (on_RuntimeError w path) = (t, Ok x) -> m = (t, Ok x).
Proof.
  destruct m as [t1 [y|e]]; cbn [try_except]; [exact (fun H => H)|].
  destruct (on_RuntimeError w path e) as [t2 r] eqn:E.
  intros [= <- ->]. now apply on_RuntimeError_fails in E.
Qed.

Lemma split_annotation_inv (path : path_arg) (unit : string)
    (frames start : pynum) (stop : option pynum) (channel : option chansel)
    (t : list event) x :
  split_annotation path unit frames start stop channel = (t, Ok x) -> t = [].
Proof.
  unfold split_annotation. destruct path as [s|h]; [|now intros [= <- _]].
  destruct (str_in "::" s); [|now intros [= <- _]].
  intros H.
  apply bind_inv_ok in H. destruct H as (t1 & [] & t2 & H1 & H & ->).
  apply lift_inv_ok in H1. destruct H1 as [_ ->].
  apply bind_inv_ok in H. destruct H as (t1 & [] & t3 & H1 & H & ->).
  apply lift_inv_ok in H1. destruct H1 as [_ ->].
  apply bind_inv_ok in H. destruct H as (t1 & [[[p st] sp] ch] & t4 & H1 & H & ->).
  apply lift_inv_ok in H1. destruct H1 as [_ ->].
  now injection H as <- _.
Qed.

(** ** What the sound-file decoder returns *)

Lemma slice_bound_range (default n : Z) (b : option Z) :
  0 <= default <= n -> 0 <= slice_bound default n b <= n.
Proof. intros H. unfold slice_bound. destruct b as [v|]; [|exact H].
  destruct (v <? 0) eqn:E; [apply Z.ltb_lt in E | apply Z.ltb_ge in E]; lia.
Qed.

Lemma prepare_read_inv {A : Type} (f : SoundFile A) (start : pynum)
    (stop : option pynum) (frames : pynum) (t : list event) (pos : Z)
    (fr : pynum) :
  _prepare_read f start stop frames = (t, Ok (pos, fr)) ->
  0 <= pos <= Z.of_nat (sf_frames f).
Proof.
  unfold _prepare_read.
  destruct (py_ge_int frames 0 && negb (is_none stop)); [discriminate|].
  intros H.
  apply bind_inv_ok in H. destruct H as (t1 & z & t2 & _ & H & _).
  apply bind_inv_ok in H. destruct H as (t3 & sp & t4 & _ & H & _).
  unfold slice_indices in H.
  apply bind_inv_ok in H. destruct H as (t5 & [] & t6 & _ & H & _).
  injection H as _ <- _.
  apply (slice_bound_range 0 (Z.of_nat (sf_frames f)) (Some z)). lia.
Qed.

(** The array [f.read] returns at a position inside the file: [k] frames
    of all channels, two-dimensional when that was asked for or the file
    has several channels; the frames that the file has are its samples. *)
Lemma SoundFile_read_inv {A : Type} (f : SoundFile A) (pos : Z)
    (frames : pynum) (d : dtype) (fill_value : option A) (always_2d : bool)
    (t : list event) (a : ndarray A) :
  0 <= pos <= Z.of_nat (sf_frames f) ->
  SoundFile_read f pos frames d fill_value always_2d = (t, Ok a) ->
  exists k,
    shape a = (if always_2d || (1 <? channels f)%nat
               then [k; channels f] else [k])
    /\ List.length (data a) = (k * channels f)%nat
    /\ forall i c, (i < k)%nat -> (i < sf_frames f - Z.to_nat pos)%nat ->
         (c < channels f)%nat ->
         nth_error (data a) (i * channels f + c)
         = Some (sf_sample f d (Z.to_nat pos + i) c).
Proof.
  intros Hpos. unfold SoundFile_read.
  set (remaining := Z.of_nat (sf_frames f) - pos).
  set (fr := if py_lt_int frames 0
                || py_gt_int frames remaining && is_none fill_value
             then PInt remaining else frames).
  assert (Hfr : forall k, fr = PInt k ->
            0 <= k /\ (fill_value = None -> k <= remaining)).
  { intros k Hk. subst fr.
    destruct (py_lt_int frames 0) eqn:E1; cbn [orb] in Hk.
    - injection Hk as <-. subst remaining. lia.
    - destruct (py_gt_int frames remaining) eqn:E2; cbn [andb] in Hk.
      + destruct fill_value as [v|]; cbn [is_none] in Hk.
        * subst frames. cbn in E1. apply Z.ltb_ge in E1. split; [lia|discriminate].
        * injection Hk as <-. subst remaining. lia.
      + subst frames. cbn in E1, E2. apply Z.ltb_ge in E1. apply Z.ltb_ge in E2.
        split; [lia | intros _; lia]. }
  destruct fr as [k|x]; [|discriminate].
  destruct (Hfr k eq_refl) as [Hk0 Hkfill]. clear Hfr.
  intros H. apply bind_inv_ok in H. destruct H as (t1 & [] & t2 & _ & H & _).
  injection H as _ <-. cbn [shape data].
  exists (Z.to_nat k). split; [reflexivity|].
  destruct (file_frames_spec f d (Z.to_nat pos)
              (Nat.min (Z.to_nat k) (Z.to_nat remaining))) as [L E].
  split.
  - rewrite length_app, L.
    destruct fill_value as [v|].
    + rewrite repeat_length. nia.
    + cbn. specialize (Hkfill eq_refl).
      rewrite Nat.min_l by lia. lia.
  - intros i c Hi Hav Hc.
    rewrite nth_error_app1.
    + apply E; [|exact Hc]. subst remaining. lia.
    + rewrite L. subst remaining. nia.
Qed.

Lemma decode_soundfile_inv {A : Type} (w : World A) (path : path_arg)
    (start frames : pynum) (stop : option pynum) (channel : option chansel)
    (dtype : option dtype) (fill_value : option A) (t : list event)
    (a : ndarray A) (sample_rate : Z) :
  decode_soundfile w path start frames stop channel dtype fill_value
  = (t, Ok (a, sample_rate)) ->
  exists f d pos k,
    SoundFile_open w path = Ok f
    /\ sample_rate = samplerate f
    /\ resolve_dtype f dtype = Ok d
    /\ shape a = (if negb (is_none channel) || (1 <? channels f)%nat
                  then [k; channels f] else [k])
    /\ List.length (data a) = (k * channels f)%nat
    /\ forall i c, (i < k)%nat -> (i < sf_frames f - pos)%nat ->
         (c < channels f)%nat ->
         nth_error (data a) (i * channels f + c)
         = Some (sf_sample f d (pos + i) c).
Proof.
  unfold decode_soundfile, open_SoundFile. intros H.
  apply bind_inv_ok in H. destruct H as (t1 & f & t2 & H1 & H & _).
  apply bind_inv_ok in H1. destruct H1 as (t3 & [] & t4 & _ & H1 & _).
  apply lift_inv_ok in H1. destruct H1 as [Hopen _].
  apply bind_inv_ok in H. destruct H as (t5 & d & t6 & H1 & H & _).
  apply lift_inv_ok in H1. destruct H1 as [Hd _].
  apply bind_inv_ok in H. destruct H as (t7 & [pos fr] & t8 & Hp & H & _).
  apply bind_inv_ok in H. destruct H as (t9 & a' & t10 & Hr & H & _).
  injection H as _ <- <-.
  apply prepare_read_inv in Hp.
  destruct (SoundFile_read_inv _ _ _ _ _ _ _ _ Hp Hr) as (k & Hs & Hl & He).
  exists f, d, (Z.to_nat pos), k. auto 7.
Qed.

Lemma decode_buffers_1d {A : Type} (i16_sample : Z -> A) (w : World A)
    (s : string) (start : pynum) (stop : option pynum) (t : list event)
    (a : ndarray A) (sample_rate : Z) :
  decode_m4a i16_sample w s start stop = (t, Ok (a, sample_rate)) ->
  ndim a = 1%nat.
Proof.
  unfold decode_m4a. intros H.
  apply bind_inv_ok in H. destruct H as (t1 & [] & t2 & _ & H & _).
  apply bind_inv_ok in H. destruct H as (t3 & [] & t4 & _ & H & _).
  apply bind_inv_ok in H. destruct H as (t5 & f & t6 & _ & H & _).
  apply bind_inv_ok in H. destruct H as (t7 & l & t8 & _ & H & _).
  apply bind_inv_ok in H. destruct H as (t9 & sig & t10 & Hc & H & _).
  injection H as _ <- _.
  apply lift_inv_ok in Hc. destruct Hc as [Hc _].
  unfold concatenate in Hc. destruct l; [discriminate|].
  now injection Hc as <-.
Qed.

(** ** C2: the axes of a result *)

Lemma read_signal_inv {A : Type} (i16_sample : Z -> A) (w : World A)
    (path : path_arg) (channel : option chansel) (kw : kwargs A)
    (t : list event) (decoded : ndarray A) (sample_rate : Z)
    (ch : option chansel) :
  read_signal i16_sample w path channel kw
  = (t, Ok (decoded, sample_rate, ch)) ->
  exists path' start' stop' start'' frames'' stop'' t',
    split_annotation (normalized w path) (unit_ kw) (frames kw) (start kw)
      (stop kw) channel
    = ([], Ok (path', start', stop', ch))
    /\ decode i16_sample w path' start'' frames'' stop'' ch (dtype_ kw)
         (fill_value kw)
       = (t', Ok (decoded, sample_rate)).
Proof.
  unfold read_signal. intros H.
  apply bind_inv_ok in H.
  destruct H as (t1 & [[[path' start'] stop'] ch'] & t2 & Hs & H & _).
  assert (t1 = []) by (eapply split_annotation_inv; exact Hs). subst t1.
  apply bind_inv_ok in H.
  destruct H as (t3 & [[start'' frames''] stop''] & t4 & _ & H & _).
  apply bind_inv_ok in H.
  destruct H as (t5 & [sig sr] & t6 & Hd & H & _).
  injection H as _ <- <- <-.
  apply try_except_inv_ok in Hd.
  exists path', start', stop', start'', frames'', stop'', t5. auto.
Qed.

Lemma deliver_inv {A : Type} (kw : kwargs A) (decoded : ndarray A)
    (sample_rate : Z) (ch : option chansel) (t : list event)
    (sig : ndarray A) (rate : option Z) :
  deliver kw decoded sample_rate ch = (t, Ok (sig, rate)) ->
  match ch with
  | None => sig = transpose decoded
  | Some c =>
      ndim (transpose decoded) = 2%nat
      /\ index_axis0 (transpose decoded) c = Ok sig
      /\ size sig <> 0%nat
  end.
Proof.
  unfold deliver, select_channel. intros H.
  apply bind_inv_ok in H. destruct H as (t1 & [] & t2 & _ & H & _).
  apply bind_inv_ok in H. destruct H as (t3 & sig' & t4 & Hsel & H & _).
  assert (sig' = sig).
  { destruct (return_sample_rate kw); now injection H as _ <- _. }
  subst sig'. clear H.
  destruct ch as [c|]; [|now injection Hsel as _ <-].
  apply bind_inv_ok in Hsel. destruct Hsel as (t5 & [] & t6 & Ha & H & _).
  apply lift_inv_ok in Ha. destruct Ha as [Ha _].
  apply bind_inv_ok in H. destruct H as (t7 & r & t8 & Hi & H & _).
  apply lift_inv_ok in Hi. destruct Hi as [Hi _].
  destruct (size r =? 0)%nat eqn:Ez; [discriminate|].
  injection H as _ <-. apply Nat.eqb_neq in Ez.
  unfold assert in Ha.
  destruct (ndim (transpose decoded) =? 2)%nat eqn:En; [|discriminate].
  apply Nat.eqb_eq in En. auto.
Qed.

(** C2.  Every successful call returns the decoded signal transposed,
    with the channel selection applied to the transposed signal.  A signal
    from the sound-file decoder comes as (sample, channel): [k] frames of
    the channels of the file, frame [i] and channel [c] holding the sample
    of the file at frame [pos + i] and channel [c]; transposed it has the
    shape (channels, k) with the element [(c, i)] that of [(i, c)] before.
    So the result of a file of several channels, loaded without a channel
    selection, has the shape (channels, k); the result of a file of one
    channel, loaded without a channel selection, has the one-dimensional
    shape (k,).  A signal of the [.m4a] decoder is one-dimensional. *)
Theorem load_audio_axis_order {A : Type} (i16_sample : Z -> A)
    (w : World A) (path : path_arg) (channel : option chansel)
    (kw : kwargs A) (t : list event) (sig : ndarray A) (rate : option Z) :
  load_audio i16_sample w path channel kw = (t, Ok (sig, rate)) ->
  exists path' start' stop' ch decoded,
    split_annotation (normalized w path) (unit_ kw) (frames kw) (start kw)
      (stop kw) channel
    = ([], Ok (path', start', stop', ch))
    /\ match ch with
       | None => sig = transpose decoded
       | Some c => index_axis0 (transpose decoded) c = Ok sig
       end
    /\ (is_m4a w path' = true -> ch = None /\ ndim sig = 1%nat)
    /\ (is_m4a w path' = false ->
        exists f d pos k,
          SoundFile_open w path' = Ok f
          /\ shape decoded
             = (if negb (is_none ch) || (1 <? channels f)%nat
                then [k; channels f] else [k])
          /\ (forall i c, (i < k)%nat -> (i < sf_frames f - pos)%nat ->
                (c < channels f)%nat ->
                nth_error (data decoded) (i * channels f + c)
                = Some (sf_sample f d (pos + i) c))
          /\ (negb (is_none ch) || (1 <? channels f)%nat = true ->
              shape (transpose decoded) = [channels f; k]
              /\ forall i c, (i < k)%nat -> (c < channels f)%nat ->
                   entry (transpose decoded) c i = entry decoded i c)
          /\ (ch = None -> (1 < channels f)%nat ->
              shape sig = [channels f; k])
          /\ (ch = None -> channels f = 1%nat -> shape sig = [k])).
Proof.
  unfold load_audio. intros H.
  apply bind_inv_ok in H.
  destruct H as (t1 & [[decoded sr] ch] & t2 & Hr & Hd & _).
  apply read_signal_inv in Hr.
  destruct Hr as (path' & start' & stop' & start'' & frames'' & stop'' & t'
                  & Hsplit & Hdec).
  apply deliver_inv in Hd.
  exists path', start', stop', ch, decoded.
  split; [exact Hsplit|]. split; [destruct ch; tauto|].
  unfold decode in Hdec. unfold is_m4a.
  assert (Hgen : decode_soundfile w path' start'' frames'' stop'' ch
                   (dtype_ kw) (fill_value kw) = (t', Ok (decoded, sr)) ->
          exists f d pos k,
            SoundFile_open w path' = Ok f
            /\ shape decoded
               = (if negb (is_none ch) || (1 <? channels f)%nat
                  then [k; channels f] else [k])
            /\ (forall i c, (i < k)%nat -> (i < sf_frames f - pos)%nat ->
                  (c < channels f)%nat ->
                  nth_error (data decoded) (i * channels f + c)
                  = Some (sf_sample f d (pos + i) c))
            /\ (negb (is_none ch) || (1 <? channels f)%nat = true ->
                shape (transpose decoded) = [channels f; k]
                /\ forall i c, (i < k)%nat -> (c < channels f)%nat ->
                     entry (transpose decoded) c i = entry decoded i c)
            /\ (ch = None -> (1 < channels f)%nat ->
                shape sig = [channels f; k])
            /\ (ch = None -> channels f = 1%nat -> shape sig = [k])).
  { intros Hs. apply decode_soundfile_inv in Hs.
    destruct Hs as (f & d & pos & k & Hopen & _ & _ & Hshape & Hlen & Hent).
    exists f, d, pos, k.
    split; [exact Hopen|]. split; [exact Hshape|]. split; [exact Hent|].
    split; [|split].
    - intros H2. rewrite H2 in Hshape.
      destruct (transpose_spec decoded k (channels f) Hshape Hlen)
        as (Ht & _ & Hte).
      split; [exact Ht | exact Hte].
    - intros -> Hm. cbn [is_none negb orb] in Hshape.
      apply Nat.ltb_lt in Hm. rewrite Hm in Hshape.
      rewrite Hd.
      now destruct (transpose_spec decoded k (channels f) Hshape Hlen).
    - intros -> H1. cbn [is_none negb orb] in Hshape. rewrite H1 in Hshape.
      cbn in Hshape. rewrite Hd, (transpose_1d decoded k Hshape). exact Hshape. }
  destruct path' as [s|h].
  - destruct (String.eqb (Path_suffix w s) ".m4a") eqn:Em.
    + split; [|discriminate]. intros _.
      apply decode_buffers_1d in Hdec.
      assert (Ht : transpose decoded = decoded).
      { unfold transpose. unfold ndim in Hdec.
        destruct (shape decoded) as [|n [|m [|x l]]]; try reflexivity.
        discriminate Hdec. }
      rewrite Ht in Hd.
      destruct ch as [c|].
      * destruct Hd as (Hn & _). congruence.
      * split; [reflexivity|]. now subst sig.
    + split; [discriminate|]. intros _. now apply Hgen.
  - split; [discriminate|]. intros _. now apply Hgen.
Qed.

Lemma load_audio_axis_order_witness :
  exists path' start' stop' ch decoded,
    split_annotation (normalized demo_world (PStr "observation.wav")) "samples"
      (PInt (-1)) (PInt 0) None None
    = ([], Ok (path', start', stop', ch))
    /\ match ch with
       | None =>
           mk_ndarray [6%nat; 5%nat]
             [0; 10; 20; 30; 40; 1; 11; 21; 31; 41; 2; 12; 22; 32; 42;
              3; 13; 23; 33; 43; 4; 14; 24; 34; 44; 5; 15; 25; 35; 45]
           = transpose decoded
       | Some c =>
           index_axis0 (transpose decoded) c
           = Ok (mk_ndarray [6%nat; 5%nat]
                   [0; 10; 20; 30; 40; 1; 11; 21; 31; 41; 2; 12; 22; 32; 42;
                    3; 13; 23; 33; 43; 4; 14; 24; 34; 44; 5; 15; 25; 35; 45])
       end
    /\ (is_m4a demo_world path' = true -> ch = None /\ 2%nat = 1%nat)
    /\ (is_m4a demo_world path' = false ->
        exists f d pos k,
          SoundFile_open demo_world path' = Ok f
          /\ shape decoded
             = (if negb (is_none ch) || (1 <? channels f)%nat
                then [k; channels f] else [k])
          /\ (forall i c, (i < k)%nat -> (i < sf_frames f - pos)%nat ->
                (c < channels f)%nat ->
                nth_error (data decoded) (i * channels f + c)
                = Some (sf_sample f d (pos + i) c))
          /\ (negb (is_none ch) || (1 <? channels f)%nat = true ->
              shape (transpose decoded) = [channels f; k]
              /\ forall i c, (i < k)%nat -> (c < channels f)%nat ->
                   entry (transpose decoded) c i = entry decoded i c)
          /\ (ch = None -> (1 < channels f)%nat ->
              [6%nat; 5%nat] = [channels f; k])
          /\ (ch = None -> channels f = 1%nat -> [6%nat; 5%nat] = [k])).
Proof.
  exact (load_audio_axis_order (fun z => z) demo_world
           (PStr "observation.wav") None default_kwargs
           [EvSoundFile (PStr "observation.wav"); EvRead 5]
           (mk_ndarray [6%nat; 5%nat]
              [0; 10; 20; 30; 40; 1; 11; 21; 31; 41; 2; 12; 22; 32; 42;
               3; 13; 23; 33; 43; 4; 14; 24; 34; 44; 5; 15; 25; 35; 45])
           None eq_refl).
Defined.

(** ** C6: more frames asked for than the file has left *)



Lemma bind_nil_ok {X Y} (x : X) (k : X -> M Y) : bind ([], Ok x) k = k x.
Proof. exact (bind_lift_ok x k). Qed.

Lemma split_annotation_plain (path : path_arg) (unit : string)
    (frames start : pynum) (stop : option pynum) (channel : option chansel) :
  annotated path = false ->
  split_annotation path unit frames start stop channel
  = ([], Ok (path, start, stop, channel)).
Proof.
  unfold annotated, split_annotation.
  destruct path as [s|h]; [|reflexivity]. now intros ->.
Qed.

Lemma decode_not_m4a {A : Type} (i16_sample : Z -> A) (w : World A)
    (path : path_arg) (start frames : pynum) (stop : option pynum)
    (channel : option chansel) (dtype : option dtype)
    (fill_value : option A) :
  is_m4a w path = false ->
  decode i16_sample w path start frames stop channel dtype fill_value
  = decode_soundfile w path start frames stop channel dtype fill_value.
Proof.
  unfold is_m4a, decode. destruct path as [s|h]; [|reflexivity]. now intros ->.
Qed.






(** Ten frames of a file of eight with a fill value: the eight frames
    and two fill values. *)
Example short_read_is_filled :
  demo_load "speech.wav" None
    (with_fill_value (Some 77) (with_frames (PInt 10) default_kwargs))
  = ([EvSoundFile (PStr "speech.wav"); EvRead 10],
     Ok (mk_ndarray [10%nat] [0; 10; 20; 30; 40; 50; 60; 70; 77; 77], None)).
Proof. reflexivity. Qed.

(** Nothing is left at the end of the file: without a channel selection
    the call returns the empty signal, with one it raises. *)
Example short_read_with_nothing_left :
  demo_load "observation.wav" None
    (with_start (PInt 5) (with_frames (PInt 3) default_kwargs))
  = ([EvSoundFile (PStr "observation.wav"); EvSeek 5; EvRead 0],
     Ok (mk_ndarray [6%nat; 0%nat] [], None))
  /\ demo_load "observation.wav" (Some (ChIndex 0))
       (with_start (PInt 5) (with_frames (PInt 3) default_kwargs))
     = ([EvSoundFile (PStr "observation.wav"); EvSeek 5; EvRead 0],
        Err (Exn ValueError [AStr "Returned signal would be empty"] None)).
Proof. split; reflexivity. Qed.

(** In seconds: two and a half seconds are ten frames at 4 frames per
    second, the file has eight, and two fill values follow them. *)
Example short_read_in_seconds :
  demo_load "speech.wav" None
    (with_unit "seconds"
       (with_fill_value (Some 77) (with_frames (PFloat 2.5) default_kwargs)))
  = ([EvSoundFile (PStr "speech.wav"); EvSoundFile (PStr "speech.wav");
      EvRead 10],
     Ok (mk_ndarray [10%nat] [0; 10; 20; 30; 40; 50; 60; 70; 77; 77], None)).
Proof. reflexivity. Qed.

(** A window given by [stop] is clipped to the file and not filled. *)
Example stop_beyond_the_end_is_clipped :
  demo_load "speech.wav" None
    (with_stop (Some (PInt 10)) (with_fill_value (Some 77) default_kwargs))
  = ([EvSoundFile (PStr "speech.wav"); EvRead 8],
     Ok (mk_ndarray [8%nat] [0; 10; 20; 30; 40; 50; 60; 70], None)).
Proof. reflexivity. Qed.


(** ** C9: nested structures of paths *)

Lemma bind_ext {X Y} (m : M X) (k k' : X -> M Y) :
  (forall x, k x = k' x) -> bind m k = bind m k'.
Proof. intros H. destruct m as [t [x|e]]; cbn [bind]; [now rewrite H | reflexivity]. Qed.

Lemma bind_assoc {X Y Z} (m : M X) (k : X -> M Y) (h : Y -> M Z) :
  bind (bind m k) h = bind m (fun x => bind (k x) h).
Proof.
  destruct m as [t [x|e]]; cbn [bind]; [|reflexivity].
  destruct (k x) as [t1 [y|e]]; cbn [bind]; [|reflexivity].
  destruct (h y) as [t2 r]. now rewrite app_assoc.
Qed.

Lemma shape_eqb_eq (s1 s2 : list nat) : shape_eqb s1 s2 = true <-> s1 = s2.
Proof.
  revert s2. induction s1 as [|n s1 IH]; intros [|m s2]; cbn;
    try (split; [discriminate | congruence]); [tauto|].
  rewrite andb_true_iff, Nat.eqb_eq, IH. split; [intros [-> ->] | intros [= -> ->]]; auto.
Qed.

Lemma stack_data_spec {A : Type} (s : list nat) (l : list (loaded A)) :
  (Forall (array_of_shape s) l ->
   stack_data s l = Some (flat_map array_data l))
  /\ (forall d, stack_data s l = Some d -> Forall (array_of_shape s) l).
Proof.
  induction l as [|x l [IH1 IH2]]; cbn [stack_data flat_map].
  - split; [reflexivity | constructor].
  - split.
    + intros H. inversion H as [|? ? (a & -> & Ha) Hl]; subst.
      rewrite (proj2 (shape_eqb_eq (shape a) (shape a)) eq_refl).
      now rewrite (IH1 Hl).
    + intros d. destruct x as [a|a r|l'|l']; try discriminate.
      destruct (shape_eqb (shape a) s) eqn:E; [|discriminate].
      apply shape_eqb_eq in E.
      destruct (stack_data s l) as [d'|]; [|discriminate].
      intros _. constructor; [exists a; auto | eauto].
Qed.

(** [np.array] stacks exactly the lists of arrays of one shape. *)
Lemma np_array_spec {A : Type} (l : list (loaded A)) :
  ((exists a, np_array l = Some a)
   <-> exists s, Forall (array_of_shape s) l)
  /\ forall a, np_array l = Some a ->
       data a = flat_map array_data l
       /\ exists s, Forall (array_of_shape s) l
                    /\ (l <> [] -> shape a = List.length l :: s)
                    /\ (l = [] -> shape a = [0%nat]).
Proof.
  destruct l as [|x l].
  - split.
    + split; [intros _; exists []; constructor | intros _; eexists; reflexivity].
    + intros a [= <-]. split; [reflexivity|]. exists []. repeat split; auto; congruence.
  - split.
    + split.
      * intros [a H]. cbn [np_array] in H.
        destruct x as [b|b r|l'|l']; try discriminate.
        destruct (stack_data (shape b) (LArr b :: l)) as [d|] eqn:E; [|discriminate].
        exists (shape b). eapply stack_data_spec. exact E.
      * intros [s H]. cbn [np_array].
        inversion H as [|? ? (b & -> & Hb) Hl]; subst.
        rewrite (proj1 (stack_data_spec (shape b) (LArr b :: l)) H). eauto.
    + intros a H. cbn [np_array] in H.
      destruct x as [b|b r|l'|l']; try discriminate.
      destruct (stack_data (shape b) (LArr b :: l)) as [d|] eqn:E; [|discriminate].
      injection H as <-. cbn [data shape].
      assert (F := proj2 (stack_data_spec (shape b) (LArr b :: l)) d E).
      rewrite (proj1 (stack_data_spec (shape b) (LArr b :: l)) F) in E.
      injection E as <-. split; [reflexivity|].
      exists (shape b). repeat split; auto. discriminate.
Qed.

Lemma map_M_keys {A : Type} (g : paths -> M (loaded A))
    (d : list (string * paths)) (t : list event)
    (kvs : list (string * loaded A)) :
  map_M (fun kv => bind (g (snd kv)) (fun x => ret (fst kv, x))) d
  = (t, Ok kvs) ->
  map fst kvs = map fst d.
Proof.
  revert t kvs. induction d as [|[k v] d IH]; intros t kvs; cbn [map_M].
  - now intros [= _ <-].
  - intros H. apply bind_inv_ok in H.
    destruct H as (t1 & [k' x] & t2 & H1 & H & _).
    apply bind_inv_ok in H1. destruct H1 as (t3 & x' & t4 & _ & H1 & _).
    injection H1 as _ <- _.
    apply bind_inv_ok in H. destruct H as (t5 & xs & t6 & H2 & H & _).
    injection H as _ <-. cbn. f_equal. eapply IH. exact H2.
Qed.

(** C9.  A leaf is handed to [load_audio] with the keyword parameters and
    no channel selection.  A sequence loads its entries in order, each
    with the same keyword parameters, and returns the stacked array when
    [np.array] gives one, and the list of the results otherwise; it gives
    one exactly when all results are arrays of one shape, and the stacked
    array then has the number of entries as a new first axis and the
    elements of the entries in order.  A dict loads its values in order
    with the same keyword parameters and returns a dict of the results
    under the same keys, never an array. *)
Theorem recursive_load_audio_structure {A : Type} (i16_sample : Z -> A)
    (w : World A) (kw : kwargs A) :
  (forall p,
     recursive_load_audio i16_sample w kw (Leaf p)
     = bind (load_audio i16_sample w p None kw) (fun r =>
       match snd r with
       | Some sample_rate => ret (LPair (fst r) sample_rate)
       | None => ret (LArr (fst r))
       end))
  /\ (forall l,
        recursive_load_audio i16_sample w kw (PSeq l)
        = bind (map_M (recursive_load_audio i16_sample w kw) l) (fun data =>
          match np_array data with
          | Some np_data => ret (LArr np_data)
          | None => ret (LList data)
          end))
  /\ (forall results : list (loaded A),
        ((exists a, np_array results = Some a)
         <-> exists s, Forall (array_of_shape s) results)
        /\ forall a, np_array results = Some a ->
             data a = flat_map array_data results
             /\ exists s, Forall (array_of_shape s) results
                          /\ (results <> [] ->
                              shape a = List.length results :: s)
                          /\ (results = [] -> shape a = [0%nat]))
  /\ (forall d,
        recursive_load_audio i16_sample w kw (PDict d)
        = bind (map_M (fun kv =>
                         bind (recursive_load_audio i16_sample w kw (snd kv))
                           (fun x => ret (fst kv, x))) d)
            (fun kvs => ret (LDict kvs)))
  /\ (forall d t r,
        recursive_load_audio i16_sample w kw (PDict d) = (t, Ok r) ->
        exists kvs, r = LDict kvs /\ map fst kvs = map fst d).
Proof.
  assert (HD : forall d,
            recursive_load_audio i16_sample w kw (PDict d)
            = bind (map_M (fun kv =>
                             bind (recursive_load_audio i16_sample w kw (snd kv))
                               (fun x => ret (fst kv, x))) d)
                (fun kvs => ret (LDict kvs))).
  { intros d. cbn [recursive_load_audio]. f_equal.
    induction d as [|[k v] d IH]; [reflexivity|].
    cbn [map_M fst snd]. rewrite bind_assoc. apply bind_ext. intros x.
    rewrite bind_ret. now rewrite IH. }
  split; [|split; [|split; [|split]]].
  - intros p. cbn [recursive_load_audio]. unfold load_leaf.
    apply bind_ext. now intros [sig [r|]].
  - intros l. cbn [recursive_load_audio]. f_equal.
    induction l as [|a l IH]; [reflexivity|].
    cbn [map_M]. apply bind_ext. intros x. now rewrite IH.
  - intros results. apply np_array_spec.
  - exact HD.
  - intros d t r H. rewrite HD in H.
    apply bind_inv_ok in H. destruct H as (t1 & kvs & t2 & H1 & H & _).
    injection H as _ <-. exists kvs. split; [reflexivity|].
    eapply map_M_keys. exact H1.
Qed.

(** The doctests of [recursive_load_audio], on the small files. *)
Example recursive_load_audio_doctests :
  let load := recursive_load_audio (fun z => z) demo_world default_kwargs in
  let speech := Leaf (PStr "speech.wav") in
  let observation := Leaf (PStr "observation.wav") in
  (exists t a, load (PSeq [speech; speech]) = (t, Ok (LArr a))
               /\ shape a = [2; 8]%nat)
  /\ (exists t a b, load (PSeq [speech; observation])
                    = (t, Ok (LList [LArr a; LArr b]))
                    /\ shape a = [8%nat] /\ shape b = [6; 5]%nat)
  /\ (exists t a b, load (PDict [("a", speech); ("b", speech)])
                    = (t, Ok (LDict [("a", LArr a); ("b", LArr b)]))
                    /\ shape a = [8%nat] /\ shape b = [8%nat])
  /\ (exists t a b, load (PSeq [observation; PSeq [speech; speech]])
                    = (t, Ok (LList [LArr a; LArr b]))
                    /\ shape a = [6; 5]%nat /\ shape b = [2; 8]%nat).
Proof.
  cbv zeta. split; [|split; [|split]].
  - do 2 eexists. split; reflexivity.
  - do 3 eexists. split; [reflexivity | split; reflexivity].
  - do 3 eexists. split; [reflexivity | split; reflexivity].
  - do 3 eexists. split; [reflexivity | split; reflexivity].
Qed.

(** ** The doctests of the module, on the small files *)

Example parse_doctest_1 :
  _parse_audio_slice "file.wav::[:16000,0]" (PInt 0) None None
  = Ok ("file.wav", PInt 0, Some (PInt 16000), Some (ChIndex 0)).
Proof. reflexivity. Qed.

Example parse_doctest_2 :
  _parse_audio_slice "file.wav::[:16000,:2]" (PInt 0) None None
  = Ok ("file.wav", PInt 0, Some (PInt 16000), Some (ChSlice None (Some 2))).
Proof. reflexivity. Qed.

Example pattern_doctests :
  fullmatch 5 _PATTERN "[:]" = Some [None; None; None; None; None]
  /\ fullmatch 5 _PATTERN "[:3]" = Some [None; Some "3"; None; None; None]
  /\ fullmatch 5 _PATTERN "[3:]" = Some [Some "3"; None; None; None; None]
  /\ fullmatch 5 _PATTERN "[3:4]" = Some [Some "3"; Some "4"; None; None; None]
  /\ fullmatch 5 _PATTERN "[:,1]" = Some [None; None; None; None; Some "1"]
  /\ fullmatch 5 _PATTERN "[:,1:]" = Some [None; None; Some "1"; None; None]
  /\ fullmatch 5 _PATTERN "[:,:]" = Some [None; None; None; None; None]
  /\ fullmatch 5 _PATTERN "[:,1:2]" = Some [None; None; Some "1"; Some "2"; None]
  /\ fullmatch 5 _PATTERN "[:,:2]" = Some [None; None; None; Some "2"; None].
Proof. repeat split; reflexivity. Qed.

(** The shapes of the doctests of [load_audio]: a file of one channel, a
    slice of it, a file of six channels and its channel selections, a
    length in samples and in seconds, and a length beyond the file. *)
Example load_audio_doctests :
  let shape_of (r : M (ndarray Z * option Z)) :=
    match snd r with
    | Ok (a, _) => Some (shape a)
    | Err _ => None
    end in
  shape_of (demo_load "speech.wav" None default_kwargs) = Some [8%nat]
  /\ shape_of (demo_load "speech.wav::[2:5]" None default_kwargs)
     = Some [3%nat]
  /\ shape_of (demo_load "observation.wav" None default_kwargs)
     = Some [6; 5]%nat
  /\ shape_of (demo_load "observation.wav::[:,0]" None default_kwargs)
     = Some [5%nat]
  /\ shape_of (demo_load "observation.wav::[:,:2]" None default_kwargs)
     = Some [2; 5]%nat
  /\ shape_of (demo_load "observation.wav::[:,2:4]" None default_kwargs)
     = Some [2; 5]%nat
  /\ shape_of (demo_load "observation.wav" (Some (ChList [1; 3; 5]))
                 default_kwargs)
     = Some [3; 5]%nat
  /\ shape_of (demo_load "speech.wav" None
                 (with_frames (PInt 4) default_kwargs))
     = Some [4%nat]
  /\ shape_of (demo_load "speech.wav" None
                 (with_frames (PInt 1) (with_unit "seconds" default_kwargs)))
     = Some [4%nat]
  /\ shape_of (demo_load "speech.wav" None
                 (with_frames (PInt 160) default_kwargs))
     = Some [8%nat].
Proof. cbv zeta. repeat split; reflexivity. Qed.

(** A file that cannot be read: the RuntimeError of the decoder comes
    back with the output of the [file] tool. *)
Example load_audio_wrong_suffix :
  demo_load "x.sph" None default_kwargs
  = ([EvSoundFile (PStr "x.sph"); EvMagic "x.sph"],
     Err (Exn RuntimeError
            [AStr ("Wrong suffix .sph in x.sph." ++ nl ++ "File format:" ++ nl
                   ++ "x.sph: data")]
            (Some (Exn RuntimeError [AStr "Error opening x.sph"] None)))).
Proof. reflexivity. Qed.

(** * More properties of the loader *)

(** ** The unit *)

(** X1.  For a path without annotation, a [unit] that is neither
    ['samples'] nor ['seconds'] makes [load_audio] fail with
    [ValueError(unit)] before anything is opened. *)
Theorem unknown_unit_raises {A : Type} (i16_sample : Z -> A) (w : World A)
    (path : path_arg) (channel : option chansel) (kw : kwargs A) :
  annotated (normalized w path) = false ->
  unit_ kw <> "samples" -> unit_ kw <> "seconds" ->
  load_audio i16_sample w path channel kw
  = ([], Err (Exn ValueError [AStr (unit_ kw)] None)).
Proof.
  intros Hann H1 H2. unfold load_audio, read_signal.
  rewrite (split_annotation_plain _ _ _ _ _ _ Hann), bind_nil_ok.
  unfold resolve_unit.
  apply String.eqb_neq in H1. apply String.eqb_neq in H2.
  rewrite H1, H2. reflexivity.
Qed.

Lemma unknown_unit_raises_witness :
  demo_load "speech.wav" None (with_unit "frames" default_kwargs)
  = ([], Err (Exn ValueError [AStr "frames"] None)).
Proof.
  apply (unknown_unit_raises (fun z => z) demo_world (PStr "speech.wav") None
           (with_unit "frames" default_kwargs)).
  - reflexivity.
  - cbn. discriminate.
  - cbn. discriminate.
Defined.

(** X2.  For a path without annotation and [unit='seconds'], a negative
    [stop] makes [load_audio] fail with [NotImplementedError(unit, stop)]
    before anything is opened. *)
Theorem negative_stop_in_seconds_raises {A : Type} (i16_sample : Z -> A)
    (w : World A) (path : path_arg) (channel : option chansel)
    (kw : kwargs A) (s : pynum) :
  annotated (normalized w path) = false ->
  unit_ kw = "seconds" -> stop kw = Some s -> py_lt_int s 0 = true ->
  load_audio i16_sample w path channel kw
  = ([], Err (Exn NotImplementedError [AStr "seconds"; ANum s] None)).
Proof.
  intros Hann Hu Hs Hneg. unfold load_audio, read_signal.
  rewrite (split_annotation_plain _ _ _ _ _ _ Hann), bind_nil_ok.
  unfold resolve_unit. rewrite Hu, Hs, Hneg. reflexivity.
Qed.

Lemma negative_stop_in_seconds_raises_witness :
  demo_load "speech.wav" None
    (with_stop (Some (PFloat (-0.5))) (with_unit "seconds" default_kwargs))
  = ([], Err (Exn NotImplementedError [AStr "seconds"; ANum (PFloat (-0.5))]
                None)).
Proof.
  apply (negative_stop_in_seconds_raises (fun z => z) demo_world
           (PStr "speech.wav") None
           (with_stop (Some (PFloat (-0.5)))
              (with_unit "seconds" default_kwargs)) (PFloat (-0.5)));
    reflexivity.
Defined.

(** ** The [.m4a] decoder *)

Lemma read_signal_samples {A : Type} (i16_sample : Z -> A) (w : World A)
    (path path' : path_arg) (channel ch : option chansel) (kw : kwargs A)
    (start' : pynum) (stop' : option pynum) :
  split_annotation (normalized w path) (unit_ kw) (frames kw) (start kw)
    (stop kw) channel
  = ([], Ok (path', start', stop', ch)) ->
  unit_ kw = "samples" ->
  read_signal i16_sample w path channel kw
  = bind (try_except
            (decode i16_sample w path' start' (frames kw) stop' ch (dtype_ kw)
               (fill_value kw))
            (on_RuntimeError w path'))
      (fun r => ret (fst r, snd r, ch)).
Proof.
  intros Hs Hu. unfold read_signal. rewrite Hs, bind_nil_ok.
  unfold resolve_unit. rewrite Hu.
  change (String.eqb "samples" "samples") with true. cbv iota.
  rewrite bind_ret. apply bind_ext. now intros [sig sr].
Qed.

Lemma list_pair_ind {B : Type} (P : list B -> Prop) :
  P [] -> (forall a, P [a]) -> (forall a b l, P l -> P (a :: b :: l)) ->
  forall l, P l.
Proof.
  intros H0 H1 H2.
  assert (H : forall l, P l /\ forall a, P (a :: l)).
  { induction l as [|x l [IH1 IH2]]; split; auto. }
  intros l. apply H.
Qed.

Lemma frombuffer_i2_even (buf : list Byte.byte) :
  Nat.even (List.length buf) = true -> frombuffer_i2 buf = Ok (i2_samples buf).
Proof.
  induction buf as [|a|a b l IH] using list_pair_ind; [reflexivity|discriminate|].
  cbn [List.length Nat.even frombuffer_i2 i2_samples]. intros H.
  now rewrite (IH H).
Qed.

Lemma frombuffer_i2_odd (buf : list Byte.byte) :
  Nat.even (List.length buf) = false ->
  frombuffer_i2 buf
  = Err (Exn ValueError
           [AStr "buffer size must be a multiple of element size"] None).
Proof.
  induction buf as [|a|a b l IH] using list_pair_ind; [discriminate|reflexivity|].
  cbn [List.length Nat.even frombuffer_i2]. intros H. now rewrite (IH H).
Qed.

Lemma decode_buffers_even {A : Type} (i16_sample : Z -> A)
    (bufs : list (list Byte.byte)) :
  forallb (fun buf => Nat.even (List.length buf)) bufs = true ->
  decode_buffers i16_sample bufs
  = Ok (map (fun buf => map i16_sample (i2_samples buf)) bufs).
Proof.
  induction bufs as [|buf bufs IH]; [reflexivity|].
  cbn [forallb decode_buffers map]. intros H.
  apply andb_prop in H. destruct H as [H1 H2].
  now rewrite (frombuffer_i2_even buf H1), (IH H2).
Qed.

(** The signal of an [.m4a] file: the 16-bit samples of all buffers, one
    after the other. *)
Lemma decode_m4a_ok {A : Type} (i16_sample : Z -> A) (w : World A)
    (s : string) (start' : pynum) (f : AudioFile) :
  py_eq_int start' 0 = true ->
  audio_open w s = Ok f ->
  ar_buffers f <> [] ->
  forallb (fun buf => Nat.even (List.length buf)) (ar_buffers f) = true ->
  let samples :=
    flat_map (fun buf => map i16_sample (i2_samples buf)) (ar_buffers f) in
  decode_m4a i16_sample w s start' None
  = ([EvAudioOpen s],
     Ok (mk_ndarray [List.length samples] samples, ar_samplerate f)).
Proof.
  intros H0 Hopen Hne Heven samples. unfold decode_m4a.
  rewrite H0. cbn [is_none andb assert]. rewrite bind_lift_ok.
  unfold emit. rewrite bind_ok. rewrite Hopen, bind_lift_ok.
  rewrite (decode_buffers_even i16_sample _ Heven), bind_lift_ok.
  unfold concatenate.
  destruct (map _ (ar_buffers f)) as [|l0 ls] eqn:E2.
  - apply map_eq_nil in E2. contradiction.
  - rewrite <- E2, <- flat_map_concat_map, bind_lift_ok. reflexivity.
Qed.

Lemma try_except_ok {X} (t : list event) (x : X) (h : exn -> M X) :
  try_except (t, Ok x) h = (t, Ok x).
Proof. reflexivity. Qed.

Lemma decode_is_m4a {A : Type} (i16_sample : Z -> A) (w : World A)
    (s : string) (start frames : pynum) (stop : option pynum)
    (channel : option chansel) (dtype : option dtype)
    (fill_value : option A) :
  is_m4a w (PStr s) = true ->
  decode i16_sample w (PStr s) start frames stop channel dtype fill_value
  = decode_m4a i16_sample w s start stop.
Proof. unfold is_m4a, decode. now intros ->. Qed.

Lemma check_sample_rate_ok (expected : option Z) (sample_rate : Z) :
  expected = None \/ expected = Some sample_rate ->
  check_sample_rate expected sample_rate = ret tt.
Proof.
  unfold check_sample_rate. intros [-> | ->]; [reflexivity|].
  now rewrite Z.eqb_refl.
Qed.

(** X3.  A call in samples for an [.m4a] path, with start [0], without
    stop and without channel selection, returns the 16-bit samples of all
    decode buffers in order as a one-dimensional array, whatever [frames],
    [fill_value] and [dtype] are; the buffers are the only thing opened.
    (The buffers are taken to have an even number of bytes and to be at
    least one.) *)
Theorem m4a_returns_all_buffers {A : Type} (i16_sample : Z -> A)
    (w : World A) (path : path_arg) (channel : option chansel)
    (kw : kwargs A) (s : string) (start' : pynum) (f : AudioFile) :
  split_annotation (normalized w path) (unit_ kw) (frames kw) (start kw)
    (stop kw) channel
  = ([], Ok (PStr s, start', None, None)) ->
  unit_ kw = "samples" ->
  is_m4a w (PStr s) = true ->
  py_eq_int start' 0 = true ->
  audio_open w s = Ok f ->
  ar_buffers f <> [] ->
  forallb (fun buf => Nat.even (List.length buf)) (ar_buffers f) = true ->
  expected_sample_rate kw = None
  \/ expected_sample_rate kw = Some (ar_samplerate f) ->
  let samples :=
    flat_map (fun buf => map i16_sample (i2_samples buf)) (ar_buffers f) in
  load_audio i16_sample w path channel kw
  = ([EvAudioOpen s],
     Ok (mk_ndarray [List.length samples] samples,
         if return_sample_rate kw then Some (ar_samplerate f) else None)).
Proof.
  intros Hs Hu Hm H0 Hopen Hne Heven He samples.
  unfold load_audio.
  rewrite (read_signal_samples _ _ _ _ _ _ _ _ _ Hs Hu).
  rewrite (decode_is_m4a _ _ _ _ _ _ _ _ _ Hm).
  rewrite (decode_m4a_ok i16_sample w s start' f H0 Hopen Hne Heven).
  fold samples. rewrite try_except_ok, bind_ok.
  cbn [fst snd ret]. rewrite app_nil_r, bind_ok.
  unfold deliver. rewrite (check_sample_rate_ok _ _ He), bind_ret.
  cbn [select_channel transpose shape]. rewrite bind_ret.
  destruct (return_sample_rate kw); cbn; reflexivity.
Qed.

Lemma m4a_returns_all_buffers_witness :
  demo_load "song.m4a" None (with_frames (PInt 2) default_kwargs)
  = ([EvAudioOpen "song.m4a"],
     Ok (mk_ndarray [3%nat] [1; -1; -32768], None)).
Proof.
  refine (m4a_returns_all_buffers (fun z => z) demo_world (PStr "song.m4a")
            None (with_frames (PInt 2) default_kwargs) "song.m4a" (PInt 0)
            {| ar_samplerate := 4;
               ar_buffers := [[Byte.x01; Byte.x00; Byte.xff; Byte.xff];
                              [Byte.x00; Byte.x80]] |} _ _ _ _ _ _ _ _).
  - reflexivity.
  - reflexivity.
  - reflexivity.
  - reflexivity.
  - reflexivity.
  - discriminate.
  - reflexivity.
  - left. reflexivity.
Defined.

Lemma try_except_other {A : Type} (w : World A) (path : path_arg)
    (t : list event) (e : exn) :
  is_RuntimeError (exn_cls e) = false ->
  try_except (t, Err e) (on_RuntimeError w path) = (t, Err e).
Proof.
  intros H. unfold try_except, on_RuntimeError. rewrite H.
  cbn. now rewrite app_nil_r.
Qed.

(** X4.  A call in samples for an [.m4a] path with a start other than
    [0] or with a stop (given as parameters or in the annotation) fails
    with the AssertionError 'audioread does not support partial loading
    of audio files'; the file is not opened. *)
Theorem m4a_partial_loading_raises {A : Type} (i16_sample : Z -> A)
    (w : World A) (path : path_arg) (channel ch : option chansel)
    (kw : kwargs A) (s : string) (start' : pynum) (stop' : option pynum) :
  split_annotation (normalized w path) (unit_ kw) (frames kw) (start kw)
    (stop kw) channel
  = ([], Ok (PStr s, start', stop', ch)) ->
  unit_ kw = "samples" ->
  is_m4a w (PStr s) = true ->
  py_eq_int start' 0 = false \/ stop' <> None ->
  load_audio i16_sample w path channel kw
  = ([], Err (Exn AssertionError
                [AStr "audioread does not support partial loading of audio files"]
                None)).
Proof.
  intros Hs Hu Hm Hp. unfold load_audio.
  rewrite (read_signal_samples _ _ _ _ _ _ _ _ _ Hs Hu).
  rewrite (decode_is_m4a _ _ _ _ _ _ _ _ _ Hm).
  unfold decode_m4a.
  assert (E : py_eq_int start' 0 && is_none stop' = false).
  { destruct Hp as [-> | Hp]; [reflexivity|].
    destruct stop'; [apply andb_false_r | congruence]. }
  rewrite E. cbn [assert]. rewrite bind_lift_err.
  now rewrite try_except_other.
Qed.

Lemma m4a_partial_loading_raises_witness :
  demo_load "song.m4a::[1:]" None default_kwargs
  = ([], Err (Exn AssertionError
                [AStr "audioread does not support partial loading of audio files"]
                None)).
Proof.
  refine (m4a_partial_loading_raises (fun z => z) demo_world
            (PStr "song.m4a::[1:]") None None default_kwargs "song.m4a"
            (PInt 1) None _ _ _ _).
  - reflexivity.
  - reflexivity.
  - reflexivity.
  - left. reflexivity.
Defined.

(** X5.  A call in samples for an [.m4a] path with a channel selection
    fails once the file is decoded: the signal is one-dimensional, and the
    assertion on its dimension raises an AssertionError that carries the
    shape and the selection. *)
Theorem m4a_with_channel_raises {A : Type} (i16_sample : Z -> A)
    (w : World A) (path : path_arg) (channel : option chansel)
    (kw : kwargs A) (s : string) (start' : pynum) (f : AudioFile)
    (c : chansel) :
  split_annotation (normalized w path) (unit_ kw) (frames kw) (start kw)
    (stop kw) channel
  = ([], Ok (PStr s, start', None, Some c)) ->
  unit_ kw = "samples" ->
  is_m4a w (PStr s) = true ->
  py_eq_int start' 0 = true ->
  audio_open w s = Ok f ->
  ar_buffers f <> [] ->
  forallb (fun buf => Nat.even (List.length buf)) (ar_buffers f) = true ->
  expected_sample_rate kw = None
  \/ expected_sample_rate kw = Some (ar_samplerate f) ->
  let samples :=
    flat_map (fun buf => map i16_sample (i2_samples buf)) (ar_buffers f) in
  load_audio i16_sample w path channel kw
  = ([EvAudioOpen s],
     Err (Exn AssertionError
            [ATuple [AShape [List.length samples]; AChan c]] None)).
Proof.
  intros Hs Hu Hm H0 Hopen Hne Heven He samples.
  unfold load_audio.
  rewrite (read_signal_samples _ _ _ _ _ _ _ _ _ Hs Hu).
  rewrite (decode_is_m4a _ _ _ _ _ _ _ _ _ Hm).
  rewrite (decode_m4a_ok i16_sample w s start' f H0 Hopen Hne Heven).
  fold samples. rewrite try_except_ok, bind_ok.
  cbn [fst snd ret]. rewrite app_nil_r, bind_ok.
  unfold deliver. rewrite (check_sample_rate_ok _ _ He), bind_ret.
  reflexivity.
Qed.

Lemma m4a_with_channel_raises_witness :
  demo_load "song.m4a" (Some (ChIndex 0)) default_kwargs
  = ([EvAudioOpen "song.m4a"],
     Err (Exn AssertionError [ATuple [AShape [3%nat]; AChan (ChIndex 0)]]
            None)).
Proof.
  refine (m4a_with_channel_raises (fun z => z) demo_world (PStr "song.m4a")
            (Some (ChIndex 0)) default_kwargs "song.m4a" (PInt 0)
            {| ar_samplerate := 4;
               ar_buffers := [[Byte.x01; Byte.x00; Byte.xff; Byte.xff];
                              [Byte.x00; Byte.x80]] |} (ChIndex 0)
            _ _ _ _ _ _ _ _).
  - reflexivity.
  - reflexivity.
  - reflexivity.
  - reflexivity.
  - reflexivity.
  - discriminate.
  - reflexivity.
  - left. reflexivity.
Defined.

(** X6.  An [.m4a] file that yields no decode buffer makes a call in
    samples fail with the ValueError of [np.concatenate] ('need at least
    one array to concatenate'), which is not rewritten into a
    RuntimeError: no empty signal is returned. *)
Theorem m4a_without_buffers_raises {A : Type} (i16_sample : Z -> A)
    (w : World A) (path : path_arg) (channel ch : option chansel)
    (kw : kwargs A) (s : string) (start' : pynum) (f : AudioFile) :
  split_annotation (normalized w path) (unit_ kw) (frames kw) (start kw)
    (stop kw) channel
  = ([], Ok (PStr s, start', None, ch)) ->
  unit_ kw = "samples" ->
  is_m4a w (PStr s) = true ->
  py_eq_int start' 0 = true ->
  audio_open w s = Ok f ->
  ar_buffers f = [] ->
  load_audio i16_sample w path channel kw
  = ([EvAudioOpen s],
     Err (Exn ValueError [AStr "need at least one array to concatenate"]
            None)).
Proof.
  intros Hs Hu Hm H0 Hopen Hempty. unfold load_audio.
  rewrite (read_signal_samples _ _ _ _ _ _ _ _ _ Hs Hu).
  rewrite (decode_is_m4a _ _ _ _ _ _ _ _ _ Hm).
  unfold decode_m4a. rewrite H0. cbn [is_none andb assert].
  rewrite bind_lift_ok. unfold emit. rewrite bind_ok.
  rewrite Hopen, bind_lift_ok, Hempty.
  cbn [decode_buffers]. rewrite bind_lift_ok.
  cbn [concatenate]. rewrite bind_lift_err. cbn [fst snd app].
  now rewrite try_except_other.
Qed.

Lemma m4a_without_buffers_raises_witness :
  load_audio (fun z => z)
    (demo_world_m4a (Ok {| ar_samplerate := 4; ar_buffers := [] |}))
    (PStr "song.m4a") None default_kwargs
  = ([EvAudioOpen "song.m4a"],
     Err (Exn ValueError [AStr "need at least one array to concatenate"]
            None)).
Proof.
  refine (m4a_without_buffers_raises (fun z => z)
            (demo_world_m4a (Ok {| ar_samplerate := 4; ar_buffers := [] |}))
            (PStr "song.m4a") None None default_kwargs "song.m4a" (PInt 0)
            {| ar_samplerate := 4; ar_buffers := [] |} _ _ _ _ _ _);
    reflexivity.
Defined.

(** ** Errors of the decoders *)

Lemma decode_soundfile_open_fails {A : Type} (w : World A) (path : path_arg)
    (start frames : pynum) (stop : option pynum) (channel : option chansel)
    (dtype : option dtype) (fill_value : option A) (e : exn) :
  SoundFile_open w path = Err e ->
  decode_soundfile w path start frames stop channel dtype fill_value
  = ([EvSoundFile path], Err e).
Proof.
  intros H. unfold decode_soundfile, open_SoundFile. rewrite H. reflexivity.
Qed.

(** X7.  In a call in samples, when the sound-file decoder cannot open a
    path given as a string and raises a RuntimeError, the content of the
    file is probed.  When the probe returns a description, the call
    fails with a new RuntimeError that has the first one as its cause
    and carries that description: 'Could not read <path>.' for the
    suffix [.wav], 'Wrong suffix <suffix> in <path>.' for any other,
    each followed by 'File format:' and '<path>: <probe>'.  When the
    probe itself fails, its error is the one the call fails with. *)
Theorem decoder_RuntimeError_is_explained {A : Type} (i16_sample : Z -> A)
    (w : World A) (path : path_arg) (channel ch : option chansel)
    (kw : kwargs A) (s : string) (start' : pynum) (stop' : option pynum)
    (e : exn) :
  split_annotation (normalized w path) (unit_ kw) (frames kw) (start kw)
    (stop kw) channel
  = ([], Ok (PStr s, start', stop', ch)) ->
  unit_ kw = "samples" ->
  is_m4a w (PStr s) = false ->
  SoundFile_open w (PStr s) = Err e ->
  is_RuntimeError (exn_cls e) = true ->
  (forall probe, magic_from_file w s = Ok probe ->
     let format :=
       nl ++ "File format:" ++ nl ++ Path_as_posix w s ++ ": " ++ probe in
     load_audio i16_sample w path channel kw
     = ([EvSoundFile (PStr s); EvMagic s],
        Err (Exn RuntimeError
               [AStr (if String.eqb (Path_suffix w s) ".wav"
                      then "Could not read " ++ s ++ "." ++ format
                      else "Wrong suffix " ++ Path_suffix w s ++ " in "
                           ++ Path_str w s ++ "." ++ format)]
               (Some e))))
  /\ (forall e', magic_from_file w s = Err e' ->
        load_audio i16_sample w path channel kw
        = ([EvSoundFile (PStr s); EvMagic s], Err e')).
Proof.
  intros Hs Hu Hm Hopen Hr.
  split.
  - intros probe Hp format. unfold load_audio.
    rewrite (read_signal_samples _ _ _ _ _ _ _ _ _ Hs Hu).
    rewrite (decode_not_m4a _ _ _ _ _ _ _ _ _ Hm).
    rewrite (decode_soundfile_open_fails _ _ _ _ _ _ _ _ _ Hopen).
    unfold try_except, on_RuntimeError. rewrite Hr.
    unfold emit. rewrite bind_ok, Hp, bind_lift_ok.
    destruct (String.eqb (Path_suffix w s) ".wav"); reflexivity.
  - intros e' Hp. unfold load_audio.
    rewrite (read_signal_samples _ _ _ _ _ _ _ _ _ Hs Hu).
    rewrite (decode_not_m4a _ _ _ _ _ _ _ _ _ Hm).
    rewrite (decode_soundfile_open_fails _ _ _ _ _ _ _ _ _ Hopen).
    unfold try_except, on_RuntimeError. rewrite Hr.
    unfold emit. rewrite bind_ok, Hp, bind_lift_err. reflexivity.
Qed.

Lemma decoder_RuntimeError_is_explained_witness :
  demo_load "broken.wav" None default_kwargs
  = ([EvSoundFile (PStr "broken.wav"); EvMagic "broken.wav"],
     Err (Exn RuntimeError
            [AStr ("Could not read broken.wav." ++ nl ++ "File format:" ++ nl
                   ++ "broken.wav: data")]
            (Some (Exn RuntimeError [AStr "Error opening broken.wav"] None)))).
Proof.
  refine (proj1 (decoder_RuntimeError_is_explained (fun z => z) demo_world
                   (PStr "broken.wav") None None default_kwargs "broken.wav"
                   (PInt 0) None
                   (Exn RuntimeError [AStr "Error opening broken.wav"] None)
                   _ _ _ _ _) "data" _);
    reflexivity.
Defined.

(** X8.  An error of the sound-file decoder that is no RuntimeError, and
    any error of it for a file descriptor or file object, comes out of a
    call in samples as it is, and the content probe is not run. *)
Theorem other_decoder_errors_pass {A : Type} (i16_sample : Z -> A)
    (w : World A) (path path' : path_arg) (channel ch : option chansel)
    (kw : kwargs A) (start' : pynum) (stop' : option pynum) (e : exn) :
  split_annotation (normalized w path) (unit_ kw) (frames kw) (start kw)
    (stop kw) channel
  = ([], Ok (path', start', stop', ch)) ->
  unit_ kw = "samples" ->
  is_m4a w path' = false ->
  SoundFile_open w path' = Err e ->
  is_RuntimeError (exn_cls e) = false \/ (exists h, path' = PFile h) ->
  load_audio i16_sample w path channel kw = ([EvSoundFile path'], Err e).
Proof.
  intros Hs Hu Hm Hopen Hc. unfold load_audio.
  rewrite (read_signal_samples _ _ _ _ _ _ _ _ _ Hs Hu).
  rewrite (decode_not_m4a _ _ _ _ _ _ _ _ _ Hm).
  rewrite (decode_soundfile_open_fails _ _ _ _ _ _ _ _ _ Hopen).
  destruct Hc as [Hc | [h ->]].
  - now rewrite try_except_other.
  - unfold try_except, on_RuntimeError.
    destruct (is_RuntimeError (exn_cls e)); reflexivity.
Qed.

Lemma other_decoder_errors_pass_witness :
  load_audio (fun z => z) demo_world (PFile 3) None default_kwargs
  = ([EvSoundFile (PFile 3)],
     Err (Exn RuntimeError [AStr "Error opening file"] None)).
Proof.
  refine (other_decoder_errors_pass (fun z => z) demo_world (PFile 3)
            (PFile 3) None None default_kwargs (PInt 0) None
            (Exn RuntimeError [AStr "Error opening file"] None) _ _ _ _ _).
  - reflexivity.
  - reflexivity.
  - reflexivity.
  - reflexivity.
  - right. exists 3%nat. reflexivity.
Defined.

(** ** The return value *)

(** X9.  [return_sample_rate] changes nothing but the return value: the
    call with it returns the signal of the call without it, paired with a
    sample rate; both calls fail alike and open and read the same. *)
Theorem return_sample_rate_only_adds_the_rate {A : Type}
    (i16_sample : Z -> A) (w : World A) (path : path_arg)
    (channel : option chansel) (kw : kwargs A) :
  (forall t sig,
     load_audio i16_sample w path channel (with_return_sample_rate false kw)
     = (t, Ok (sig, None))
     <-> exists sample_rate,
           load_audio i16_sample w path channel
             (with_return_sample_rate true kw)
           = (t, Ok (sig, Some sample_rate)))
  /\ (forall t e,
        load_audio i16_sample w path channel (with_return_sample_rate false kw)
        = (t, Err e)
        <-> load_audio i16_sample w path channel
              (with_return_sample_rate true kw)
            = (t, Err e)).
Proof.
  unfold load_audio.
  change (read_signal i16_sample w path channel (with_return_sample_rate false kw))
    with (read_signal i16_sample w path channel kw).
  change (read_signal i16_sample w path channel (with_return_sample_rate true kw))
    with (read_signal i16_sample w path channel kw).
  destruct (read_signal i16_sample w path channel kw)
    as [t1 [[[decoded sr] ch]|e1]].
  - rewrite !bind_ok. unfold deliver.
    cbn [expected_sample_rate return_sample_rate with_return_sample_rate].
    destruct (check_sample_rate (expected_sample_rate kw) sr) as [t2 [[]|e2]].
    + rewrite !bind_ok.
      destruct (select_channel (transpose decoded) ch) as [t3 [sig'|e3]].
      * rewrite !bind_ok. cbn [fst snd ret]. split.
        -- intros t sig. split.
           ++ intros [= <- <-]. eauto.
           ++ intros [sr' [= <- <- _]]. reflexivity.
        -- intros t e. split; discriminate.
      * rewrite !bind_err. cbn [fst snd]. split.
        -- intros t sig. split; [discriminate | intros [? H]; discriminate H].
        -- intros t e. tauto.
    + rewrite !bind_err. cbn [fst snd]. split.
      * intros t sig. split; [discriminate | intros [? H]; discriminate H].
      * intros t e. tauto.
  - rewrite !bind_err. split.
    + intros t sig. split; [discriminate | intros [? H]; discriminate H].
    + intros t e. tauto.
Qed.

(** ** The window of a read *)

Lemma prepare_read_window {A : Type} (f : SoundFile A) (s n : Z)
    (e : option Z) :
  n < 0 ->
  let b := slice_bound 0 (Z.of_nat (sf_frames f)) (Some s) in
  let e' := slice_bound (Z.of_nat (sf_frames f)) (Z.of_nat (sf_frames f)) e in
  exists t,
    _prepare_read f (PInt s) (opt_PInt e) (PInt n)
    = (t, Ok (b, PInt (Z.max (e' - b) 0))).
Proof.
  intros Hn b e'. unfold _prepare_read. cbn [py_ge_int].
  replace (0 <=? n) with false by (symmetry; apply Z.leb_gt; exact Hn).
  cbn [andb as_index]. rewrite bind_lift_ok.
  replace (opt_index (opt_PInt e)) with (@Ok (option Z) e)
    by (destruct e; reflexivity).
  rewrite bind_lift_ok. unfold slice_indices. fold b e'.
  cbn [py_lt_int].
  replace (n <? 0) with true by (symmetry; apply Z.ltb_lt; exact Hn).
  replace ((if e' <? b then b else e') - b) with (Z.max (e' - b) 0).
  - destruct (negb (b =? 0)); cbn; eauto.
  - destruct (e' <? b) eqn:E; [apply Z.ltb_lt in E | apply Z.ltb_ge in E]; lia.
Qed.

Lemma SoundFile_read_within {A : Type} (f : SoundFile A) (pos k : Z)
    (d : dtype) (fill_value : option A) (always_2d : bool) :
  0 <= pos <= Z.of_nat (sf_frames f) ->
  0 <= k <= Z.of_nat (sf_frames f) - pos ->
  SoundFile_read f pos (PInt k) d fill_value always_2d
  = ([EvRead k],
     Ok (mk_ndarray
           (if always_2d || (1 <? channels f)%nat
            then [Z.to_nat k; channels f] else [Z.to_nat k])
           (file_frames f d (Z.to_nat pos) (Z.to_nat k)))).
Proof.
  intros Hpos Hk. unfold SoundFile_read. cbn [py_lt_int py_gt_int].
  replace (k <? 0) with false by (symmetry; apply Z.ltb_ge; lia).
  replace (Z.of_nat (sf_frames f) - pos <? k) with false
    by (symmetry; apply Z.ltb_ge; lia).
  cbn [orb andb]. unfold emit. rewrite bind_ok. cbn [fst snd ret app].
  rewrite Nat.min_l by lia. rewrite Nat.sub_diag. cbn [Nat.mul repeat].
  destruct fill_value; now rewrite app_nil_r.
Qed.

Lemma firstn_seq' (k a n : nat) : firstn k (seq a n) = seq a (Nat.min k n).
Proof.
  revert a n. induction k as [|k IH]; intros a [|n]; cbn; try reflexivity.
  now rewrite IH.
Qed.

Lemma skipn_seq' (k a n : nat) : skipn k (seq a n) = seq (a + k) (n - k).
Proof.
  revert a n. induction k as [|k IH]; intros a [|n]; cbn;
    rewrite ?Nat.add_0_r; try reflexivity.
  rewrite IH. f_equal. lia.
Qed.

Lemma file_frames_slice {A : Type} (f : SoundFile A) (d : dtype)
    (pos k : nat) :
  (pos + k <= sf_frames f)%nat ->
  file_frames f d pos k = List.concat (firstn k (skipn pos (frames_of f d))).
Proof.
  intros H. unfold frames_of, file_frames.
  rewrite skipn_map, firstn_map, skipn_seq', firstn_seq'.
  rewrite Nat.min_l by lia. rewrite <- flat_map_concat_map.
  reflexivity.
Qed.

Lemma load_audio_window {A : Type} (i16_sample : Z -> A)
    (w : World A) (path path' : path_arg) (channel : option chansel)
    (kw : kwargs A) (s n : Z) (e : option Z) (f : SoundFile A) (d : dtype) :
  split_annotation (normalized w path) (unit_ kw) (frames kw) (start kw)
    (stop kw) channel
  = ([], Ok (path', PInt s, opt_PInt e, None)) ->
  unit_ kw = "samples" ->
  is_m4a w path' = false ->
  frames kw = PInt n -> n < 0 ->
  SoundFile_open w path' = Ok f ->
  resolve_dtype f (dtype_ kw) = Ok d ->
  expected_sample_rate kw = None
  \/ expected_sample_rate kw = Some (samplerate f) ->
  let window := py_slice (frames_of f d) (Some s) e in
  exists t,
    load_audio i16_sample w path channel kw
    = (t, Ok (transpose
                (mk_ndarray
                   (if (1 <? channels f)%nat
                    then [List.length window; channels f]
                    else [List.length window])
                   (List.concat window)),
              if return_sample_rate kw then Some (samplerate f) else None)).
Proof.
  intros Hs Hu Hm Hf Hn Hopen Hd He window.
  set (len := Z.of_nat (sf_frames f)).
  set (b := slice_bound 0 len (Some s)).
  set (e' := slice_bound len len e).
  assert (Hb : 0 <= b <= len).
  { apply (slice_bound_range 0 len (Some s)). subst len. lia. }
  assert (He' : 0 <= e' <= len).
  { apply (slice_bound_range len len e). subst len. lia. }
  assert (Hw : window
               = firstn (Z.to_nat (Z.max (e' - b) 0))
                   (skipn (Z.to_nat b) (frames_of f d))).
  { unfold window, py_slice, slice_indices.
    replace (Z.of_nat (List.length (frames_of f d))) with len
      by (unfold frames_of; now rewrite length_map, length_seq).
    fold b e'. f_equal. lia. }
  assert (Hlen : List.length window = Z.to_nat (Z.max (e' - b) 0)).
  { rewrite Hw, length_firstn, length_skipn.
    unfold frames_of. rewrite length_map, length_seq. subst len. lia. }
  unfold load_audio.
  rewrite (read_signal_samples _ _ _ _ _ _ _ _ _ Hs Hu).
  rewrite (decode_not_m4a _ _ _ _ _ _ _ _ _ Hm).
  unfold decode_soundfile.
  rewrite (open_SoundFile_ok w _ f Hopen), bind_ok, Hd, bind_lift_ok, Hf.
  destruct (prepare_read_window f s n e Hn) as [t1 ->].
  fold len b e'. rewrite bind_ok.
  rewrite (SoundFile_read_within f b (Z.max (e' - b) 0) d (fill_value kw)
             (negb (is_none None))) by (fold len; lia).
  rewrite bind_ok. cbn [fst snd ret is_none negb orb].
  rewrite file_frames_slice by (subst len; lia).
  rewrite <- Hw, <- Hlen, try_except_ok, bind_ok.
  cbn [fst snd ret]. rewrite bind_ok. unfold deliver.
  rewrite (check_sample_rate_ok _ _ He), bind_ret.
  cbn [select_channel]. rewrite bind_ret.
  destruct (return_sample_rate kw); cbn [fst snd ret]; eauto.
Qed.

(** X10.  A call in samples to the sound-file decoder with [frames] at
    [-1] and no channel selection returns, transposed, the frames
    [file[start:stop]] of the file, where [file[start:stop]] is the slice
    as Python takes it of a list (a negative bound counts from the end,
    a bound beyond an end is clipped, an empty window when stop is not
    after start); [fill_value] plays no part. *)
Theorem window_is_a_slice_of_the_file {A : Type} (i16_sample : Z -> A)
    (w : World A) (path path' : path_arg) (channel : option chansel)
    (kw : kwargs A) (s n : Z) (e : option Z) (f : SoundFile A) (d : dtype) :
  split_annotation (normalized w path) (unit_ kw) (frames kw) (start kw)
    (stop kw) channel
  = ([], Ok (path', PInt s, opt_PInt e, None)) ->
  unit_ kw = "samples" ->
  is_m4a w path' = false ->
  frames kw = PInt n -> n < 0 ->
  SoundFile_open w path' = Ok f ->
  resolve_dtype f (dtype_ kw) = Ok d ->
  expected_sample_rate kw = None
  \/ expected_sample_rate kw = Some (samplerate f) ->
  let window := py_slice (frames_of f d) (Some s) e in
  exists t,
    load_audio i16_sample w path channel kw
    = (t, Ok (transpose
                (mk_ndarray
                   (if (1 <? channels f)%nat
                    then [List.length window; channels f]
                    else [List.length window])
                   (List.concat window)),
              if return_sample_rate kw then Some (samplerate f) else None)).
Proof. exact (load_audio_window i16_sample w path path' channel kw s n e f d). Qed.

Lemma window_is_a_slice_of_the_file_witness :
  exists t,
    demo_load "speech.wav" None
      (with_start (PInt (-3)) (with_stop (Some (PInt 100)) default_kwargs))
    = (t, Ok (transpose
                (mk_ndarray [3%nat] (List.concat [[50]; [60]; [70]])),
              None)).
Proof.
  exact (window_is_a_slice_of_the_file (fun z => z) demo_world
           (PStr "speech.wav") (PStr "speech.wav") None
           (with_start (PInt (-3)) (with_stop (Some (PInt 100)) default_kwargs))
           (-3) (-1) (Some 100) (demo_file 8 1 4) Float64
           eq_refl eq_refl eq_refl eq_refl eq_refl eq_refl eq_refl
           (or_introl eq_refl)).
Defined.

(** ** The annotation and the explicit parameters *)

Lemma opt_int_valid (o : option string) :
  valid_field o = true -> opt_int o = Ok (field_value o).
Proof.
  destruct o as [ds|]; [|reflexivity]. cbn. intros H.
  unfold py_int. now rewrite H.
Qed.

Lemma parse_groups_annotation (a : annotation) :
  valid_annotation a = true ->
  parse_groups (show_annotation a)
  = Ok (field_value (a_start a), field_value (a_stop a),
        match a_channel a with Range lo _ => field_value lo | _ => None end,
        match a_channel a with Range _ hi => field_value hi | _ => None end,
        match a_channel a with BareIndex i => field_value i | _ => None end).
Proof.
  intros Hv. unfold parse_groups. rewrite (fullmatch_annotation a Hv).
  unfold final_groups. destruct a as [s1 s2 c]. unfold valid_annotation in Hv.
  cbn [a_start a_stop a_channel] in *.
  apply andb_prop in Hv. destruct Hv as [Hv Hc].
  apply andb_prop in Hv. destruct Hv as [H1 H2].
  rewrite (opt_int_valid s1 H1), (opt_int_valid s2 H2). cbn [rbind].
  destruct c as [|i|lo hi].
  - reflexivity.
  - now rewrite (opt_int_valid i Hc).
  - apply andb_prop in Hc. destruct Hc as [Hlo Hhi].
    now rewrite (opt_int_valid lo Hlo), (opt_int_valid hi Hhi).
Qed.

Lemma split_annotation_of_annotation (p : string) (a : annotation)
    (unit : string) (frames start : pynum) :
  valid_annotation a = true ->
  unit = "samples" -> py_eq_int frames (-1) = true ->
  py_eq_int start 0 = true ->
  split_annotation (PStr (p ++ "::" ++ show_annotation a)) unit frames start
    None None
  = ([], Ok (PStr p, PInt (encoded_start a), opt_PInt (encoded_stop a),
             encoded_channel a)).
Proof.
  intros Hv -> Hf Hs.
  assert (Hsplit : rsplit1 "::" (p ++ "::" ++ show_annotation a)
                   = Some (p, show_annotation a)).
  { apply rsplit1_annotated; [now apply annotation_no_separator|].
    destruct a as [s1 s2 c]. reflexivity. }
  unfold split_annotation.
  rewrite (rsplit1_some_in _ _ _ _ Hsplit), Hf.
  change (String.eqb "samples" "samples") with true.
  cbn [assert]. rewrite !bind_lift_ok.
  unfold _parse_audio_slice. rewrite Hs, Hsplit.
  cbn [is_none assert rbind].
  rewrite (annotation_no_space a Hv). cbn [negb assert rbind].
  rewrite (parse_groups_annotation a Hv).
  unfold encoded_start, encoded_stop, encoded_channel, opt_PInt.
  destruct a as [s1 s2 [|[i|]|[lo|] [hi|]]]; cbn [a_start a_stop a_channel];
    destruct (field_value s1); reflexivity.
Qed.

(** X11.  Writing the window and the channel into the path is the same
    as passing them: for a path [p] without [::], a call for
    [p::annotation] with the explicit parameters at their defaults opens,
    reads, returns and fails exactly as the call for [p] with the start,
    the stop and the channel selection that the annotation encodes. *)
Theorem annotation_is_the_explicit_call {A : Type} (i16_sample : Z -> A)
    (w : World A) (s1 s2 p : string) (a : annotation) (kw : kwargs A) :
  normalize_path w s1 = p ++ "::" ++ show_annotation a ->
  normalize_path w s2 = p ->
  str_in "::" p = false ->
  valid_annotation a = true ->
  unit_ kw = "samples" -> py_eq_int (frames kw) (-1) = true ->
  py_eq_int (start kw) 0 = true -> stop kw = None ->
  load_audio i16_sample w (PStr s1) None kw
  = load_audio i16_sample w (PStr s2) (encoded_channel a)
      (with_stop (opt_PInt (encoded_stop a))
         (with_start (PInt (encoded_start a)) kw)).
Proof.
  intros H1 H2 Hp Hv Hu Hf Hs Hst.
  unfold load_audio. f_equal.
  unfold read_signal, normalized.
  cbn [unit_ frames start stop dtype_ fill_value with_stop with_start].
  rewrite H1, H2, Hst.
  rewrite (split_annotation_of_annotation p a _ _ _ Hv Hu Hf Hs).
  rewrite (split_annotation_plain (PStr p) _ _ _ _ _ Hp).
  reflexivity.
Qed.

Lemma annotation_is_the_explicit_call_witness :
  demo_load "observation.wav::[1:4,2:]" None default_kwargs
  = demo_load "observation.wav" (Some (ChSlice (Some 2) None))
      (with_stop (Some (PInt 4)) (with_start (PInt 1) default_kwargs)).
Proof.
  exact (annotation_is_the_explicit_call (fun z => z) demo_world
           "observation.wav::[1:4,2:]" "observation.wav" "observation.wav"
           {| a_start := Some "1"; a_stop := Some "4";
              a_channel := Range (Some "2") None |}
           default_kwargs eq_refl eq_refl eq_refl eq_refl eq_refl eq_refl
           eq_refl eq_refl).
Defined.

(** ** More on nested structures *)

Lemma recursive_load_audio_seq {A : Type} (i16_sample : Z -> A)
    (w : World A) (kw : kwargs A) (l : list paths) :
  recursive_load_audio i16_sample w kw (PSeq l)
  = bind (map_M (recursive_load_audio i16_sample w kw) l) (fun results =>
    match np_array results with
    | Some np_data => ret (LArr np_data)
    | None => ret (LList results)
    end).
Proof.
  cbn [recursive_load_audio]. f_equal.
  induction l as [|a l IH]; [reflexivity|].
  cbn [map_M]. apply bind_ext. intros x. now rewrite IH.
Qed.

Lemma recursive_load_audio_dict {A : Type} (i16_sample : Z -> A)
    (w : World A) (kw : kwargs A) (d : list (string * paths)) :
  recursive_load_audio i16_sample w kw (PDict d)
  = bind (map_M (fun kv =>
                   bind (recursive_load_audio i16_sample w kw (snd kv))
                     (fun x => ret (fst kv, x))) d)
      (fun kvs => ret (LDict kvs)).
Proof.
  cbn [recursive_load_audio]. f_equal.
  induction d as [|[k v] d IH]; [reflexivity|].
  cbn [map_M fst snd]. rewrite bind_assoc. apply bind_ext. intros x.
  rewrite bind_ret. now rewrite IH.
Qed.

Lemma map_M_stops {X Y : Type} (g : X -> M Y) (l1 l2 : list X) (x : X)
    (t1 t2 : list event) (ys : list Y) (e : exn) :
  map_M g l1 = (t1, Ok ys) -> g x = (t2, Err e) ->
  map_M g (l1 ++ x :: l2) = ((t1 ++ t2)%list, Err e).
Proof.
  revert t1 ys. induction l1 as [|a l1 IH]; intros t1 ys H Hx.
  - injection H as <- _. cbn [app map_M]. now rewrite Hx.
  - cbn [app map_M] in *. apply bind_inv_ok in H.
    destruct H as (ta & y & tb & Ha & H & ->).
    apply bind_inv_ok in H. destruct H as (tc & ys' & td & Hl & H & ->).
    injection H as <- _.
    rewrite Ha, bind_ok, (IH tc ys' Hl Hx). cbn [bind fst snd].
    now rewrite app_nil_r, app_assoc.
Qed.

(** X12.  The first entry of a sequence, or value of a dict, that fails
    ends the whole call with its error: the entries before it have been
    loaded, the entries after it are not touched, whatever they are. *)
Theorem first_failure_ends_the_call {A : Type} (i16_sample : Z -> A)
    (w : World A) (kw : kwargs A) :
  (forall l1 x l2 t1 t2 results e,
     map_M (recursive_load_audio i16_sample w kw) l1 = (t1, Ok results) ->
     recursive_load_audio i16_sample w kw x = (t2, Err e) ->
     recursive_load_audio i16_sample w kw (PSeq (l1 ++ x :: l2))
     = ((t1 ++ t2)%list, Err e))
  /\ (forall d1 k x d2 t1 t2 results e,
        map_M (fun kv =>
                 bind (recursive_load_audio i16_sample w kw (snd kv))
                   (fun y => ret (fst kv, y))) d1
        = (t1, Ok results) ->
        recursive_load_audio i16_sample w kw x = (t2, Err e) ->
        recursive_load_audio i16_sample w kw (PDict (d1 ++ (k, x) :: d2))
        = ((t1 ++ t2)%list, Err e)).
Proof.
  split.
  - intros l1 x l2 t1 t2 results e H1 Hx.
    rewrite recursive_load_audio_seq.
    now rewrite (map_M_stops _ l1 l2 x t1 t2 results e H1 Hx).
  - intros d1 k x d2 t1 t2 results e H1 Hx.
    rewrite recursive_load_audio_dict.
    rewrite (map_M_stops _ d1 d2 (k, x) t1 t2 results e H1);
      [reflexivity|].
    cbn [fst snd]. now rewrite Hx.
Qed.

Lemma first_failure_ends_the_call_witness :
  recursive_load_audio (fun z => z) demo_world default_kwargs
    (PSeq ([Leaf (PStr "speech.wav")]
           ++ Leaf (PStr "speech.wav::[9]") :: [Leaf (PStr "observation.wav")]))
  = (([EvSoundFile (PStr "speech.wav"); EvRead 8] ++ [])%list,
     Err (Exn ValueError [AStr "speech.wav::[9]"]
            (Some (Exn AttributeError
                     [AStr "'NoneType' object has no attribute 'groups'"]
                     None)))).
Proof.
  refine (proj1 (first_failure_ends_the_call (fun z => z) demo_world
                   default_kwargs)
            [Leaf (PStr "speech.wav")] (Leaf (PStr "speech.wav::[9]"))
            [Leaf (PStr "observation.wav")] _ _ _ _ _ _);
    reflexivity.
Defined.

Lemma map_M_repeat {X Y : Type} (g : X -> M Y) (x : X) (t : list event)
    (y : Y) (n : nat) :
  g x = (t, Ok y) ->
  map_M g (repeat x n) = (List.concat (repeat t n), Ok (repeat y n)).
Proof.
  intros H. induction n as [|n IH]; [reflexivity|].
  cbn [repeat map_M List.concat]. rewrite H, bind_ok, IH.
  cbn [bind ret fst snd]. now rewrite app_nil_r.
Qed.

Lemma stack_data_repeat {A : Type} (a : ndarray A) (n : nat) :
  stack_data (shape a) (repeat (LArr a) n)
  = Some (List.concat (repeat (data a) n)).
Proof.
  induction n as [|n IH]; [reflexivity|].
  cbn [repeat stack_data List.concat].
  rewrite (proj2 (shape_eqb_eq (shape a) (shape a)) eq_refl). now rewrite IH.
Qed.

(** X13.  A sequence that names one path [n] times decodes it [n] times,
    one time after the other, and stacks the [n] equal signals: the array
    has the shape [(n,) + signal.shape] and holds the signal [n] times. *)
Theorem repeated_path_is_decoded_each_time {A : Type} (i16_sample : Z -> A)
    (w : World A) (kw : kwargs A) (p : path_arg) (t : list event)
    (sig : ndarray A) (n : nat) :
  load_audio i16_sample w p None kw = (t, Ok (sig, None)) ->
  (0 < n)%nat ->
  recursive_load_audio i16_sample w kw (PSeq (repeat (Leaf p) n))
  = (List.concat (repeat t n),
     Ok (LArr (mk_ndarray (n :: shape sig)
                 (List.concat (repeat (data sig) n))))).
Proof.
  intros H Hn. rewrite recursive_load_audio_seq.
  assert (Hleaf : recursive_load_audio i16_sample w kw (Leaf p)
                  = (t, Ok (LArr sig))).
  { cbn [recursive_load_audio]. unfold load_leaf. rewrite H, bind_ok.
    cbn. now rewrite app_nil_r. }
  rewrite (map_M_repeat _ (Leaf p) t (LArr sig) n Hleaf), bind_ok.
  destruct n as [|n]; [lia|].
  cbn [repeat np_array].
  change (LArr sig :: repeat (LArr sig) n) with (repeat (LArr sig) (S n)).
  rewrite stack_data_repeat, repeat_length.
  cbn [fst snd ret]. now rewrite app_nil_r.
Qed.

Lemma repeated_path_is_decoded_each_time_witness :
  recursive_load_audio (fun z => z) demo_world default_kwargs
    (PSeq (repeat (Leaf (PStr "speech.wav")) 2))
  = (List.concat (repeat [EvSoundFile (PStr "speech.wav"); EvRead 8] 2),
     Ok (LArr (mk_ndarray (2%nat :: [8%nat])
                 (List.concat (repeat [0; 10; 20; 30; 40; 50; 60; 70] 2))))).
Proof.
  refine (repeated_path_is_decoded_each_time (fun z => z) demo_world
            default_kwargs (PStr "speech.wav")
            [EvSoundFile (PStr "speech.wav"); EvRead 8]
            (mk_ndarray [8%nat] [0; 10; 20; 30; 40; 50; 60; 70]) 2 _ _).
  - reflexivity.
  - lia.
Defined.

Lemma load_audio_rate {A : Type} (i16_sample : Z -> A) (w : World A)
    (p : path_arg) (channel : option chansel) (kw : kwargs A)
    (t : list event) (sig : ndarray A) (rate : option Z) :
  load_audio i16_sample w p channel kw = (t, Ok (sig, rate)) ->
  return_sample_rate kw = true -> exists sample_rate, rate = Some sample_rate.
Proof.
  unfold load_audio. intros H Hr.
  apply bind_inv_ok in H. destruct H as (t1 & [[dec sr] ch] & t2 & _ & H & _).
  unfold deliver in H. rewrite Hr in H.
  apply bind_inv_ok in H. destruct H as (t3 & [] & t4 & _ & H & _).
  apply bind_inv_ok in H. destruct H as (t5 & sig' & t6 & _ & H & _).
  injection H as _ _ <-. eauto.
Qed.

(** X14.  With [return_sample_rate=True] a sequence that begins with a
    path is never stacked: every path gives a pair of signal and sample
    rate, and the call returns the list of the results. *)
Theorem sample_rates_prevent_stacking {A : Type} (i16_sample : Z -> A)
    (w : World A) (kw : kwargs A) (p : path_arg) (l : list paths)
    (t : list event) (r : loaded A) :
  return_sample_rate kw = true ->
  recursive_load_audio i16_sample w kw (PSeq (Leaf p :: l)) = (t, Ok r) ->
  exists sig sample_rate rest, r = LList (LPair sig sample_rate :: rest).
Proof.
  intros Hr H. rewrite recursive_load_audio_seq in H.
  apply bind_inv_ok in H. destruct H as (t1 & results & t2 & Hm & H & _).
  cbn [map_M] in Hm.
  apply bind_inv_ok in Hm. destruct Hm as (t3 & x & t4 & Hx & Hm & _).
  apply bind_inv_ok in Hm. destruct Hm as (t5 & xs & t6 & _ & Hm & _).
  injection Hm as _ <-.
  cbn [recursive_load_audio] in Hx. unfold load_leaf in Hx.
  apply bind_inv_ok in Hx. destruct Hx as (t7 & [sig rate] & t8 & Hl & Hx & _).
  destruct (load_audio_rate _ _ _ _ _ _ _ _ Hl Hr) as [sr ->].
  injection Hx as _ <-. cbn [np_array] in H. injection H as _ <-.
  eauto.
Qed.

Lemma sample_rates_prevent_stacking_witness :
  exists sig sample_rate rest,
    LList [LPair (mk_ndarray [8%nat] [0; 10; 20; 30; 40; 50; 60; 70]) 4;
           LPair (mk_ndarray [8%nat] [0; 10; 20; 30; 40; 50; 60; 70]) 4]
    = LList (LPair sig sample_rate :: rest).
Proof.
  exact (sample_rates_prevent_stacking (fun z => z) demo_world
           (with_return_sample_rate true default_kwargs) (PStr "speech.wav")
           [Leaf (PStr "speech.wav")]
           [EvSoundFile (PStr "speech.wav"); EvRead 8;
            EvSoundFile (PStr "speech.wav"); EvRead 8]
           (LList
              [LPair (mk_ndarray [8%nat] [0; 10; 20; 30; 40; 50; 60; 70]) 4;
               LPair (mk_ndarray [8%nat] [0; 10; 20; 30; 40; 50; 60; 70]) 4])
           eq_refl eq_refl).
Defined.

(** ** What the parser accepts *)

Lemma orelse_inv {X} (a : option X) (b : unit -> option X) (x : X) :
  orelse a b = Some x -> a = Some x \/ (a = None /\ b tt = Some x).
Proof. destruct a; cbn; [intros [= ->]; auto | auto]. Qed.

Lemma digits_bt_inv {X} (s : string) (k : string -> option X) (x : X) :
  digits_bt s k = Some x ->
  exists ds rest, s = ds ++ rest /\ digit_string ds = true /\ k rest = Some x.
Proof.
  induction s as [|c s IH]; cbn [digits_bt]; [discriminate|].
  destruct (is_digit c) eqn:Ec; [|discriminate].
  intros H. apply orelse_inv in H. destruct H as [H | [_ H]].
  - destruct (IH H) as (ds & rest & -> & Hd & Hk).
    exists (String c ds), rest. repeat split; [|exact Hk].
    cbn [digit_string all_digits]. rewrite Ec.
    now rewrite (digit_string_all ds Hd).
  - exists (String c EmptyString), s. repeat split; [|exact H].
    cbn. now rewrite Ec.
Qed.

Lemma rmatch_opt_field_inv {X} (i : nat) (s : string) (g : groups)
    (k : string -> groups -> option X) (x : X) :
  rmatch (Opt (Grp i Digits)) s g k = Some x ->
  exists o rest,
    valid_field o = true /\ s = show_field o ++ rest
    /\ k rest (put_field i o g) = Some x.
Proof.
  rewrite rmatch_opt, rmatch_grp_digits. intros H.
  apply orelse_inv in H. destruct H as [H | [_ H]].
  - apply digits_bt_inv in H. destruct H as (ds & rest & -> & Hd & Hk).
    rewrite substring_append in Hk.
    exists (Some ds), rest. auto.
  - exists None, s. auto.
Qed.

Lemma rmatch_lit_inv {X} (c : ascii) (s : string) (g : groups)
    (k : string -> groups -> option X) (x : X) :
  rmatch (Lit c) s g k = Some x ->
  exists rest, s = String c rest /\ k rest g = Some x.
Proof.
  cbn [rmatch]. destruct s as [|c' s]; [discriminate|].
  destruct (Ascii.eqb_spec c c') as [<-|]; [eauto | discriminate].
Qed.

Lemma append_assoc (a b c : string) : (a ++ b) ++ c = a ++ b ++ c.
Proof. induction a as [|x a IH]; cbn; [reflexivity | now rewrite IH]. Qed.

(** Only the annotations of the grammar match the pattern. *)
Lemma fullmatch_inv (s : string) (g : groups) :
  fullmatch 5 _PATTERN s = Some g ->
  exists a, valid_annotation a = true /\ s = show_annotation a
            /\ g = final_groups a.
Proof.
  unfold fullmatch, _PATTERN. rewrite rmatch_cat. intros H.
  apply rmatch_lit_inv in H. destruct H as (r1 & -> & H).
  rewrite rmatch_cat in H. apply rmatch_opt_field_inv in H.
  destruct H as (o1 & r2 & H1 & -> & H).
  rewrite rmatch_cat in H. apply rmatch_lit_inv in H.
  destruct H as (r3 & -> & H).
  rewrite rmatch_cat in H. apply rmatch_opt_field_inv in H.
  destruct H as (o2 & r4 & H2 & -> & H).
  rewrite rmatch_cat, rmatch_opt in H.
  apply orelse_inv in H. destruct H as [H | [_ H]].
  - rewrite rmatch_cat in H. apply rmatch_lit_inv in H.
    destruct H as (r5 & -> & H).
    rewrite rmatch_alt in H. apply orelse_inv in H.
    destruct H as [H | [_ H]].
    + rewrite rmatch_cat in H. apply rmatch_opt_field_inv in H.
      destruct H as (lo & r6 & Hlo & -> & H).
      rewrite rmatch_cat in H. apply rmatch_lit_inv in H.
      destruct H as (r7 & -> & H).
      apply rmatch_opt_field_inv in H.
      destruct H as (hi & r8 & Hhi & -> & H).
      apply rmatch_lit_inv in H. destruct H as (r9 & -> & H).
      destruct r9; [|discriminate]. injection H as <-.
      exists {| a_start := o1; a_stop := o2; a_channel := Range lo hi |}.
      unfold valid_annotation, show_annotation, final_groups.
      cbn [a_start a_stop a_channel show_channel].
      rewrite H1, H2, Hlo, Hhi. split; [reflexivity|]. split.
      * change ("," ++ show_field lo ++ ":" ++ show_field hi)
          with (String "," (show_field lo ++ ":" ++ show_field hi)).
        cbn [append]. do 4 f_equal.
        change (String ":" (show_field hi ++ "]"))
          with (":" ++ show_field hi ++ "]").
        now rewrite !append_assoc.
      * destruct o1, o2, lo, hi; reflexivity.
    + apply rmatch_opt_field_inv in H.
      destruct H as (i & r6 & Hi & -> & H).
      apply rmatch_lit_inv in H. destruct H as (r9 & -> & H).
      destruct r9; [|discriminate]. injection H as <-.
      exists {| a_start := o1; a_stop := o2; a_channel := BareIndex i |}.
      unfold valid_annotation, show_annotation, final_groups.
      cbn [a_start a_stop a_channel show_channel].
      rewrite H1, H2, Hi. split; [reflexivity|]. split.
      * change ("," ++ show_field i) with (String "," (show_field i)).
        reflexivity.
      * destruct o1, o2, i; reflexivity.
  - apply rmatch_lit_inv in H. destruct H as (r9 & -> & H).
    destruct r9; [|discriminate]. injection H as <-.
    exists {| a_start := o1; a_stop := o2; a_channel := NoChannel |}.
    unfold valid_annotation, show_annotation, final_groups.
    cbn [a_start a_stop a_channel show_channel].
    rewrite H1, H2. split; [reflexivity|]. split.
    + reflexivity.
    + destruct o1, o2; reflexivity.
Qed.

Lemma startswith_drop (p s : string) :
  startswith p s = true -> s = p ++ drop (String.length p) s.
Proof.
  revert s. induction p as [|a p IH]; intros s; [reflexivity|].
  destruct s as [|b s]; cbn [startswith]; [discriminate|].
  intros H. apply andb_prop in H. destruct H as [Hab Hp].
  apply Ascii.eqb_eq in Hab. subst b. cbn. f_equal. now apply IH.
Qed.

Lemma rsplit1_spec (sep s a b : string) :
  rsplit1 sep s = Some (a, b) -> s = a ++ sep ++ b.
Proof.
  revert a. induction s as [|c s IH]; intros a; [discriminate|].
  cbn [rsplit1]. destruct (rsplit1 sep s) as [[a' b']|].
  - intros [= <- <-]. cbn. f_equal. now apply IH.
  - destruct (startswith sep (String c s)) eqn:E; [|discriminate].
    intros [= <- <-]. now apply startswith_drop.
Qed.

Lemma digits_value_nonneg (s : string) (acc : Z) :
  all_digits s = true -> 0 <= acc -> 0 <= digits_value acc s.
Proof.
  revert acc. induction s as [|c s IH]; intros acc H Hacc; [exact Hacc|].
  cbn [all_digits digits_value] in *. apply andb_prop in H.
  destruct H as [Hc Hs]. apply IH; [exact Hs|].
  unfold is_digit in Hc. apply andb_prop in Hc. destruct Hc as [Hc _].
  apply Nat.leb_le in Hc. lia.
Qed.

Lemma field_value_nonneg (o : option string) (z : Z) :
  valid_field o = true -> field_value o = Some z -> 0 <= z.
Proof.
  destruct o as [ds|]; [|discriminate]. cbn. intros H [= <-].
  apply digits_value_nonneg; [now apply digit_string_all | lia].
Qed.

(** X15.  For a path whose annotation is an ASCII text,
    [_parse_audio_slice] returns a result only when the path ends in
    [::] and an annotation of the grammar, and the result is then the
    path before that [::] and the bounds the annotation encodes; a start,
    a stop or a channel bound it returns is never negative. *)
Theorem parse_audio_slice_accepts_only_the_grammar (path p : string)
    (start0 start : pynum) (stop0 stop : option pynum)
    (channel0 channel : option chansel) :
  ascii_annotation path = true ->
  _parse_audio_slice path start0 stop0 channel0
  = Ok (p, start, stop, channel) ->
  exists a,
    valid_annotation a = true
    /\ path = p ++ "::" ++ show_annotation a
    /\ start = PInt (encoded_start a)
    /\ stop = opt_PInt (encoded_stop a)
    /\ channel = encoded_channel a
    /\ 0 <= encoded_start a
    /\ (forall z, encoded_stop a = Some z -> 0 <= z)
    /\ match channel with
       | Some (ChIndex i) => 0 <= i
       | Some (ChSlice lo hi) =>
           (forall z, lo = Some z -> 0 <= z)
           /\ (forall z, hi = Some z -> 0 <= z)
       | _ => True
       end.
Proof.
  unfold _parse_audio_slice. intros _ H.
  destruct (py_eq_int start0 0); [|discriminate].
  destruct stop0; [discriminate|]. destruct channel0; [discriminate|].
  cbn [is_none assert rbind] in H.
  destruct (rsplit1 "::" path) as [[p' audio_slice]|] eqn:Hsplit;
    [|discriminate].
  destruct (str_in " " audio_slice); [discriminate|].
  cbn [negb assert rbind] in H.
  destruct (parse_groups audio_slice) as [[[[[g1 g2] g3] g4] g5]|e] eqn:Hg;
    [|discriminate].
  assert (Hm : exists g, fullmatch 5 _PATTERN audio_slice = Some g).
  { unfold parse_groups in Hg.
    destruct (fullmatch 5 _PATTERN audio_slice); [eauto | discriminate]. }
  destruct Hm as [g Hm]. apply fullmatch_inv in Hm.
  destruct Hm as (a & Hv & -> & _).
  rewrite (parse_groups_annotation a Hv) in Hg.
  injection Hg as <- <- <- <- <-. injection H as <- <- <- <-.
  exists a. apply rsplit1_spec in Hsplit.
  destruct a as [s1 s2 c]. unfold valid_annotation in Hv.
  unfold encoded_start, encoded_stop, encoded_channel, opt_PInt.
  cbn [a_start a_stop a_channel] in *.
  apply andb_prop in Hv. destruct Hv as [Hv Hc].
  apply andb_prop in Hv. destruct Hv as [H1 H2].
  split; [unfold valid_annotation; cbn; now rewrite H1, H2, Hc|].
  split; [exact Hsplit|].
  split; [reflexivity|]. split; [reflexivity|].
  split; [destruct c as [|[i|]|[lo|] [hi|]]; reflexivity|].
  split.
  { destruct (field_value s1) as [z|] eqn:E; [|lia].
    now apply (field_value_nonneg s1). }
  split; [intros z; now apply field_value_nonneg|].
  destruct c as [|[i|]|lo hi]; try exact I.
  - cbn in Hc. cbn.
    apply digits_value_nonneg; [now apply digit_string_all | lia].
  - apply andb_prop in Hc. destruct Hc as [Hlo Hhi].
    destruct lo as [lo|], hi as [hi|]; cbn [field_value option_map];
      try exact I;
      (split; intros z [= <-];
       (apply digits_value_nonneg; [now apply digit_string_all | lia])).
Qed.

Lemma parse_audio_slice_accepts_only_the_grammar_witness :
  exists a,
    valid_annotation a = true
    /\ "f.wav::[8000:16000,0]" = "f.wav" ++ "::" ++ show_annotation a
    /\ PInt 8000 = PInt (encoded_start a)
    /\ Some (PInt 16000) = opt_PInt (encoded_stop a)
    /\ Some (ChIndex 0) = encoded_channel a
    /\ 0 <= encoded_start a
    /\ (forall z, encoded_stop a = Some z -> 0 <= z)
    /\ 0 <= 0.
Proof.
  exact (parse_audio_slice_accepts_only_the_grammar "f.wav::[8000:16000,0]"
           "f.wav" (PInt 0) (PInt 8000) None (Some (PInt 16000)) None
           (Some (ChIndex 0)) eq_refl eq_refl).
Defined.

(** ** The metadata readers and the loader *)

Lemma py_slice_all {X : Type} (l : list X) : py_slice l (Some 0) None = l.
Proof.
  unfold py_slice, slice_indices, slice_bound.
  cbn [Z.ltb Z.compare].
  rewrite Z.min_l by lia. rewrite Z.sub_0_r, Nat2Z.id.
  cbn [Z.to_nat skipn]. apply firstn_all.
Qed.

Lemma length_frames_of {A : Type} (f : SoundFile A) (d : dtype) :
  List.length (frames_of f d) = sf_frames f.
Proof. unfold frames_of. now rewrite length_map, length_seq. Qed.

(** The call [load_audio(path)] with every parameter at its default, on
    a plain path that the sound-file decoder opens. *)
Lemma load_audio_defaults {A : Type} (i16_sample : Z -> A) (w : World A)
    (p : string) (f : SoundFile A) :
  normalize_path w p = p ->
  annotated (PStr p) = false ->
  is_m4a w (PStr p) = false ->
  SoundFile_open w (PStr p) = Ok f ->
  exists t,
    load_audio i16_sample w (PStr p) None default_kwargs
    = (t, Ok (transpose
                (mk_ndarray
                   (if (1 <? channels f)%nat
                    then [sf_frames f; channels f]
                    else [sf_frames f])
                   (List.concat (frames_of f Float64))),
              None)).
Proof.
  intros Hn Ha Hm Ho.
  destruct (load_audio_window i16_sample w (PStr p) (PStr p) None
              default_kwargs 0 (-1) None f Float64) as [t Ht].
  - cbn [normalized]. rewrite Hn. now apply split_annotation_plain.
  - reflexivity.
  - exact Hm.
  - reflexivity.
  - lia.
  - exact Ho.
  - reflexivity.
  - now left.
  - exists t. rewrite Ht. rewrite py_slice_all, length_frames_of.
    reflexivity.
Qed.

(** X16.  For a plain, normalised path that the sound-file decoder opens
    with at least one channel, [audio_shape(path)] is the shape of what
    [load_audio(path)] returns with its defaults: the number of frames
    alone for one channel, channels and frames otherwise.  It opens the
    file once and reads nothing. *)
Theorem audio_shape_is_the_shape_loaded {A : Type} (i16_sample : Z -> A)
    (w : World A) (p : string) (f : SoundFile A) :
  normalize_path w p = p ->
  annotated (PStr p) = false ->
  is_m4a w (PStr p) = false ->
  SoundFile_open w (PStr p) = Ok f ->
  (0 < channels f)%nat ->
  exists v t signal,
    audio_shape w p = ([EvSoundFile (PStr p)], Ok v)
    /\ load_audio i16_sample w (PStr p) None default_kwargs
       = (t, Ok (signal, None))
    /\ shape signal = match v with
                      | Length n => [n]
                      | ChannelsLength c n => [c; n]
                      end.
Proof.
  intros Hn Ha Hm Ho Hc.
  destruct (load_audio_defaults i16_sample w p f Hn Ha Hm Ho) as [t Ht].
  unfold audio_shape.
  rewrite (open_SoundFile_ok w _ f Ho), bind_ok. cbn [fst snd].
  destruct (Nat.eqb_spec (channels f) 1) as [E|E].
  - eexists _, t, _. split; [reflexivity|]. split; [exact Ht|].
    rewrite E. reflexivity.
  - eexists _, t, _. split; [reflexivity|]. split; [exact Ht|].
    destruct (Nat.ltb_spec 1 (channels f)) as [L|L]; [|lia].
    reflexivity.
Qed.

Lemma audio_shape_is_the_shape_loaded_witness :
  exists v t signal,
    audio_shape demo_world "observation.wav"
    = ([EvSoundFile (PStr "observation.wav")], Ok v)
    /\ demo_load "observation.wav" None default_kwargs
       = (t, Ok (signal, None))
    /\ shape signal = match v with
                      | Length n => [n]
                      | ChannelsLength c n => [c; n]
                      end.
Proof.
  refine (audio_shape_is_the_shape_loaded (fun z => z) demo_world
            "observation.wav" (demo_file 5 6 4) _ _ _ _ _).
  - reflexivity.
  - reflexivity.
  - reflexivity.
  - reflexivity.
  - cbn. lia.
Defined.

Lemma length_concat_frames_of {A : Type} (f : SoundFile A) (d : dtype) :
  List.length (List.concat (frames_of f d)) = (sf_frames f * channels f)%nat.
Proof.
  unfold frames_of.
  assert (H : forall l : list nat,
             List.length
               (List.concat
                  (map (fun i => map (sf_sample f d i) (seq 0 (channels f))) l))
             = (List.length l * channels f)%nat).
  { induction l as [|i l IH]; [reflexivity|].
    cbn [map List.concat List.length]. rewrite length_app, IH.
    now rewrite length_map, length_seq. }
  now rewrite H, length_seq.
Qed.

(** X17.  [audio_length(path)] counts frames, not values: for a plain,
    normalised path that the sound-file decoder opens, whatever the
    number of channels, it is the length of the last axis of what
    [load_audio(path)] returns with its defaults, and with
    [audio_channels(path)] it accounts for every value of that result. *)
Theorem audio_length_is_the_sample_axis {A : Type} (i16_sample : Z -> A)
    (w : World A) (p : string) (f : SoundFile A) :
  normalize_path w p = p ->
  annotated (PStr p) = false ->
  is_m4a w (PStr p) = false ->
  SoundFile_open w (PStr p) = Ok f ->
  exists t signal c,
    load_audio i16_sample w (PStr p) None default_kwargs
    = (t, Ok (signal, None))
    /\ audio_length w p "samples"
       = ([EvSoundFile (PStr p)], Ok (Samples (Z.of_nat (sample_axis signal))))
    /\ audio_channels w p = ([EvSoundFile (PStr p)], Ok c)
    /\ List.length (data signal) = (c * sample_axis signal)%nat.
Proof.
  intros Hn Ha Hm Ho.
  destruct (load_audio_defaults i16_sample w p f Hn Ha Hm Ho) as [t Ht].
  eexists t, _, (channels f). split; [exact Ht|].
  unfold audio_length, audio_channels. cbn [String.eqb Ascii.eqb].
  rewrite (open_SoundFile_ok w _ f Ho), !bind_ok. cbn [fst snd ret].
  pose proof (length_concat_frames_of f Float64) as Hl.
  destruct (Nat.ltb_spec 1 (channels f)) as [L|L].
  - destruct (transpose_spec
                (mk_ndarray [sf_frames f; channels f]
                   (List.concat (frames_of f Float64)))
                (sf_frames f) (channels f) eq_refl Hl) as (Hs & Hd & _).
    unfold sample_axis. rewrite Hs, Hd. cbn [last].
    repeat split; reflexivity.
  - rewrite (transpose_1d _ (sf_frames f)) by reflexivity.
    unfold sample_axis. cbn [shape data last]. rewrite Hl.
    repeat split; try reflexivity.
    destruct (channels f) as [|[|c]]; [lia|lia|lia].
Qed.

Lemma audio_length_is_the_sample_axis_witness :
  exists t signal c,
    demo_load "observation.wav" None default_kwargs
    = (t, Ok (signal, None))
    /\ audio_length demo_world "observation.wav" "samples"
       = ([EvSoundFile (PStr "observation.wav")],
          Ok (Samples (Z.of_nat (sample_axis signal))))
    /\ audio_channels demo_world "observation.wav"
       = ([EvSoundFile (PStr "observation.wav")], Ok c)
    /\ List.length (data signal) = (c * sample_axis signal)%nat.
Proof.
  refine (audio_length_is_the_sample_axis (fun z => z) demo_world
            "observation.wav" (demo_file 5 6 4) _ _ _ _);
    reflexivity.
Defined.

(** X18.  A unit that is neither ['samples'] nor ['seconds'] makes
    [audio_length] return, not raise, the [ValueError(unit)] it builds,
    without opening the file; [load_audio] raises it for the same unit. *)
Theorem audio_length_returns_the_error {A : Type} (i16_sample : Z -> A)
    (w : World A) (p : string) (unit : string) (kw : kwargs A) :
  unit <> "samples" -> unit <> "seconds" ->
  annotated (PStr (normalize_path w p)) = false ->
  unit_ kw = unit ->
  audio_length w p unit = ([], Ok (Returned (Exn ValueError [AStr unit] None)))
  /\ load_audio i16_sample w (PStr p) None kw
     = ([], Err (Exn ValueError [AStr unit] None)).
Proof.
  intros H1 H2 Ha Hu.
  apply String.eqb_neq in H1. apply String.eqb_neq in H2.
  split.
  - unfold audio_length. now rewrite H1, H2.
  - unfold load_audio, read_signal. cbn [normalized].
    rewrite (split_annotation_plain _ _ _ _ _ _ Ha), bind_nil_ok.
    unfold resolve_unit. rewrite Hu, H1, H2. reflexivity.
Qed.

Lemma audio_length_returns_the_error_witness :
  audio_length demo_world "speech.wav" "frames"
  = ([], Ok (Returned (Exn ValueError [AStr "frames"] None)))
  /\ demo_load "speech.wav" None (with_unit "frames" default_kwargs)
     = ([], Err (Exn ValueError [AStr "frames"] None)).
Proof.
  refine (audio_length_returns_the_error (fun z => z) demo_world
            "speech.wav" "frames" (with_unit "frames" default_kwargs)
            _ _ _ _).
  - discriminate.
  - discriminate.
  - reflexivity.
  - reflexivity.
Defined.

(** ** The deprecated reader [audioread] *)

(** The number of samples and the position that lines 483-488 compute. *)
Lemma audioread_reader_window {A : Type} (r : WaveReader A)
    (offset : pynum) (duration : option pynum) (expected : option Z)
    (o samples : Z) :
  expected = None \/ expected = Some (wr_samplerate r) ->
  int_round (py_mul_rate offset (wr_samplerate r)) = Ok o ->
  duration = None /\ samples = wr_frames r - o
  \/ (exists d, duration = Some d
        /\ int_round (py_mul_rate d (wr_samplerate r)) = Ok samples) ->
  audioread_reader r offset duration expected
  = rbind (np_zeros_axis samples) (fun n =>
    rbind (wr_read r o n) (fun data =>
    Ok (squeeze (mk_ndarray [wr_channels r; n] data), wr_samplerate r))).
Proof.
  intros He Ho Hd. unfold audioread_reader.
  assert (E : match expected with
              | Some e =>
                  if negb (e =? wr_samplerate r)
                  then Err (Exn ValueError
                              [AStr (rate_message e (wr_samplerate r))] None)
                  else Ok tt
              | None => Ok tt
              end = Ok tt).
  { destruct He as [->| ->]; [reflexivity|]. now rewrite Z.eqb_refl. }
  rewrite E. cbn [rbind].
  destruct Hd as [[-> ->]|(d & -> & Hs)].
  - rewrite Ho. reflexivity.
  - rewrite Hs. cbn [rbind]. rewrite Ho. reflexivity.
Qed.

(** X19.  When the file's rate is not the expected one, [audioread]
    raises the ValueError that names both rates, whatever the offset and
    the duration and whatever a read would have given; the handler of
    OSError leaves it as it is. *)
Theorem audioread_rate_mismatch_raises {A : Type} (w : Wavefile A)
    (path : string) (offset : pynum) (duration : option pynum)
    (expected : Z) (r : WaveReader A) :
  WaveReader_open w (expanduser w path) = Ok r ->
  expected <> wr_samplerate r ->
  audioread w path offset duration (Some expected)
  = Err (Exn ValueError
           [AStr (rate_message expected (wr_samplerate r))] None).
Proof.
  intros Ho Hr. unfold audioread. rewrite Ho. cbn [rbind].
  unfold audioread_reader.
  apply Z.eqb_neq in Hr. rewrite Hr. reflexivity.
Qed.

Lemma audioread_rate_mismatch_raises_witness :
  audioread demo_wavefile "speech.wav" (PFloat 0%float) None (Some 8000)
  = Err (Exn ValueError
           [AStr (rate_message 8000 (wr_samplerate (demo_reader 8 1)))] None).
Proof.
  refine (audioread_rate_mismatch_raises demo_wavefile "speech.wav"
            (PFloat 0%float) None 8000 (demo_reader 8 1) _ _).
  - reflexivity.
  - discriminate.
Defined.

(** X20.  The shape [audioread] returns is fixed by the request, not by
    what is left of the file: with [samples] the rounded duration in
    samples, or the frames of the file after the offset when there is no
    duration, the result is the [(channels, samples)] buffer with its
    axes of length one dropped, so one channel gives one dimension and
    one sample drops the sample axis as well. *)
Theorem audioread_shape_is_the_request {A : Type} (w : Wavefile A)
    (path : string) (offset : pynum) (duration : option pynum)
    (expected : option Z) (r : WaveReader A) (o samples : Z)
    (buffer : list A) :
  WaveReader_open w (expanduser w path) = Ok r ->
  expected = None \/ expected = Some (wr_samplerate r) ->
  int_round (py_mul_rate offset (wr_samplerate r)) = Ok o ->
  duration = None /\ samples = wr_frames r - o
  \/ (exists d, duration = Some d
        /\ int_round (py_mul_rate d (wr_samplerate r)) = Ok samples) ->
  0 <= samples ->
  wr_read r o (Z.to_nat samples) = Ok buffer ->
  exists signal,
    audioread w path offset duration expected
    = Ok (signal, wr_samplerate r)
    /\ data signal = buffer
    /\ shape signal
       = ((if (wr_channels r =? 1)%nat then [] else [wr_channels r])
          ++ (if samples =? 1 then [] else [Z.to_nat samples]))%list.
Proof.
  intros Hopen He Ho Hd Hs Hr. unfold audioread. rewrite Hopen.
  cbn [rbind].
  rewrite (audioread_reader_window r offset duration expected o samples
             He Ho Hd).
  unfold np_zeros_axis.
  destruct (Z.ltb_spec samples 0) as [L|L]; [lia|].
  cbn [rbind]. rewrite Hr. cbn [rbind].
  eexists. split; [reflexivity|]. split; [reflexivity|].
  unfold squeeze. cbn [shape filter].
  replace (Z.to_nat samples =? 1)%nat with (samples =? 1).
  - destruct (wr_channels r =? 1)%nat, (samples =? 1); reflexivity.
  - destruct (Z.eqb_spec samples 1) as [->|N]; [reflexivity|].
    symmetry. apply Nat.eqb_neq. lia.
Qed.

Lemma audioread_shape_is_the_request_witness :
  exists signal,
    audioread demo_wavefile "observation.wav" (PFloat 0%float) None None
    = Ok (signal, 16000)
    /\ data signal
       = List.concat
           (map (fun ch => map (fun i => 10 * i + ch) [0; 1; 2; 3; 4])
              [0; 1; 2; 3; 4; 5])
    /\ shape signal = [6%nat; 5%nat].
Proof.
  refine (audioread_shape_is_the_request demo_wavefile "observation.wav"
            (PFloat 0%float) None None (demo_reader 5 6) 0 5
            _ _ _ _ _ _ _).
  - reflexivity.
  - now left.
  - reflexivity.
  - left. split; reflexivity.
  - lia.
  - reflexivity.
Defined.

(** X21.  A request for a negative number of samples, an offset beyond
    the end of the file without a duration or a negative duration, makes
    [audioread] raise the ValueError of [np.zeros]; nothing is read and
    no empty array is returned. *)
Theorem audioread_negative_length_raises {A : Type} (w : Wavefile A)
    (path : string) (offset : pynum) (duration : option pynum)
    (expected : option Z) (r : WaveReader A) (o samples : Z) :
  WaveReader_open w (expanduser w path) = Ok r ->
  expected = None \/ expected = Some (wr_samplerate r) ->
  int_round (py_mul_rate offset (wr_samplerate r)) = Ok o ->
  duration = None /\ samples = wr_frames r - o
  \/ (exists d, duration = Some d
        /\ int_round (py_mul_rate d (wr_samplerate r)) = Ok samples) ->
  samples < 0 ->
  audioread w path offset duration expected
  = Err (Exn ValueError [AStr "negative dimensions are not allowed"] None).
Proof.
  intros Hopen He Ho Hd Hs. unfold audioread. rewrite Hopen.
  cbn [rbind].
  rewrite (audioread_reader_window r offset duration expected o samples
             He Ho Hd).
  unfold np_zeros_axis.
  destruct (Z.ltb_spec samples 0) as [L|L]; [|lia].
  reflexivity.
Qed.

Lemma audioread_negative_length_raises_witness :
  audioread demo_wavefile "speech.wav" (PInt 1) None None
  = Err (Exn ValueError [AStr "negative dimensions are not allowed"] None).
Proof.
  refine (audioread_negative_length_raises demo_wavefile "speech.wav"
            (PInt 1) None None (demo_reader 8 1) 16000 (-15992)
            _ _ _ _ _).
  - reflexivity.
  - now left.
  - reflexivity.
  - left. split; reflexivity.
  - lia.
Defined.

(** X22.  When the file cannot be opened and the error is an OSError,
    [audioread] raises a new OSError whose message is the output of
    [file <path>] for the expanded path, with the first error as its
    cause; an error of another class is raised as it is. *)
Theorem audioread_open_error {A : Type} (w : Wavefile A)
    (path : string) (offset : pynum) (duration : option pynum)
    (expected : option Z) (e : exn) (stdout : string) :
  WaveReader_open w (expanduser w path) = Err e ->
  run_file w (expanduser w path) = Ok stdout ->
  audioread w path offset duration expected
  = Err (if is_OSError (exn_cls e)
         then Exn OSError [AStr stdout] (Some e)
         else e).
Proof.
  intros Hopen Hf. unfold audioread. rewrite Hopen. cbn [rbind].
  destruct (is_OSError (exn_cls e)); [|reflexivity].
  rewrite Hf. reflexivity.
Qed.

Lemma audioread_open_error_witness :
  audioread demo_wavefile "123_1pcbe_shn.sph" (PFloat 0%float) None None
  = Err (Exn OSError [AStr "123_1pcbe_shn.sph: data"]
           (Some (Exn OSError [AStr "Error opening file"] None))).
Proof.
  refine (audioread_open_error demo_wavefile "123_1pcbe_shn.sph"
            (PFloat 0%float) None None
            (Exn OSError [AStr "Error opening file"] None)
            "123_1pcbe_shn.sph: data" _ _);
    reflexivity.
Defined.

(** ** [read_from_byte_string] *)

Lemma strided_step {X : Type} (step k : nat) (l : list X) :
  strided step k l
  = (firstn 1 (skipn k l) ++ strided step (step - 1) (skipn (S k) l))%list.
Proof.
  revert k. induction l as [|x l IH]; intros k.
  - now rewrite !skipn_nil.
  - destruct k as [|k]; [reflexivity|].
    cbn [strided]. rewrite IH. reflexivity.
Qed.

Lemma flat_map_seq_S {X : Type} (g : nat -> list X) (s n : nat) :
  flat_map g (seq (S s) n) = flat_map (fun i => g (S i)) (seq s n).
Proof.
  revert s. induction n as [|n IH]; intros s; [reflexivity|].
  cbn [seq flat_map]. now rewrite IH.
Qed.

Lemma strided_col {X : Type} (step n k : nat) (l : list X) :
  (1 <= step)%nat -> (List.length l <= k + n * step)%nat ->
  strided step k l
  = flat_map (fun i => firstn 1 (skipn (i * step + k) l)) (seq 0 n).
Proof.
  intros Hs. revert k l. induction n as [|n IH]; intros k l Hl.
  - cbn [seq flat_map]. rewrite strided_step.
    rewrite !skipn_all2 by lia. reflexivity.
  - rewrite strided_step. cbn [seq flat_map]. cbn [Nat.mul Nat.add].
    f_equal. rewrite IH by (rewrite length_skipn; lia).
    rewrite flat_map_seq_S.
    apply flat_map_ext. intros i. rewrite skipn_skipn.
    do 2 f_equal. lia.
Qed.

Lemma np_max_spec (l : list Z) :
  l <> [] ->
  exists m, np_max l = Ok m /\ In m l /\ forall x, In x l -> x <= m.
Proof.
  destruct l as [|x l]; [congruence|]. intros _.
  exists (fold_left Z.max l x). split; [reflexivity|].
  revert x. induction l as [|y l IH]; intros x; cbn [fold_left].
  - split; [now left|]. intros z [->|[]]. lia.
  - destruct (IH (Z.max x y)) as [Hin Hle]. split.
    + destruct Hin as [E|Hin]; [|now right; right].
      rewrite <- E. destruct (Z.max_spec x y) as [[_ ->]|[_ ->]];
        [right; now left | now left].
    + intros z Hz.
      assert (Hxy : x <= Z.max x y /\ y <= Z.max x y) by lia.
      destruct Hz as [->|[->|Hz]].
      * specialize (Hle (Z.max z y) (or_introl eq_refl)). lia.
      * specialize (Hle (Z.max x z) (or_introl eq_refl)). lia.
      * apply Hle. now right.
Qed.

(** The elements of the transposed data are those of the data. *)
Lemma In_cols {X : Type} (n m : nat) (d : list X) (x : X) :
  List.length d = (n * m)%nat ->
  In x (flat_map (col n m d) (seq 0 m)) <-> In x d.
Proof.
  intros Hd. unfold col. split.
  - intros H. apply in_flat_map in H. destruct H as (j & Hj & H).
    apply in_flat_map in H. destruct H as (i & Hi & H).
    apply in_seq in Hj. apply in_seq in Hi.
    destruct (firstn1_skipn d (i * m + j)) as (y & E & Hy);
      [rewrite Hd; nia|].
    rewrite E in H. destruct H as [<-|[]].
    eapply nth_error_In. exact Hy.
  - intros H. apply In_nth_error in H. destruct H as [k Hk].
    assert (Hlt : (k < n * m)%nat).
    { rewrite <- Hd. apply nth_error_Some. congruence. }
    assert (Hm : (m <> 0)%nat) by nia.
    apply in_flat_map. exists (k mod m)%nat. split.
    { apply in_seq. pose proof (Nat.mod_upper_bound k m Hm). lia. }
    apply in_flat_map. exists (k / m)%nat. split.
    { apply in_seq. split; [lia|]. cbn.
      apply Nat.Div0.div_lt_upper_bound. lia. }
    replace (k / m * m + k mod m)%nat with k
      by (rewrite (Nat.div_mod_eq k m) at 1; lia).
    destruct (firstn1_skipn d k) as (y & E & Hy); [lia|].
    rewrite E. left. congruence.
Qed.

(** X23.  [read_from_byte_string] turns the interleaved 16-bit samples of
    [c > 0] channels and [n > 0] frames into an array of shape [(c, n)]
    whose entry at channel [ch] and frame [i] is sample [i * c + ch] of
    the stream divided by the largest sample of the whole stream, the
    same divisor for every channel. *)
Theorem read_from_byte_string_deinterleaves {A : Type}
    (f32_div : Z -> Z -> A)
    (wave_openfp : list Byte.byte -> result Wave_read)
    (byte_string : list Byte.byte) (wav_file : Wave_read)
    (samples : list Z) (n : nat) :
  wave_openfp byte_string = Ok wav_file ->
  frombuffer_i2 (readframes wav_file (getnframes wav_file)) = Ok samples ->
  List.length samples = (n * getnchannels wav_file)%nat ->
  (0 < getnchannels wav_file)%nat -> (0 < n)%nat ->
  exists a m,
    read_from_byte_string f32_div wave_openfp byte_string = Ok a
    /\ shape a = [getnchannels wav_file; n]
    /\ In m samples /\ (forall x, In x samples -> x <= m)
    /\ forall ch i x,
         (ch < getnchannels wav_file)%nat -> (i < n)%nat ->
         nth_error samples (i * getnchannels wav_file + ch) = Some x ->
         entry a ch i = Some (f32_div x m).
Proof.
  intros Hopen Hbuf Hlen Hc Hn.
  set (c := getnchannels wav_file) in *.
  unfold read_from_byte_string. rewrite Hopen. cbn [rbind].
  rewrite Hbuf. cbn [rbind]. fold c.
  assert (Hrows : map (fun ch => strided c ch samples) (seq 0 c)
                  = map (col n c samples) (seq 0 c)).
  { apply map_ext_in. intros ch Hch. apply in_seq in Hch.
    unfold col. apply strided_col; lia. }
  rewrite Hrows.
  assert (Hall : Forall (fun r => List.length r = n)
                   (map (col n c samples) (seq 0 c))).
  { apply Forall_forall. intros r Hr. apply in_map_iff in Hr.
    destruct Hr as (ch & <- & Hch). apply in_seq in Hch.
    apply col_spec; [exact Hlen | lia]. }
  assert (Hnum : List.length (map (col n c samples) (seq 0 c)) = c)
    by now rewrite length_map, length_seq.
  unfold np_array_rows.
  destruct (map (col n c samples) (seq 0 c)) as [|r rows] eqn:E.
  { cbn in Hnum. lia. }
  assert (Hr : List.length r = n) by now inversion Hall.
  replace (forallb (fun r' => (List.length r' =? List.length r)%nat)
             (r :: rows)) with true.
  2:{ symmetry. apply forallb_forall. intros r' Hr'.
      rewrite Forall_forall in Hall. rewrite (Hall r' Hr'), Hr.
      apply Nat.eqb_refl. }
  cbn [rbind data shape]. rewrite Hnum, Hr, <- E.
  rewrite <- flat_map_concat_map.
  set (t := flat_map (col n c samples) (seq 0 c)).
  destruct (transpose_spec (mk_ndarray [n; c] samples) n c eq_refl Hlen)
    as (_ & Htl & Hte).
  unfold transpose in Htl, Hte. cbn [shape data] in Htl, Hte. fold t in Htl, Hte.
  destruct (np_max_spec t) as (m & Hm & Hin & Hle).
  { intros Ht. rewrite Ht in Htl. cbn in Htl. nia. }
  rewrite Hm. cbn [rbind].
  eexists _, m. split; [reflexivity|]. split; [reflexivity|].
  split; [now apply (In_cols n c samples m Hlen)|]. split.
  { intros x Hx. apply Hle. now apply (In_cols n c samples x Hlen). }
  intros ch i x Hch Hi Hx.
  specialize (Hte i ch Hi Hch). unfold entry in Hte |- *.
  cbn [shape data] in Hte |- *.
  rewrite nth_error_map, Hte, Hx. reflexivity.
Qed.

Lemma read_from_byte_string_deinterleaves_witness :
  exists a m,
    read_from_byte_string (fun x m => (x, m)) demo_wave demo_bytes = Ok a
    /\ shape a = [2%nat; 3%nat]
    /\ In m [1; -1; 2; -2; 3; -3]
    /\ (forall x, In x [1; -1; 2; -2; 3; -3] -> x <= m)
    /\ forall ch i x,
         (ch < 2)%nat -> (i < 3)%nat ->
         nth_error [1; -1; 2; -2; 3; -3] (i * 2 + ch) = Some x ->
         entry a ch i = Some (x, m).
Proof.
  refine (read_from_byte_string_deinterleaves (fun x m => (x, m))
            demo_wave demo_bytes
            {| getnchannels := 2; getnframes := 3;
               readframes := fun n => firstn (4 * n) demo_bytes |}
            [1; -1; 2; -2; 3; -3] 3 _ _ _ _ _).
  - reflexivity.
  - reflexivity.
  - reflexivity.
  - cbn. lia.
  - lia.
Defined.

Lemma strided_rows_nil (step : nat) (l : list nat) :
  map (fun ch => @strided Z step ch []) l = repeat [] (List.length l).
Proof.
  induction l as [|ch l IH]; [reflexivity|].
  cbn [map List.length repeat]. now rewrite IH.
Qed.

Lemma concat_repeat_nil {X : Type} (c : nat) :
  List.concat (repeat (@nil X) c) = [].
Proof. induction c as [|c IH]; [reflexivity|]. exact IH. Qed.

(** X24.  A stream without samples makes [read_from_byte_string] raise
    the ValueError of [np.max] on an empty array, whatever the number of
    channels of the header; no empty array is returned. *)
Theorem read_from_byte_string_empty_raises {A : Type}
    (f32_div : Z -> Z -> A)
    (wave_openfp : list Byte.byte -> result Wave_read)
    (byte_string : list Byte.byte) (wav_file : Wave_read) :
  wave_openfp byte_string = Ok wav_file ->
  frombuffer_i2 (readframes wav_file (getnframes wav_file)) = Ok [] ->
  read_from_byte_string f32_div wave_openfp byte_string
  = Err (Exn ValueError
           [AStr ("zero-size array to reduction operation maximum "
                  ++ "which has no identity")] None).
Proof.
  intros Hopen Hbuf. unfold read_from_byte_string.
  rewrite Hopen. cbn [rbind]. rewrite Hbuf. cbn [rbind].
  rewrite strided_rows_nil, length_seq.
  unfold np_array_rows.
  destruct (getnchannels wav_file) as [|c]; [reflexivity|].
  cbn [repeat].
  replace (forallb (fun r' => (List.length r' =? @List.length Z [])%nat)
             ([] :: repeat [] c)) with true.
  2:{ symmetry. apply forallb_forall. intros r' [<-|Hr'];
        [reflexivity|]. apply repeat_spec in Hr'. now subst. }
  cbn [rbind data List.concat app].
  rewrite concat_repeat_nil. reflexivity.
Qed.

Lemma read_from_byte_string_empty_raises_witness :
  read_from_byte_string (fun x m => (x, m)) demo_wave []
  = Err (Exn ValueError
           [AStr ("zero-size array to reduction operation maximum "
                  ++ "which has no identity")] None).
Proof.
  refine (read_from_byte_string_empty_raises (fun x m => (x, m))
            demo_wave []
            {| getnchannels := 2; getnframes := 3;
               readframes := fun n => firstn (4 * n) [] |} _ _);
    reflexivity.
Defined.
